(** * crawl_script.py: a shallow embedding and its checked properties

    The script submits a page to a Crawl4AI server, polls for the result,
    extracts markdown from the JSON reply, cleans it and saves it under a
    name derived from the URL.  This file embeds the pure parts
    ([clean_and_validate_url], [get_filename_from_url],
    [clean_markdown_content], [extract_clean_content]) as functions on
    Python strings and JSON values, and the polling loop
    ([wait_for_completion]) as a function of an explicit world.  The rest
    of the script ([read_urls_from_file], [process_single_url], [main])
    is embedded over a session: the journal of everything done so far and
    the lines still to be typed at the prompts.

    Python strings are lists of code points.  Exceptions are the [Raise]
    case of [outcome].  The parts of the CPython runtime that are large
    tables or separate libraries (Unicode properties of non-ASCII code
    points, [repr] of containers, the IP-literal and NFKC checks of
    [urllib.parse], [urljoin]) are the fields of [Runtime]; the theorems
    hold for every runtime.  [urlsplit] and [urlparse] follow
    [urllib/parse.py] of CPython 3.11 and 3.12. *)

From Stdlib Require Import String Ascii.
From Stdlib Require Import List NArith Arith Bool Lia DecimalString.
Import ListNotations.

Set Warnings "-register-all".

Open Scope N_scope.

(** ** Python strings *)

Definition char := N.
Definition pystr := list char.

(** An ASCII literal as a Python string. *)
Definition lit (s : string) : pystr := map N_of_ascii (list_ascii_of_string s).
Arguments lit s%_string.

Fixpoint str_eqb (a b : pystr) : bool :=
  match a, b with
  | [], [] => true
  | x :: a', y :: b' => (x =? y) && str_eqb a' b'
  | _, _ => false
  end.

Definition in_range (lo hi c : char) : bool := (lo <=? c) && (c <=? hi).

Definition is_ascii (c : char) : bool := c <? 128.
Definition ascii_digit (c : char) : bool := in_range 48 57 c.
Definition ascii_upper (c : char) : bool := in_range 65 90 c.
Definition ascii_lower (c : char) : bool := in_range 97 122 c.
Definition ascii_alpha (c : char) : bool := ascii_upper c || ascii_lower c.

(** [Py_UNICODE_ISSPACE]: the characters [str.strip()] removes and the
    regular expression class [\s] matches on a [str] pattern. *)
Definition is_space (c : char) : bool :=
  in_range 9 13 c || in_range 28 32 c || (c =? 133) || (c =? 160)
  || (c =? 5760) || in_range 8192 8202 c || (c =? 8232) || (c =? 8233)
  || (c =? 8239) || (c =? 8287) || (c =? 12288).

(** [c in chars] for a character. *)
Definition mem (c : char) (chars : pystr) : bool := existsb (N.eqb c) chars.

Fixpoint starts_with (prefix s : pystr) : bool :=
  match prefix, s with
  | [], _ => true
  | p :: prefix', c :: s' => (p =? c) && starts_with prefix' s'
  | _ :: _, [] => false
  end.

(** [sub in s] for strings. *)
Fixpoint contains (sub s : pystr) : bool :=
  starts_with sub s ||
  match s with
  | [] => false
  | _ :: s' => contains sub s'
  end.

(** Length of the longest prefix of [s] whose characters satisfy [p]. *)
Fixpoint span (p : char -> bool) (s : pystr) : nat :=
  match s with
  | c :: s' => if p c then S (span p s') else O
  | [] => O
  end.

Fixpoint drop_while (p : char -> bool) (s : pystr) : pystr :=
  match s with
  | c :: s' => if p c then drop_while p s' else s
  | [] => []
  end.

Definition lstrip_by (p : char -> bool) (s : pystr) : pystr := drop_while p s.
Definition rstrip_by (p : char -> bool) (s : pystr) : pystr :=
  rev (drop_while p (rev s)).
Definition strip_by (p : char -> bool) (s : pystr) : pystr :=
  rstrip_by p (lstrip_by p s).

(** [s.strip()] *)
Definition strip (s : pystr) : pystr := strip_by is_space s.

(** [s.partition(sep)] for a one-character separator: the text before the
    first [sep], whether [sep] was found, the text after it. *)
Definition partition (sep : char) (s : pystr) : pystr * bool * pystr :=
  let n := span (fun c => negb (c =? sep)) s in
  match skipn n s with
  | _ :: after => (firstn n s, true, after)
  | [] => (s, false, [])
  end.

(** [s.rpartition(sep)[2]]: the text after the last [sep], all of [s]
    when there is none. *)
Definition after_last (sep : char) (s : pystr) : pystr :=
  rev (firstn (span (fun c => negb (c =? sep)) (rev s)) (rev s)).

(** [s.split(sep)] for a one-character separator. *)
Fixpoint split_on (sep : char) (s : pystr) : list pystr :=
  match s with
  | [] => [[]]
  | c :: s' =>
      if c =? sep then [] :: split_on sep s'
      else match split_on sep s' with
           | piece :: rest => (c :: piece) :: rest
           | [] => [[c]]
           end
  end.

(** ** JSON values as [response.json()] returns them *)

(** A JSON number is an [int] or a [float]; the script only tests its
    truth value and formats it with [str]. *)
Record pynum := { num_truthy : bool; num_str : pystr }.

(** A [dict] is kept as its list of items; a lookup takes the first item
    with the key. *)
Inductive json :=
| JNull
| JBool (b : bool)
| JNum (n : pynum)
| JStr (s : pystr)
| JArr (items : list json)
| JObj (fields : list (pystr * json)).

Fixpoint lookup (key : pystr) (fields : list (pystr * json)) : option json :=
  match fields with
  | [] => None
  | (k, v) :: rest => if str_eqb k key then Some v else lookup key rest
  end.

(** Python's truth value of a JSON value. *)
Definition truthy (v : json) : bool :=
  match v with
  | JNull => false
  | JBool b => b
  | JNum n => num_truthy n
  | JStr s => negb (str_eqb s [])
  | JArr items => match items with [] => false | _ => true end
  | JObj fields => match fields with [] => false | _ => true end
  end.

(** ** Exceptions *)

Inductive exn :=
| TypeError | KeyError | IndexError | ValueError | AttributeError
| OSError | JSONDecodeError | RequestException | UnicodeEncodeError.

Inductive outcome (A : Type) :=
| Ret (a : A)
| Raise (e : exn).
Arguments Ret {A} a.
Arguments Raise {A} e.

Definition bind {A B} (m : outcome A) (k : A -> outcome B) : outcome B :=
  match m with
  | Ret a => k a
  | Raise e => Raise e
  end.

Notation "x <- m ;; k" := (bind m (fun x => k))
  (at level 61, m at next level, right associativity).

(** ** The runtime *)

Record Runtime := {
  (** [Py_UNICODE_ISDECIMAL] on code points from 128 on: the non-ASCII
      part of [\d]. *)
  uni_decimal : char -> bool;
  (** [Py_UNICODE_ISALNUM] on code points from 128 on: the non-ASCII part
      of [\w]. *)
  uni_alnum : char -> bool;
  (** [str.lower] on a string that holds a non-ASCII character. *)
  uni_lower : pystr -> pystr;
  (** [repr] of a list or dict, which is what [str] gives for them. *)
  py_repr : json -> pystr;
  (** [urllib.parse._check_bracketed_netloc]: [false] when it raises
      [ValueError] for a network location with both brackets. *)
  bracketed_netloc_ok : pystr -> bool;
  (** [urllib.parse._checknetloc] on a non-ASCII network location:
      [false] when it raises [ValueError]. *)
  nfkc_netloc_ok : pystr -> bool;
  (** [urllib.parse.urljoin base url] *)
  urljoin : pystr -> pystr -> outcome pystr
}.

(** A runtime whose tables hold nothing beyond Basic Latin.  On ASCII
    input no field of a runtime is consulted, so this one serves to run
    the definitions on ASCII examples. *)
Definition basic_latin : Runtime := {|
  uni_decimal := fun _ => false;
  uni_alnum := fun _ => false;
  uni_lower := fun s => s;
  py_repr := fun _ => [];
  bracketed_netloc_ok := fun _ => true;
  nfkc_netloc_ok := fun _ => true;
  urljoin := fun base url => Ret (base ++ url)
|}.

(** ** [re.sub] *)

Section ReSub.

(** [match_at prev s]: the length of the match of the pattern that
    starts at the head of [s], where [prev] is the character before it.
    None of the script's patterns matches the empty string, so a length
    of zero counts as no match. *)
Variable match_at : option char -> pystr -> option nat.

(** [repl m]: the replacement for the matched text [m]. *)
Variable repl : pystr -> pystr.

(** Left to right, non-overlapping: at a match, emit the replacement
    and resume after it ([skip] counts the matched characters still to
    pass over); elsewhere copy the character. *)
Fixpoint sub_from (prev : option char) (skip : nat) (s : pystr) : pystr :=
  match s with
  | [] => []
  | c :: s' =>
      match skip with
      | S k => sub_from (Some c) k s'
      | O =>
          match match_at prev s with
          | Some (S n) => repl (firstn (S n) s) ++ sub_from (Some c) n s'
          | _ => c :: sub_from (Some c) O s'
          end
      end
  end.

Definition re_sub (s : pystr) : pystr := sub_from None O s.

End ReSub.

(** [p* q] at the head of [t], greedy with backtracking: the largest [k]
    such that the first [k] characters satisfy [p] and the next one
    satisfies [q]. *)
Fixpoint run_then (p q : char -> bool) (t : pystr) : option nat :=
  match t with
  | [] => None
  | c :: t' =>
      match (if p c then run_then p q t' else None) with
      | Some k => Some (S k)
      | None => if q c then Some O else None
      end
  end.

Definition is_char (x : char) : char -> bool := fun c => c =? x.
Definition not_char (x : char) : char -> bool := fun c => negb (c =? x).

Definition delete (_ : pystr) : pystr := [].
Definition replace_by (new : pystr) (_ : pystr) : pystr := new.

(** [s.replace(old, new)] for a non-empty [old]. *)
Definition str_replace (old new s : pystr) : pystr :=
  re_sub (fun _ t => if starts_with old t then Some (length old) else None)
         (replace_by new) s.

Section WithRuntime.

Variable R : Runtime.

(** [\d] and [\w] of a [str] pattern. *)
Definition re_digit (c : char) : bool :=
  if is_ascii c then ascii_digit c else uni_decimal R c.
Definition re_word (c : char) : bool :=
  if is_ascii c then ascii_alpha c || ascii_digit c || (c =? 95)
  else uni_alnum R c.

(** [s.lower()] *)
Definition to_lower (c : char) : char := if ascii_upper c then c + 32 else c.
Definition str_lower (s : pystr) : pystr :=
  if forallb is_ascii s then map to_lower s else uni_lower R s.

(** [str(v)] *)
Definition py_str (v : json) : pystr :=
  match v with
  | JStr s => s
  | JNull => lit "None"
  | JBool true => lit "True"
  | JBool false => lit "False"
  | JNum n => num_str n
  | JArr _ | JObj _ => py_repr R v
  end.

(** *** The patterns of [clean_markdown_content] *)

(** The citation marker: U+27E8, then [\d+], then U+27E9. *)
Definition m_citation (_ : option char) (s : pystr) : option nat :=
  match s with
  | 10216 :: t =>
      match run_then re_digit (is_char 10217) t with
      | Some (S k) => Some (S k + 2)%nat
      | _ => None
      end
  | _ => None
  end.

(** [\bURL\b]: the three letters, no word character before or after. *)
Definition m_url_word (prev : option char) (s : pystr) : option nat :=
  match s with
  | 85 :: 82 :: 76 :: t =>
      let before := match prev with Some c => re_word c | None => false end in
      let after := match t with c :: _ => re_word c | [] => false end in
      if negb before && negb after then Some 3%nat else None
  | _ => None
  end.

(** The image pattern of line 75: [!], [\[], group 1 = a run of
    characters other than the closing bracket, [\]], [\(], a run of
    characters other than the closing parenthesis, [\)].  A character of
    the first run is not a closing bracket and one of the second is not
    a closing parenthesis, so each run has one possible end. *)
Definition m_image (_ : option char) (s : pystr) : option nat :=
  match s with
  | 33 :: 91 :: t =>
      match run_then (not_char 93) (is_char 93) t with
      | Some a =>
          match skipn (S a) t with
          | 40 :: u =>
              match run_then (not_char 41) (is_char 41) u with
              | Some b => Some (2 + a + 2 + b + 1)%nat
              | None => None
              end
          | _ => None
          end
      | None => None
      end
  | _ => None
  end.

(** The replacement [\1] of the image pattern: the text between the
    square brackets. *)
Definition image_alt (m : pystr) : pystr :=
  let t := skipn 2 m in firstn (span (not_char 93) t) t.

(** [\n{3,}] *)
Definition m_newlines (_ : option char) (s : pystr) : option nat :=
  let n := span (is_char 10) s in
  if (3 <=? n)%nat then Some n else None.

Definition is_punct (c : char) : bool :=
  (c =? 44) || (c =? 46) || (c =? 33) || (c =? 63).

(** [\s+([,.!?])] *)
Definition m_space_punct (_ : option char) (s : pystr) : option nat :=
  match run_then is_space is_punct s with
  | Some (S k) => Some (S k + 1)%nat
  | _ => None
  end.

(** The replacement [\1] of that pattern: the punctuation mark, which is
    the last character of the match. *)
Definition last_char (m : pystr) : pystr := skipn (length m - 1) m.

Definition is_blank (c : char) : bool := (c =? 32) || (c =? 9).

(** [[ \t]+] *)
Definition m_blanks (_ : option char) (s : pystr) : option nat :=
  match span is_blank s with
  | O => None
  | n => Some n
  end.

(** The empty link of line 87: [\[\]\(], a run of characters other than
    the closing parenthesis, [\)]. *)
Definition m_empty_link (_ : option char) (s : pystr) : option nat :=
  match s with
  | 91 :: 93 :: 40 :: t =>
      match run_then (not_char 41) (is_char 41) t with
      | Some b => Some (3 + b + 1)%nat
      | None => None
      end
  | _ => None
  end.

(** [\.{2,}] *)
Definition m_dots (_ : option char) (s : pystr) : option nat :=
  let n := span (is_char 46) s in
  if (2 <=? n)%nat then Some n else None.

(** The eight substitutions of [clean_markdown_content], in order. *)
Definition clean_passes (text : pystr) : pystr :=
  let text := re_sub m_citation delete text in
  let text := re_sub m_url_word delete text in
  let text := re_sub m_image image_alt text in
  let text := re_sub m_newlines (replace_by [10; 10]) text in
  let text := re_sub m_space_punct last_char text in
  let text := re_sub m_blanks (replace_by [32]) text in
  let text := re_sub m_empty_link delete text in
  let text := re_sub m_dots (replace_by [46]) text in
  text.

Definition clean_markdown_content (content : json) : pystr :=
  if negb (truthy content) then []
  else strip (clean_passes (py_str content)).

(** *** [urllib.parse.urlparse] *)

Record ParseResult := {
  scheme : pystr;
  netloc : pystr;
  path : pystr;
  params : pystr;
  query : pystr;
  fragment : pystr
}.

Definition is_empty (s : pystr) : bool :=
  match s with [] => true | _ :: _ => false end.

(** [s.find(c)] and [s.rfind(c)] *)
Definition find_char (c : char) (s : pystr) : option nat :=
  let n := span (not_char c) s in
  if (n <? length s)%nat then Some n else None.
Definition rfind_char (c : char) (s : pystr) : option nat :=
  let n := span (not_char c) (rev s) in
  if (n <? length s)%nat then Some (length s - 1 - n)%nat else None.

Definition scheme_char (c : char) : bool :=
  ascii_alpha c || ascii_digit c || mem c (lit "+-.").
Definition c0_control_or_space (c : char) : bool := c <=? 32.
Definition unsafe_url_byte (c : char) : bool := mem c [9; 13; 10].

(** The scheme of [urlsplit]: the text before the first colon when it
    starts with an ASCII letter and holds scheme characters only. *)
Definition split_scheme (url : pystr) : pystr * pystr :=
  match find_char 58 url with
  | Some (S i) =>
      if match url with c :: _ => is_ascii c && ascii_alpha c | [] => false end
         && forallb scheme_char (firstn (S i) url)
      then (str_lower (firstn (S i) url), skipn (S (S i)) url)
      else ([], url)
  | _ => ([], url)
  end.

(** [_splitnetloc(url, 2)] and the bracket checks that follow it. *)
Definition split_netloc (url : pystr) : outcome (pystr * pystr) :=
  if starts_with (lit "//") url then
    let body := skipn 2 url in
    let delim := span (fun c => negb (mem c (lit "/?#"))) body in
    let netloc := firstn delim body in
    let open_br := mem 91 netloc in
    let close_br := mem 93 netloc in
    if (open_br && negb close_br) || (close_br && negb open_br)
    then Raise ValueError
    else if open_br && close_br && negb (bracketed_netloc_ok R netloc)
    then Raise ValueError
    else Ret (netloc, skipn delim body)
  else Ret ([], url).

(** [_checknetloc] *)
Definition checknetloc (netloc : pystr) : outcome unit :=
  if is_empty netloc || forallb is_ascii netloc then Ret tt
  else if nfkc_netloc_ok R netloc then Ret tt
  else Raise ValueError.

(** [urlsplit]; the result keeps [params] empty. *)
Definition urlsplit (url : pystr) : outcome ParseResult :=
  let url := lstrip_by c0_control_or_space url in
  let url := filter (fun c => negb (unsafe_url_byte c)) url in
  let '(scheme, url) := split_scheme url in
  nl <- split_netloc url ;;
  let '(netloc, url) := nl in
  let '(url, _, fragment) := partition 35 url in
  let '(url, _, query) := partition 63 url in
  _ <- checknetloc netloc ;;
  Ret {| scheme := scheme; netloc := netloc; path := url; params := [];
         query := query; fragment := fragment |}.

Definition uses_params : list pystr :=
  [ []; lit "ftp"; lit "hdl"; lit "prospero"; lit "http"; lit "imap";
    lit "https"; lit "shttp"; lit "rtsp"; lit "rtspu"; lit "sip";
    lit "sips"; lit "mms"; lit "sftp"; lit "tel" ].

(** [_splitparams] *)
Definition splitparams (url : pystr) : pystr * pystr :=
  let cut (i : nat) := (firstn i url, skipn (S i) url) in
  match rfind_char 47 url with
  | Some slash =>
      match find_char 59 (skipn slash url) with
      | Some j => cut (slash + j)%nat
      | None => (url, [])
      end
  | None =>
      match find_char 59 url with
      | Some i => cut i
      | None => (removelast url, url)
      end
  end.

Definition urlparse (url : pystr) : outcome ParseResult :=
  r <- urlsplit url ;;
  if existsb (str_eqb (scheme r)) uses_params && mem 59 (path r) then
    let '(url, params) := splitparams (path r) in
    Ret {| scheme := scheme r; netloc := netloc r; path := url;
           params := params; query := query r; fragment := fragment r |}
  else Ret r.

(** The [hostname] property of a parse result. *)
Definition hostname (p : ParseResult) : option pystr :=
  let hostinfo := after_last 64 (netloc p) in
  let '(_, have_open_br, bracketed) := partition 91 hostinfo in
  let host :=
    if have_open_br then fst (fst (partition 93 bracketed))
    else fst (fst (partition 58 hostinfo)) in
  if is_empty host then None
  else
    let '(name, percent, zone) := partition 37 host in
    Some (str_lower name ++ (if percent then [37] else []) ++ zone).

(** *** [get_filename_from_url] *)

(** [[^\w\-]] *)
Definition m_not_name_char (_ : option char) (s : pystr) : option nat :=
  match s with
  | c :: _ => if re_word c || (c =? 45) then None else Some 1%nat
  | [] => None
  end.

Definition get_filename_from_url (url : pystr) : outcome pystr :=
  parsed <- urlparse url ;;
  let hostname :=
    match hostname parsed with
    | Some h => str_replace (lit "www.") [] h
    | None => lit "unknown"
    end in
  let hostname := re_sub m_not_name_char delete hostname in
  let path := strip_by (is_char 47) (path parsed) in
  if is_empty path || str_eqb path (lit "index.html")
     || str_eqb path (lit "index.php")
  then Ret (hostname ++ lit ".md")
  else
    let path_parts := split_on 47 path in
    let page_name := last path_parts [] in
    let page_name :=
      if mem 46 page_name then hd [] (split_on 46 page_name)
      else page_name in
    let page_name := re_sub m_not_name_char delete page_name in
    if negb (is_empty page_name)
    then Ret (hostname ++ lit "-" ++ page_name ++ lit ".md")
    else Ret (hostname ++ lit ".md").

(** *** [clean_and_validate_url] *)

(** The RTF group of line 164: [\{], a run of characters other than the
    closing brace, [\}]. *)
Definition m_rtf_group (_ : option char) (s : pystr) : option nat :=
  match s with
  | 123 :: t =>
      match run_then (not_char 125) (is_char 125) t with
      | Some k => Some (k + 2)%nat
      | None => None
      end
  | _ => None
  end.

(** [\\[a-zA-Z]+\d*] *)
Definition m_rtf_command (_ : option char) (s : pystr) : option nat :=
  match s with
  | 92 :: t =>
      match span ascii_alpha t with
      | O => None
      | l => Some (1 + l + span re_digit (skipn l t))%nat
      end
  | _ => None
  end.

(** [[^\x20-\x7E]] *)
Definition printable (c : char) : bool := in_range 32 126 c.
Definition m_unprintable (_ : option char) (s : pystr) : option nat :=
  match s with
  | c :: _ => if printable c then None else Some 1%nat
  | [] => None
  end.

Definition has_protocol (url : pystr) : bool :=
  starts_with (lit "http://") url || starts_with (lit "https://") url.

Definition clean_and_validate_url (url : pystr) : outcome (option pystr) :=
  if is_empty url then Ret None
  else
    let url := re_sub m_rtf_group delete url in
    let url := re_sub m_rtf_command delete url in
    let url := re_sub m_unprintable delete url in
    let url := strip url in
    if is_empty url then Ret None
    else if starts_with (lit "#") url then Ret None
    else
      let url := if has_protocol url then url else lit "https://" ++ url in
      parsed <- urlparse url ;;
      if is_empty (netloc parsed) || is_empty (scheme parsed) then Ret None
      else Ret (Some url).

(** *** [extract_clean_content] *)

(** [key in v] *)
Definition py_in (key : pystr) (v : json) : outcome bool :=
  match v with
  | JObj fields =>
      Ret (match lookup key fields with Some _ => true | None => false end)
  | JArr items =>
      Ret (existsb (fun x => match x with
                             | JStr s => str_eqb s key
                             | _ => false
                             end) items)
  | JStr s => Ret (contains key s)
  | JNull | JBool _ | JNum _ => Raise TypeError
  end.

(** [v[key]] for a string key *)
Definition py_getitem (v : json) (key : pystr) : outcome json :=
  match v with
  | JObj fields =>
      match lookup key fields with
      | Some x => Ret x
      | None => Raise KeyError
      end
  | _ => Raise TypeError
  end.

(** [v[0]]; the keys of a parsed JSON object are strings, so an object
    has no key [0]. *)
Definition py_getitem_0 (v : json) : outcome json :=
  match v with
  | JArr (x :: _) => Ret x
  | JArr [] => Raise IndexError
  | JStr (c :: _) => Ret (JStr [c])
  | JStr [] => Raise IndexError
  | JObj _ => Raise KeyError
  | JNull | JBool _ | JNum _ => Raise TypeError
  end.

(** [v.get(key, default)] *)
Definition py_get (v : json) (key : pystr) (default : json) : outcome json :=
  match v with
  | JObj fields =>
      Ret (match lookup key fields with Some x => x | None => default end)
  | _ => Raise AttributeError
  end.

(** [key in v and v[key]]: the value when that condition holds. *)
Definition truthy_field (key : pystr) (v : json) : outcome (option json) :=
  present <- py_in key v ;;
  if present then
    x <- py_getitem v key ;;
    Ret (if truthy x then Some x else None)
  else Ret None.

(** The object the fields are read from: [result['results'][0]] or
    [result]. *)
Definition actual_result (result : json) : outcome json :=
  match result with
  | JObj fields =>
      match lookup (lit "results") fields with
      | Some results => if truthy results then py_getitem_0 results
                        else Ret result
      | None => Ret result
      end
  | _ => Ret result
  end.

Definition extract_clean_content (result : json) : outcome (option pystr) :=
  actual <- actual_result result ;;
  markdown <- truthy_field (lit "markdown") actual ;;
  match markdown with
  | Some content => Ret (Some (clean_markdown_content content))
  | None =>
      markdown_v2 <- truthy_field (lit "markdown_v2") actual ;;
      match markdown_v2 with
      | Some (JObj fields) =>
          match lookup (lit "raw_markdown") fields with
          | Some content => Ret (Some (clean_markdown_content content))
          | None => Ret None
          end
      | _ => Ret None
      end
  end.

End WithRuntime.

(** ** The world of [wait_for_completion] *)

(** What [requests.get] returns; [json_body] is [None] when
    [response.json()] raises. *)
Record http_response := {
  status_code : N;
  json_body : option json
}.

Record document := {
  doc_url : pystr;
  doc_timestamp : pystr;
  doc_length : nat;
  doc_content : pystr
}.

Inductive message :=
| MsgCompleted
| MsgNoContent
| MsgTaskFailed (status : pystr)
| MsgStatus (status : pystr)
| MsgTimeout
| MsgSaved (filename : pystr)
| MsgLength (n : nat).

(** [WriteFile]: the file was opened for writing and the document
    written to it.  [Truncate]: the file was opened for writing, which
    creates it or empties it, and writing the document raised; the file is
    left with part of the document at most. *)
Inductive event :=
| Get (url : pystr)
| Sleep (seconds : N)
| Print (m : message)
| WriteFile (filename : pystr) (doc : document)
| Truncate (filename : pystr).

(** What the script does not control: the server's answer to the [n]-th
    request of the run ([None] when [requests.get] raises), the file
    system and the clock.  [writable] tells whether
    [open(filename, 'w', encoding='utf-8')] succeeds; [write_raises] what
    writing the document to the file just opened raises, in [f.write] or
    when the [with] block closes the file: [UnicodeEncodeError] for a text
    that holds a lone surrogate, [OSError] when the disk is full. *)
Record Env := {
  server : nat -> pystr -> option http_response;
  writable : pystr -> bool;
  write_raises : pystr -> document -> option exn;
  strftime : nat -> pystr
}.

(** The number of requests made so far and everything done so far, the
    oldest event first. *)
Record world := {
  requests : nat;
  log : list event
}.

Definition emit (e : event) (w : world) : world :=
  {| requests := requests w; log := log w ++ [e] |}.

(** Code that changes the world and may raise. *)
Definition M (A : Type) : Type := world -> outcome A * world.

Definition retM {A} (a : A) : M A := fun w => (Ret a, w).
Definition bindM {A B} (m : M A) (k : A -> M B) : M B :=
  fun w => match m w with
           | (Ret a, w') => k a w'
           | (Raise e, w') => (Raise e, w')
           end.
Definition lift {A} (o : outcome A) : M A := fun w => (o, w).
(** [print(...)]; writing to the console is taken not to fail. *)
Definition print (m : message) : M unit := fun w => (Ret tt, emit (Print m) w).

Notation "x <~ m ;; k" := (bindM m (fun x => k))
  (at level 61, m at next level, right associativity).

(** How the body of a loop ends: [return b], [break], or on to the next
    iteration. *)
Inductive flow :=
| Return (b : bool)
| Break
| Next.

Definition CRAWL4AI_BASE_URL : pystr := lit "https://Your-URL-Here".

Definition completed_words : list pystr :=
  [lit "completed"; lit "success"; lit "finished"].
Definition failed_words : list pystr := [lit "failed"; lit "error"].
Definition pending_words : list pystr := [lit "pending"; lit "running"].

(** [status in words] *)
Definition one_of (words : list pystr) (status : pystr) : bool :=
  existsb (str_eqb status) words.

Section Poller.

Variable R : Runtime.
Variable env : Env.

(** [requests.get(url, headers=headers, timeout=30)] *)
Definition requests_get (url : pystr) (headers : list (pystr * pystr))
  : M http_response :=
  fun w =>
    let w' := {| requests := S (requests w); log := log w ++ [Get url] |} in
    match server env (requests w) url with
    | Some response => (Ret response, w')
    | None => (Raise RequestException, w')
    end.

(** [response.json()] *)
Definition response_json (response : http_response) : outcome json :=
  match json_body response with
  | Some v => Ret v
  | None => Raise JSONDecodeError
  end.

(** The save is not atomic: [open(filename, 'w')] creates the file or
    empties it before [f.write] runs, so a save that raises in the [with]
    block leaves the file behind without the document. *)
Definition save_markdown (content url : pystr) : M unit :=
  filename <~ lift (get_filename_from_url R url) ;;
  fun w =>
    let markdown :=
      {| doc_url := url;
         doc_timestamp := strftime env (length (log w));
         doc_length := length content;
         doc_content := content |} in
    if writable env filename then
      match write_raises env filename markdown with
      | None =>
          (_ <~ print (MsgSaved filename) ;;
           print (MsgLength (length content)))
            (emit (WriteFile filename markdown) w)
      | Some e => (Raise e, emit (Truncate filename) w)
      end
    else (Raise OSError, w).

Definition endpoints (task_id : json) : list pystr :=
  [ lit "/task/" ++ py_str R task_id;
    lit "/tasks/" ++ py_str R task_id;
    lit "/result/" ++ py_str R task_id ].

Section Waiting.

Variable headers : list (pystr * pystr).
Variable target_url : pystr.

(** The [try] block of the inner loop. *)
Definition poll_endpoint (endpoint : pystr) : M flow :=
  url <~ lift (urljoin R CRAWL4AI_BASE_URL endpoint) ;;
  response <~ requests_get url headers ;;
  if status_code response =? 200 then
    result <~ lift (response_json response) ;;
    status_field <~ lift (py_get result (lit "status") (JStr [])) ;;
    let status := str_lower R (py_str R status_field) in
    if one_of completed_words status then
      _ <~ print MsgCompleted ;;
      final_result <~ lift (py_get result (lit "result") result) ;;
      content <~ lift (extract_clean_content R final_result) ;;
      match content with
      | Some ((_ :: _) as text) =>
          _ <~ save_markdown text target_url ;;
          retM (Return true)
      | _ =>
          _ <~ print MsgNoContent ;;
          retM (Return false)
      end
    else if one_of failed_words status then
      _ <~ print (MsgTaskFailed status) ;;
      retM (Return false)
    else if one_of pending_words status then
      _ <~ print (MsgStatus status) ;;
      retM Break
    else retM Next
  else retM Next.

(** The block with its [except: continue]. *)
Definition try_endpoint (endpoint : pystr) (w : world) : flow * world :=
  match poll_endpoint endpoint w with
  | (Ret f, w') => (f, w')
  | (Raise _, w') => (Next, w')
  end.

(** [for endpoint in endpoints]: [Some b] when the body returned [b]. *)
Fixpoint for_endpoints (eps : list pystr) (w : world)
  : option bool * world :=
  match eps with
  | [] => (None, w)
  | endpoint :: rest =>
      match try_endpoint endpoint w with
      | (Return b, w') => (Some b, w')
      | (Break, w') => (None, w')
      | (Next, w') => for_endpoints rest w'
      end
  end.

(** [for attempt in range(n)] and what follows the loop. *)
Fixpoint for_attempts (n : nat) (eps : list pystr) (w : world)
  : bool * world :=
  match n with
  | O => (false, emit (Print MsgTimeout) w)
  | S n' =>
      match for_endpoints eps w with
      | (Some b, w') => (b, w')
      | (None, w') => for_attempts n' eps (emit (Sleep 5) w')
      end
  end.

Definition wait_for_completion (task_id : json) (w : world)
  : bool * world :=
  for_attempts 24 (endpoints task_id) w.

End Waiting.

End Poller.

Definition start : world := {| requests := O; log := [] |}.

(** * The rest of the script: the list of URLs, one page, the menu *)

Definition API_TOKEN : pystr := lit "xxxx".

Definition get_auth_headers : list (pystr * pystr) :=
  [ (lit "Content-Type", lit "application/json");
    (lit "Accept", lit "application/json");
    (lit "Authorization", lit "Bearer " ++ API_TOKEN);
    (lit "X-API-Key", API_TOKEN);
    (lit "X-Auth-Token", API_TOKEN) ].

(** [str(n)] for a natural number. *)
Definition decimal (n : N) : pystr :=
  lit (NilEmpty.string_of_uint (N.to_uint n)).

(** What can be raised in this part: the exceptions of the code above,
    [FileNotFoundError] from [open] and [EOFError] from [input]. *)
Inductive fault :=
| Exn (e : exn)
| FileNotFoundError
| EOFError.

Inductive result (A : Type) :=
| Done (a : A)
| Fault (f : fault).
Arguments Done {A} a.
Arguments Fault {A} f.

(** What [print] is called with.  A run of [print] calls that always go
    together is one notice. *)
Inductive notice :=
| MsgSkipping (line_num : nat) (excerpt : pystr)
| MsgFileNotFound (file_path : pystr)
| MsgReadError (f : fault)
| MsgInvalidUrl (url : pystr)
| MsgCrawling (cleaned_url : pystr)
| MsgTaskId (task_id : pystr)
| MsgExtractFailed
| MsgNoContentFound
| MsgError (code : N)
| MsgInvalidFormat
| MsgResponseText (text : pystr)
| MsgFailed (f : fault)
| MsgMenu
| MsgNoUrl
| MsgSuccess
| MsgNoPath
| MsgNoUrls (file_path cwd : pystr)
| MsgFound (count : nat)
| MsgProcessing (i total : nat) (url : pystr)
| MsgFailedMark
| MsgRule
| MsgBatchDone (successful failed : nat)
| MsgGoodbye
| MsgInvalidChoice
| MsgBlank.

Inductive prompt :=
| AskChoice
| AskUrl
| AskFile
| AskContinue.

(** Everything the script does, in order.  [Did] holds the events of
    the polling and saving code above. *)
Inductive action :=
| Did (e : event)
| Post (url : pystr) (body : json) (headers : list (pystr * pystr))
| Open (file_path : pystr)
| Say (n : notice)
| Input (p : prompt)
| System (command : pystr).

(** What [requests.post] returns. *)
Record post_response := {
  posted : http_response;
  response_text : pystr
}.

(** What [open(file_path, 'r', encoding='utf-8')] and the iteration over
    the file give: an exception at once, or the lines, with the exception
    that ends the iteration early if there is one (a decoding error). *)
Inductive opening :=
| Refused (f : fault)
| Lines (lines : list pystr) (failure : option fault).

(** What the script does not control.  A [nat] argument is the moment
    of the call: the number of actions before it. *)
Record Host := {
  polled : Env;
  (** the answer to the [n]-th POST, [None] when [requests.post] raises *)
  crawl : nat -> pystr -> json -> option post_response;
  (** [int(time.time())] *)
  time_time : nat -> N;
  open_file : nat -> pystr -> opening;
  path_exists : nat -> pystr -> bool;
  getcwd : nat -> pystr;
  (** [os.name == 'posix'] *)
  posix : bool;
  (** [os.path.sep] *)
  path_sep : pystr
}.

(** The actions so far and the lines still to be typed at the prompts. *)
Record session := {
  journal : list action;
  typed : list pystr
}.

(** The session after one more action. *)
Definition act (a : action) (s : session) : session :=
  {| journal := journal s ++ [a]; typed := typed s |}.

(** The number of actions so far. *)
Definition moment (s : session) : nat := length (journal s).

(** Code that changes the session and may raise. *)
Definition P (A : Type) : Type := session -> result A * session.

Definition retP {A} (a : A) : P A := fun s => (Done a, s).
Definition raiseP {A} (f : fault) : P A := fun s => (Fault f, s).
Definition bindP {A B} (m : P A) (k : A -> P B) : P B :=
  fun s => match m s with
           | (Done a, s') => k a s'
           | (Fault f, s') => (Fault f, s')
           end.

Notation "x <== m ;; k" := (bindP m (fun x => k))
  (at level 61, m at next level, right associativity).

(** [try: body except Exception as e: handler(e)] *)
Definition try_except {A} (body : P A) (handler : fault -> P A) : P A :=
  fun s => match body s with
           | (Done a, s') => (Done a, s')
           | (Fault f, s') => handler f s'
           end.

(** A pure computation that may raise, as code of this part. *)
Definition liftO {A} (o : outcome A) : P A :=
  fun s => (match o with Ret a => Done a | Raise e => Fault (Exn e) end, s).

Definition say (n : notice) : P unit := fun s => (Done tt, act (Say n) s).

(** *** Running the polling and saving code *)

Definition inner_events (j : list action) : list event :=
  flat_map (fun a => match a with Did e => [e] | _ => [] end) j.

Definition is_get (e : event) : bool :=
  match e with Get _ => true | _ => false end.

(** The world of the code above at this point of the session: its
    events so far, of which the [Get] events are the requests. *)
Definition world_of (s : session) : world :=
  {| requests := length (filter is_get (inner_events (journal s)));
     log := inner_events (journal s) |}.

(** The session after the events [events] of the polling part. *)
Definition did (events : list event) (s : session) : session :=
  {| journal := journal s ++ map Did events; typed := typed s |}.

(** Runs code of the polling part from the world of the session.  That
    code only adds to the log, so what it has added is what comes after
    the events it started from; those go to the journal. *)
Definition run {A} (m : world -> A * world) (s : session) : A * session :=
  let w := world_of s in
  let '(a, w') := m w in
  (a, did (skipn (length (log w)) (log w')) s).

(** Code of the polling part that may raise, as code of this part. *)
Definition liftM {A} (m : M A) : P A :=
  fun s => let '(o, s') := run m s in
           (match o with Ret a => Done a | Raise e => Fault (Exn e) end, s').

(** [time.sleep(seconds)] *)
Definition sleep (seconds : N) : P unit :=
  fun s => (Done tt, did [Sleep seconds] s).

Section Script.

Variable R : Runtime.
Variable host : Host.

(** *** [read_urls_from_file] *)

(** The loop over the lines of the file, from line [line_num] on. *)
Fixpoint read_lines (line_num : nat) (lines : list pystr) (urls : list pystr)
  : P (list pystr) :=
  match lines with
  | [] => retP urls
  | line :: rest =>
      cleaned_url <== liftO (clean_and_validate_url R (strip line)) ;;
      match cleaned_url with
      | Some ((_ :: _) as cleaned_url) =>
          read_lines (S line_num) rest (urls ++ [cleaned_url])
      | _ =>
          _ <== (if negb (is_empty (strip line))
                    && negb (starts_with (lit "#") (strip line))
                 then say (MsgSkipping line_num (firstn 50 (strip line)))
                 else retP tt) ;;
          read_lines (S line_num) rest urls
      end
  end.

Definition read_urls_from_file (file_path : pystr) : P (list pystr) :=
  try_except
    (fun s =>
       match open_file host (moment s) file_path with
       | Refused f => (Fault f, act (Open file_path) s)
       | Lines lines failure =>
           (urls <== read_lines 1 lines [] ;;
            match failure with
            | Some f => raiseP f
            | None => retP urls
            end) (act (Open file_path) s)
       end)
    (fun f =>
       match f with
       | FileNotFoundError =>
           _ <== say (MsgFileNotFound file_path) ;;
           retP []
       | _ =>
           _ <== say (MsgReadError f) ;;
           retP []
       end).

(** *** [process_single_url] *)

Definition is_post (a : action) : bool :=
  match a with Post _ _ _ => true | _ => false end.

(** [requests.post(url, json=body, headers=headers, timeout=60)] *)
Definition requests_post (url : pystr) (body : json)
           (headers : list (pystr * pystr)) : P post_response :=
  fun s =>
    match crawl host (length (filter is_post (journal s))) url body with
    | Some response => (Done response, act (Post url body headers) s)
    | None => (Fault (Exn RequestException), act (Post url body headers) s)
    end.

(** [int(time.time())] *)
Definition int_time : P N := fun s => (Done (time_time host (moment s)), s).

(** The [try] block of [process_single_url]. *)
Definition submit (cleaned_url : pystr) (crawl_data : json)
           (headers : list (pystr * pystr)) : P bool :=
  endpoint <== liftO (urljoin R CRAWL4AI_BASE_URL (lit "/crawl")) ;;
  response <== requests_post endpoint crawl_data headers ;;
  if status_code (posted response) =? 200 then
    result <== liftO (response_json (posted response)) ;;
    has_task_id <== liftO (py_in (lit "task_id") result) ;;
    has_id <== (if has_task_id then retP true
                else liftO (py_in (lit "id") result)) ;;
    if has_id then
      by_task_id <== liftO (py_get result (lit "task_id") JNull) ;;
      task_id <== (if truthy by_task_id then retP by_task_id
                   else liftO (py_get result (lit "id") JNull)) ;;
      _ <== say (MsgTaskId (py_str R task_id)) ;;
      completed <== (fun s =>
                       let '(b, s') :=
                         run (wait_for_completion R (polled host) headers
                                cleaned_url task_id) s in
                       (Done b, s')) ;;
      if completed then retP true
      else
        _ <== say MsgExtractFailed ;;
        retP false
    else
      content <== liftO (extract_clean_content R result) ;;
      match content with
      | Some ((_ :: _) as text) =>
          _ <== liftM (save_markdown R (polled host) text cleaned_url) ;;
          retP true
      | _ =>
          _ <== say MsgNoContentFound ;;
          retP false
      end
  else
    _ <== say (MsgError (status_code (posted response))) ;;
    _ <== (if status_code (posted response) =? 422
           then say MsgInvalidFormat
           else say (MsgResponseText (response_text response))) ;;
    retP false.

Definition process_single_url (url : pystr) : P bool :=
  cleaned_url <== liftO (clean_and_validate_url R url) ;;
  match cleaned_url with
  | Some ((_ :: _) as cleaned_url) =>
      _ <== say (MsgCrawling cleaned_url) ;;
      let headers := get_auth_headers in
      now <== int_time ;;
      let crawl_data :=
        JObj [ (lit "urls", JArr [JStr cleaned_url]);
               (lit "cache_key", JStr (lit "fresh_" ++ decimal now)) ] in
      try_except
        (submit cleaned_url crawl_data headers)
        (fun f =>
           _ <== say (MsgFailed f) ;;
           retP false)
  | _ =>
      _ <== say (MsgInvalidUrl url) ;;
      retP false
  end.

(** *** [main] *)

(** [input(prompt)]: the next typed line, [EOFError] when there is none. *)
Definition input (p : prompt) : P pystr :=
  fun s =>
    match typed s with
    | line :: rest =>
        (Done line, {| journal := journal s ++ [Input p]; typed := rest |})
    | [] => (Fault EOFError, act (Input p) s)
    end.

(** [os.system(command)] *)
Definition os_system (command : pystr) : P unit :=
  fun s => (Done tt, act (System command) s).

(** Lines 329 to 335: the file name as typed, or with the first of the
    extensions that makes it the name of an existing file. *)
Definition with_extension (file_path : pystr) : P pystr :=
  fun s =>
    if negb (contains (path_sep host) file_path)
       && negb (path_exists host (moment s) file_path)
    then
      (Done match find (fun ext => path_exists host (moment s) (file_path ++ ext))
                       [[]; lit ".txt"; lit ".list"] with
            | Some ext => file_path ++ ext
            | None => file_path
            end, s)
    else (Done file_path, s).

(** The loop of lines 352 to 361 from the [i]-th URL on; it returns the
    two counters. *)
Fixpoint process_batch (i total : nat) (urls : list pystr)
         (successful failed : nat) : P (nat * nat) :=
  match urls with
  | [] => retP (successful, failed)
  | url :: rest =>
      _ <== say (MsgProcessing i total url) ;;
      ok <== process_single_url url ;;
      counters <== (if ok then
                      _ <== say MsgSuccess ;;
                      retP (S successful, failed)
                    else
                      _ <== say MsgFailedMark ;;
                      retP (successful, S failed)) ;;
      _ <== say MsgRule ;;
      _ <== sleep 1 ;;
      process_batch (S i) total rest (fst counters) (snd counters)
  end.

(** The end of the body of the loop, lines 377 and 378. *)
Definition ask_to_continue : P unit :=
  _ <== say MsgBlank ;;
  _ <== input AskContinue ;;
  retP tt.

(** One pass through the body of [while True]; [true] for [break]. *)
Definition menu_round : P bool :=
  _ <== os_system (if posix host then lit "clear" else lit "cls") ;;
  _ <== say MsgMenu ;;
  choice <== input AskChoice ;;
  let choice := strip choice in
  if str_eqb choice (lit "1") then
    url <== input AskUrl ;;
    let url := strip url in
    if is_empty url then
      _ <== say MsgNoUrl ;;
      _ <== input AskContinue ;;
      retP false
    else
      success <== process_single_url url ;;
      _ <== (if success then say MsgSuccess else retP tt) ;;
      _ <== ask_to_continue ;;
      retP false
  else if str_eqb choice (lit "2") then
    file_path <== input AskFile ;;
    let file_path := strip file_path in
    if is_empty file_path then
      _ <== say MsgNoPath ;;
      _ <== input AskContinue ;;
      retP false
    else
      file_path <== with_extension file_path ;;
      urls <== read_urls_from_file file_path ;;
      match urls with
      | [] =>
          _ <== (fun s => say (MsgNoUrls file_path (getcwd host (moment s))) s) ;;
          _ <== input AskContinue ;;
          retP false
      | _ :: _ =>
          _ <== say (MsgFound (length urls)) ;;
          counters <== process_batch 1 (length urls) urls 0 0 ;;
          _ <== say (MsgBatchDone (fst counters) (snd counters)) ;;
          _ <== ask_to_continue ;;
          retP false
      end
  else if str_eqb choice (lit "3") then
    _ <== say MsgGoodbye ;;
    retP true
  else
    _ <== say MsgInvalidChoice ;;
    _ <== input AskContinue ;;
    retP false.

(** [while True] with a bound on the number of passes: [None] when the
    bound is reached. *)
Fixpoint main_loop (passes : nat) (s : session)
  : option (result unit) * session :=
  match passes with
  | O => (None, s)
  | S passes' =>
      match menu_round s with
      | (Done true, s') => (Some (Done tt), s')
      | (Done false, s') => main_loop passes' s'
      | (Fault f, s') => (Some (Fault f), s')
      end
  end.

(** Every pass reads a line, so one pass more than there are lines to
    read is enough. *)
Definition main (s : session) : option (result unit) * session :=
  main_loop (S (length (typed s))) s.

End Script.

(** The session of a user who will type [lines]. *)
Definition begin (lines : list pystr) : session :=
  {| journal := []; typed := lines |}.

(** * The vocabulary of the properties *)

(** ** The extractor *)

(** The bodies whose effective object (the first element of a non-empty
    [results], else the body) is a JSON object. *)
Definition effective_is_object (body : json) : bool :=
  match body with
  | JObj fields =>
      match lookup (lit "results") fields with
      | Some results =>
          if truthy results then
            match results with
            | JArr (JObj _ :: _) => true
            | _ => false
            end
          else true
      | None => true
      end
  | _ => false
  end.

(** ** The polling loop *)

(** The world after one more request, to [url]. *)
Definition asked (url : pystr) (w : world) : world :=
  {| requests := S (requests w); log := log w ++ [Get url] |}.

(** The requests of one round when no endpoint ends it. *)
Definition round_gets (R : Runtime) (eps : list pystr) : list event :=
  flat_map (fun endpoint =>
              match urljoin R CRAWL4AI_BASE_URL endpoint with
              | Ret url => [Get url]
              | Raise _ => []
              end) eps.

(** Every endpoint of [eps] was tried from [w] on and the loop went on
    to the next one each time: the world then. *)
Fixpoint passed_over (R : Runtime) (env : Env) (headers : list (pystr * pystr))
         (target_url : pystr) (eps : list pystr) (w : world) : option world :=
  match eps with
  | [] => Some w
  | endpoint :: rest =>
      match try_endpoint R env headers target_url endpoint w with
      | (Next, w') => passed_over R env headers target_url rest w'
      | _ => None
      end
  end.

(** The event opens a file for writing. *)
Definition is_write (e : event) : bool :=
  match e with WriteFile _ _ | Truncate _ => true | _ => false end.

(** The event is a document written to its file. *)
Definition is_stored (e : event) : bool :=
  match e with WriteFile _ _ => true | _ => false end.

(** The file events of [k] saves for [target_url] that failed once the
    file was open: each has left the file named after [target_url] created
    or emptied. *)
Definition failed_saves (R : Runtime) (target_url : pystr) (k : nat)
  : list event :=
  match get_filename_from_url R target_url with
  | Ret name => repeat (Truncate name) k
  | Raise _ => []
  end.

(** No request is ever answered with status 200. *)
Definition never_200 (env : Env) : Prop :=
  forall n url r, server env n url = Some r -> status_code r <> 200.

Definition is_sleep (e : event) : bool :=
  match e with Sleep _ => true | _ => false end.

(** The last file event of [events] is the document written: the
    content saved for [target_url], under the name derived from it.  The
    file events before it are saves for [target_url] that failed. *)
Definition saved_file (R : Runtime) (env : Env) (target_url : pystr)
           (events : list event) : Prop :=
  exists name doc k,
    filter is_write events
    = failed_saves R target_url k ++ [WriteFile name doc]
    /\ get_filename_from_url R target_url = Ret name
    /\ writable env name = true
    /\ write_raises env name doc = None
    /\ doc_url doc = target_url
    /\ doc_content doc <> [].

(** No document is written among [events]: the file events are saves for
    [target_url] that failed. *)
Definition unsaved_file (R : Runtime) (target_url : pystr)
           (events : list event) : Prop :=
  exists k, filter is_write events = failed_saves R target_url k.

(** [w'] comes after [w]: the same events and then [events], with
    [k] requests at most. *)
Definition extends (k : nat) (events : list event) (w w' : world) : Prop :=
  log w' = log w ++ events /\ (requests w' <= requests w + k)%nat.

(** The response reports a completed task whose result is [final]. *)
Definition completes_with (R : Runtime) (response : http_response)
           (final : json) : Prop :=
  status_code response = 200
  /\ exists result status_field,
      json_body response = Some result
      /\ py_get result (lit "status") (JStr []) = Ret status_field
      /\ one_of completed_words (str_lower R (py_str R status_field)) = true
      /\ py_get result (lit "result") result = Ret final.

(** The events of one round in which every endpoint answers that the
    task is completed and the extraction raises. *)
Definition round_completed (R : Runtime) (eps : list pystr) : list event :=
  flat_map (fun endpoint =>
              match urljoin R CRAWL4AI_BASE_URL endpoint with
              | Ret url => [Get url; Print MsgCompleted]
              | Raise _ => []
              end) eps.

(** The events of one round in which every endpoint answers that the
    task is completed, with content, and writing the document to the file
    [name] raises once the file is open. *)
Definition round_spoiled (R : Runtime) (name : pystr) (eps : list pystr)
  : list event :=
  flat_map (fun endpoint =>
              match urljoin R CRAWL4AI_BASE_URL endpoint with
              | Ret url => [Get url; Print MsgCompleted; Truncate name]
              | Raise _ => []
              end) eps.

(** The event is the notice that no content was found. *)
Definition is_no_content (e : event) : bool :=
  match e with Print MsgNoContent => true | _ => false end.

(** *** Concrete servers *)

(** A JSON object with ASCII keys. *)
Definition object (fields : list (string * json)) : json :=
  JObj (map (fun kv => (lit (fst kv), snd kv)) fields).

Definition answer (code : N) (body : json) : option http_response :=
  Some {| status_code := code; json_body := Some body |}.

Definition env_of (srv : nat -> option http_response) : Env :=
  {| server := fun n _ => srv n;
     writable := fun _ => true;
     write_raises := fun _ _ => None;
     strftime := fun _ => lit "2025-06-22 12:00:00" |}.

(** Every request answered 404. *)
Definition env_404 : Env := env_of (fun _ => answer 404 JNull).

(** The task is still running. *)
Definition env_running : Env :=
  env_of (fun _ => answer 200 (object [("status"%string, JStr (lit "running"))])).

(** The first candidate answers with a status word the script does not
    know, the second with the completed task. *)
Definition env_queued : Env :=
  env_of (fun n =>
            match n with
            | O => answer 200 (object [("status"%string, JStr (lit "queued"))])
            | _ => answer 200
                     (object [("status"%string, JStr (lit "completed"));
                              ("result"%string,
                               object [("markdown"%string, JStr (lit "Done"))])])
            end).

(** The task failed. *)
Definition env_failed : Env :=
  env_of (fun _ => answer 200 (object [("status"%string, JStr (lit "failed"))])).

(** Two rounds answer that the task is running; in the third the first
    two candidates answer 404 and [/result/abc] the completed task. *)
Definition env_third_round : Env :=
  env_of (fun n =>
            match n with
            | 0%nat | 1%nat =>
                answer 200 (object [("status"%string, JStr (lit "running"))])
            | 2%nat | 3%nat => answer 404 JNull
            | _ => answer 200
                     (object [("status"%string, JStr (lit "completed"));
                              ("result"%string,
                               object [("markdown"%string, JStr (lit "Done"))])])
            end).

(** The task completed and its result is [null]. *)
Definition env_null_result : Env :=
  env_of (fun _ =>
            answer 200 (object [("status"%string, JStr (lit "completed"));
                                ("result"%string, JNull)])).

(** The task completed and its result holds no content field. *)
Definition env_empty_result : Env :=
  env_of (fun _ =>
            answer 200 (object [("status"%string, JStr (lit "completed"));
                                ("result"%string, object [])])).

(** Every answer reports the completed task with the content [Done], and
    no file can be opened for writing. *)
Definition env_read_only : Env :=
  {| server := fun _ _ =>
       answer 200 (object [("status"%string, JStr (lit "completed"));
                           ("result"%string,
                            object [("markdown"%string, JStr (lit "Done"))])]);
     writable := fun _ => false;
     write_raises := fun _ _ => None;
     strftime := fun _ => lit "2025-06-22 12:00:00" |}.

(** Every answer reports the completed task with the content [Done];
    every file can be opened and no document can be written to it: the
    disk is full. *)
Definition env_no_space : Env :=
  {| server := fun _ _ =>
       answer 200 (object [("status"%string, JStr (lit "completed"));
                           ("result"%string,
                            object [("markdown"%string, JStr (lit "Done"))])]);
     writable := fun _ => true;
     write_raises := fun _ _ => Some OSError;
     strftime := fun _ => lit "2025-06-22 12:00:00" |}.

Definition task_x : json := JStr (lit "x").

Definition page : pystr := lit "https://example.com/blog/my-post.html".

Definition url_of (endpoint : string) : pystr :=
  CRAWL4AI_BASE_URL ++ lit endpoint.

(** ** The normalizer and the filename *)

(** The text the normalizer is left with after its substitutions and the
    strip. *)
Definition stripped_text (R : Runtime) (url : pystr) : pystr :=
  strip (re_sub m_unprintable delete
           (re_sub (m_rtf_command R) delete
              (re_sub m_rtf_group delete url))).

(** The URL with [https://] put before it when it has no protocol. *)
Definition with_protocol (url : pystr) : pystr :=
  if has_protocol url then url else lit "https://" ++ url.

(** What [urlsplit] first makes of its argument. *)
Definition url_cleaned (url : pystr) : pystr :=
  filter (fun c => negb (unsafe_url_byte c))
         (lstrip_by c0_control_or_space url).

(** An ASCII letter, digit, underscore or hyphen. *)
Definition name_char (c : char) : bool :=
  ascii_alpha c || ascii_digit c || (c =? 95) || (c =? 45).

Definition all_ascii (s : pystr) : Prop := Forall (fun c => is_ascii c = true) s.

(** A backslash directly followed by an ASCII letter occurs in [s]. *)
Fixpoint has_rtf_command (s : pystr) : bool :=
  match s with
  | [] => false
  | c :: t =>
      ((c =? 92) && match t with d :: _ => ascii_alpha d | [] => false end)
      || has_rtf_command t
  end.

(** A printable character other than the space, [#], [/], [?], the
    backslash, the closing square bracket and the braces. *)
Definition unbroken (c : char) : bool :=
  printable c && negb (mem c [32; 35; 47; 63; 92; 93; 123; 125]).

(** Every URL the validator accepts begins with [http://] or
    [https://], is made of printable ASCII characters, and has no
    whitespace at either end. *)

(** ** Substitutions *)

(** The pattern matches at no position of [s]. *)
Fixpoint never_matches (m : option char -> pystr -> option nat) (s : pystr)
  : Prop :=
  match s with
  | [] => True
  | _ :: t =>
      (forall prev, m prev s = None \/ m prev s = Some O)
      /\ never_matches m t
  end.

(** The character before the position reached after passing over [k]
    characters of [s]. *)
Fixpoint last_passed (prev : option char) (k : nat) (s : pystr)
  : option char :=
  match k, s with
  | S k', c :: s' => last_passed (Some c) k' s'
  | _, _ => prev
  end.

(** No opening brace of [s] has a closing brace after it: the RTF group
    pattern matches nowhere. *)
Fixpoint no_group (s : pystr) : Prop :=
  match s with
  | [] => True
  | c :: t => (c = 123 -> ~ In 125 t) /\ no_group t
  end.

(** [s] does not begin with a character of the class [p]. *)
Definition starts_clean (p : char -> bool) (s : pystr) : Prop :=
  match s with
  | c :: _ => p c = false
  | [] => True
  end.

(** [s] begins with characters of the classes [pat], in order. *)
Fixpoint starts_like (pat : list (char -> bool)) (s : pystr) : bool :=
  match pat, s with
  | [], _ => true
  | q :: pat', c :: s' => q c && starts_like pat' s'
  | _ :: _, [] => false
  end.

(** Somewhere in [s] there are adjacent characters of the classes [pat]. *)
Fixpoint occurs (pat : list (char -> bool)) (s : pystr) : bool :=
  starts_like pat s ||
  match s with
  | [] => false
  | _ :: s' => occurs pat s'
  end.

(** No class of the pattern holds of [c]. *)
Definition foreign (pat : list (char -> bool)) (c : char) : bool :=
  forallb (fun q => negb (q c)) pat.

(** Every replacement is non-empty and made of characters foreign to the
    pattern. *)
Definition foreign_replacements (m : option char -> pystr -> option nat)
           (repl : pystr -> pystr) (pat : list (char -> bool)) : Prop :=
  forall prev t n,
    m prev t = Some (S n) ->
    repl (firstn (S n) t) <> []
    /\ Forall (fun c => foreign pat c = true) (repl (firstn (S n) t)).

(** Every replacement is one character, of the same two classes as each
    character of the text it replaces. *)
Definition alike_replacements (m : option char -> pystr -> option nat)
           (repl : pystr -> pystr) (q1 q2 : char -> bool) : Prop :=
  forall prev t n,
    m prev t = Some (S n) ->
    exists r,
      repl (firstn (S n) t) = [r]
      /\ forall c, In c (firstn (S n) t) -> q1 c = q1 r /\ q2 c = q2 r.

(** ** The cleaner *)

(** The four passes that shorten runs: lines 78, 81, 84 and 90. *)
Definition squeeze_newlines (s : pystr) : pystr :=
  re_sub m_newlines (replace_by [10; 10]) s.

Definition tighten_punct (s : pystr) : pystr :=
  re_sub m_space_punct last_char s.

Definition squeeze_blanks (s : pystr) : pystr :=
  re_sub m_blanks (replace_by [32]) s.

Definition squeeze_dots (s : pystr) : pystr :=
  re_sub m_dots (replace_by [46]) s.

Definition newline : char -> bool := is_char 10.

Definition dot : char -> bool := is_char 46.

(** Text on which the four deleting passes (citation markers, the word
    URL, images, empty links) find nothing: no opening square bracket, no
    U+27E8, no [URL]. *)
Definition plain (s : pystr) : Prop :=
  occurs [is_char 91] s = false
  /\ occurs [is_char 10216] s = false
  /\ occurs [is_char 85; is_char 82; is_char 76] s = false.

(** Text on which the four squeezing passes find nothing to change. *)
Definition settled (s : pystr) : Prop :=
  occurs [newline; newline; newline] s = false
  /\ occurs [is_space; is_punct] s = false
  /\ occurs [is_blank; is_blank] s = false
  /\ occurs [is_char 9] s = false
  /\ occurs [dot; dot] s = false.

(** The four squeezing passes, in the cleaner's order. *)
Definition squeeze (s : pystr) : pystr :=
  squeeze_dots (squeeze_blanks (tighten_punct (squeeze_newlines s))).

(** The pattern matches somewhere in [s], read from left to right as
    [re.sub] does; [prev] is the character before [s]. *)
Fixpoint matches_in (m : option char -> pystr -> option nat)
         (prev : option char) (s : pystr) : bool :=
  match s with
  | [] => false
  | c :: s' =>
      match m prev s with
      | Some (S _) => true
      | _ => matches_in m (Some c) s'
      end
  end.

(** The cleaner finds nothing to do in [s]: no citation marker, no word
    [URL], no image, no empty link, no three newlines in a row, no
    whitespace before a punctuation mark, no two blanks in a row. *)
Definition nothing_to_clean (R : Runtime) (s : pystr) : bool :=
  negb (matches_in (m_citation R) None s)
  && negb (matches_in (m_url_word R) None s)
  && negb (matches_in m_image None s)
  && negb (matches_in m_empty_link None s)
  && negb (occurs [newline; newline; newline] s)
  && negb (occurs [is_space; is_punct] s)
  && negb (occurs [is_blank; is_blank] s).

(** ** The rest of the script *)

(** The action opens a file for writing. *)
Definition is_saving (a : action) : bool :=
  match a with Did e => is_write e | _ => false end.

(** The action is a document written to its file. *)
Definition is_saved (a : action) : bool :=
  match a with Did e => is_stored e | _ => false end.

(** The last file action of [acts] is the document written: the content
    saved for [cleaned_url], under the name derived from it.  The file
    actions before it are saves for [cleaned_url] that failed. *)
Definition saved_page (R : Runtime) (host : Host) (cleaned_url : pystr)
           (acts : list action) : Prop :=
  exists name doc k,
    filter is_saving acts
    = map Did (failed_saves R cleaned_url k ++ [WriteFile name doc])
    /\ get_filename_from_url R cleaned_url = Ret name
    /\ writable (polled host) name = true
    /\ write_raises (polled host) name doc = None
    /\ doc_url doc = cleaned_url
    /\ doc_content doc <> [].

(** No document is written among [acts]: the file actions are saves for
    [cleaned_url] that failed. *)
Definition unsaved_page (R : Runtime) (cleaned_url : pystr)
           (acts : list action) : Prop :=
  exists k, filter is_saving acts = map Did (failed_saves R cleaned_url k).

(** The body of the POST that submits [cleaned_url] at the time [now]. *)
Definition crawl_request (cleaned_url : pystr) (now : N) : json :=
  JObj [ (lit "urls", JArr [JStr cleaned_url]);
         (lit "cache_key", JStr (lit "fresh_" ++ decimal now)) ].

(** The lines the validator accepts, in order. *)
Definition accepted_lines (R : Runtime) (lines : list pystr) : list pystr :=
  flat_map (fun line =>
              match clean_and_validate_url R (strip line) with
              | Ret (Some v) => [v]
              | _ => []
              end) lines.

(** The action neither asks the server nor touches a file. *)
Definition is_quiet (a : action) : bool :=
  match a with
  | Say _ | Input _ | System _ => true
  | _ => false
  end.

(** Code that gives no typed line back and raises nothing but
    [EOFError] and [ValueError]. *)
Definition tame {A} (m : P A) : Prop :=
  forall s r s',
    m s = (r, s') ->
    (length (typed s') <= length (typed s))%nat
    /\ match r with
       | Fault f => f = EOFError \/ f = Exn ValueError
       | Done _ => True
       end.

(** A machine without network and without files to read. *)
Definition host_offline : Host :=
  {| polled := env_404;
     crawl := fun _ _ _ => None;
     time_time := fun _ => 1750593600;
     open_file := fun _ _ => Refused FileNotFoundError;
     path_exists := fun _ _ => false;
     getcwd := fun _ => lit "/home/user";
     posix := true;
     path_sep := lit "/" |}.


(** A file of five lines: a page, a comment, an empty line, a protocol
    without a host, and the page again. *)
Definition list_file : list pystr :=
  [ lit "example.com/a" ++ [10];
    lit "# my list" ++ [10];
    [10];
    lit "http://" ++ [10];
    lit "example.com/a" ++ [10] ].

(** A machine on which every file holds [lines], and without network. *)
Definition host_with_file (lines : list pystr) : Host :=
  {| polled := env_404;
     crawl := fun _ _ _ => None;
     time_time := fun _ => 1750593600;
     open_file := fun _ _ => Lines lines None;
     path_exists := fun _ _ => true;
     getcwd := fun _ => lit "/home/user";
     posix := true;
     path_sep := lit "/" |}.


(** A server that answers every submission with the page's content. *)
Definition host_direct : Host :=
  {| polled := env_of (fun _ => answer 404 JNull);
     crawl := fun _ _ _ =>
       Some {| posted :=
                 {| status_code := 200;
                    json_body :=
                      Some (object [("markdown"%string, JStr (lit "Done"))]) |};
               response_text := [] |};
     time_time := fun _ => 1750593600;
     open_file := fun _ _ => Refused FileNotFoundError;
     path_exists := fun _ _ => false;
     getcwd := fun _ => lit "/home/user";
     posix := true;
     path_sep := lit "/" |}.

(** ** Proof tools *)

(** Closes a goal that a match on a character constant decides, for a
    character [c] known to differ from it. *)
Ltac other_than c :=
  destruct c as [|c]; [reflexivity|];
  repeat (destruct c as [c|c|]; try reflexivity); congruence.

(** * Properties *)

(** ** The two scenarios of the filename derivation *)

(** C1, as amended: for the input [example.com/blog/my-post.html] the
    normalizer yields [https://example.com/blog/my-post.html], whose
    derived filename is [examplecom-my-post.md]; for
    [https://example.com/] the filename is [examplecom.md].  The dot of
    the host is deleted, not replaced by a hyphen. *)
Theorem scenario_filenames (R : Runtime) :
  clean_and_validate_url R (lit "example.com/blog/my-post.html")
    = Ret (Some (lit "https://example.com/blog/my-post.html"))
  /\ get_filename_from_url R (lit "https://example.com/blog/my-post.html")
    = Ret (lit "examplecom-my-post.md")
  /\ get_filename_from_url R (lit "https://example.com/")
    = Ret (lit "examplecom.md").
Proof. repeat split; vm_compute; reflexivity. Qed.

(** Whatever the runtime, the derived filename is not the hyphenated one. *)
Lemma scenario_filename_not_hyphenated (R : Runtime) :
  get_filename_from_url R (lit "https://example.com/blog/my-post.html")
  <> Ret (lit "example-com-my-post.md").
Proof. vm_compute. discriminate. Qed.

(** C1 as the specification states it fails: the filenames are not
    [example-com-my-post.md] and [example-com.md]. *)
Lemma scenario_filenames_as_stated_fail :
  ~ (forall R : Runtime,
       clean_and_validate_url R (lit "example.com/blog/my-post.html")
         = Ret (Some (lit "https://example.com/blog/my-post.html"))
       /\ get_filename_from_url R (lit "https://example.com/blog/my-post.html")
         = Ret (lit "example-com-my-post.md")
       /\ get_filename_from_url R (lit "https://example.com/")
         = Ret (lit "example-com.md")).
Proof.
  intro H. destruct (H basic_latin) as [_ [H1 _]].
  exact (scenario_filename_not_hyphenated basic_latin H1).
Qed.

(** ** The extractor *)

Lemma truthy_field_object (key : pystr) (fields : list (pystr * json)) :
  exists r, truthy_field key (JObj fields) = Ret r.
Proof.
  unfold truthy_field. simpl.
  destruct (lookup key fields) as [x|]; simpl; eauto.
Qed.

Lemma extract_from_object (R : Runtime) (body : json)
      (fields : list (pystr * json)) :
  actual_result body = Ret (JObj fields) ->
  exists r, extract_clean_content R body = Ret r.
Proof.
  intro Ha. unfold extract_clean_content. rewrite Ha. simpl.
  destruct (truthy_field_object (lit "markdown") fields) as [m Hm].
  rewrite Hm. simpl. destruct m as [content|]; [eauto|].
  destruct (truthy_field_object (lit "markdown_v2") fields) as [m2 Hm2].
  rewrite Hm2. simpl.
  destruct m2 as [[| | | | |fs]|]; eauto.
  destruct (lookup (lit "raw_markdown") fs); eauto.
Qed.

(** On every JSON body whose effective object is a JSON object,
    [extract_clean_content] returns (cleaned content or [None]) and does
    not raise. *)
Theorem extract_total_on_objects (R : Runtime) (body : json) :
  effective_is_object body = true ->
  exists r, extract_clean_content R body = Ret r.
Proof.
  intro H. destruct body as [| | | | |fields]; try discriminate H.
  simpl in H.
  destruct (lookup (lit "results") fields) as [results|] eqn:Hl.
  - destruct (truthy results) eqn:Ht.
    + destruct results as [| | | |[|[| | | | |fs] items]|]; try discriminate H.
      apply (extract_from_object R _ fs).
      unfold actual_result. rewrite Hl, Ht. reflexivity.
    + apply (extract_from_object R _ fields).
      unfold actual_result. rewrite Hl, Ht. reflexivity.
  - apply (extract_from_object R _ fields).
    unfold actual_result. rewrite Hl. reflexivity.
Qed.

Lemma extract_total_on_objects_witness :
  effective_is_object (JObj [(lit "markdown", JStr (lit "Done"))]) = true
  /\ exists r,
      extract_clean_content basic_latin
        (JObj [(lit "markdown", JStr (lit "Done"))]) = Ret r.
Proof.
  split; [reflexivity|].
  apply (extract_total_on_objects basic_latin
           (JObj [(lit "markdown", JStr (lit "Done"))])).
  reflexivity.
Defined.

(** An object with none of [results], [markdown] and [markdown_v2] is an
    extraction miss. *)
Lemma extract_misses_unknown_shape (R : Runtime) (fields : list (pystr * json)) :
  lookup (lit "results") fields = None ->
  lookup (lit "markdown") fields = None ->
  lookup (lit "markdown_v2") fields = None ->
  extract_clean_content R (JObj fields) = Ret None.
Proof.
  intros H1 H2 H3.
  unfold extract_clean_content, actual_result, truthy_field, py_in.
  rewrite H1. cbn [bind]. rewrite H2. cbn [bind]. rewrite H3. reflexivity.
Qed.

Lemma extract_misses_unknown_shape_witness :
  extract_clean_content basic_latin (object [("title"%string, JStr (lit "x"))])
  = Ret None.
Proof.
  exact (extract_misses_unknown_shape basic_latin
           [(lit "title", JStr (lit "x"))] eq_refl eq_refl eq_refl).
Defined.

(** The body [{"markdown": "Hello <1> World"}], with the digit between
    U+27E8 and U+27E9, yields [Hello World]. *)
Lemma extract_strips_citation (R : Runtime) :
  extract_clean_content R
    (object [("markdown"%string,
              JStr (lit "Hello " ++ [10216; 49; 10217] ++ lit " World"))])
  = Ret (Some (lit "Hello World")).
Proof.
  destruct R as [decimal alnum lower repr bracket nfkc join].
  vm_compute. destruct (decimal 10217); reflexivity.
Qed.

(** C5: the extractor is not total over JSON values.  On the body
    [null] (and on a number or a boolean) the membership test
    ['markdown' in actual_result] raises [TypeError]; on an object whose
    [results] is [true], [result['results'][0]] does. *)
Theorem extract_raises_type_error (R : Runtime) (n : pynum) (b : bool) :
  extract_clean_content R JNull = Raise TypeError
  /\ extract_clean_content R (JNum n) = Raise TypeError
  /\ extract_clean_content R (JBool b) = Raise TypeError
  /\ extract_clean_content R (JObj [(lit "results", JBool true)])
     = Raise TypeError.
Proof. repeat split; reflexivity. Qed.

(** C6, as amended: whenever [extract_clean_content] returns a value
    other than [None], that value is the cleaner's output for the truthy
    [markdown] field of the effective object, or for the [raw_markdown]
    field of its [markdown_v2] object; it is empty when that field cleans
    to the empty string. *)
Theorem extract_returns_cleaned_field (R : Runtime) (body : json) (text : pystr) :
  extract_clean_content R body = Ret (Some text) ->
  exists actual content,
    actual_result body = Ret actual
    /\ text = clean_markdown_content R content
    /\ ((py_getitem actual (lit "markdown") = Ret content
         /\ truthy content = true)
        \/ exists fields,
            truthy_field (lit "markdown") actual = Ret None
            /\ py_getitem actual (lit "markdown_v2") = Ret (JObj fields)
            /\ lookup (lit "raw_markdown") fields = Some content).
Proof.
  unfold extract_clean_content. intro H.
  destruct (actual_result body) as [actual|e] eqn:Ha; [|discriminate H].
  simpl in H. exists actual.
  assert (Hfield : forall key v,
             truthy_field key actual = Ret (Some v) ->
             py_getitem actual key = Ret v /\ truthy v = true).
  { intros key v. unfold truthy_field.
    destruct (py_in key actual) as [[|]|]; simpl; try discriminate.
    destruct (py_getitem actual key) as [x|]; simpl; try discriminate.
    destruct (truthy x) eqn:Hx; intro Hv; inversion Hv; subst; auto. }
  destruct (truthy_field (lit "markdown") actual) as [[content|]|e] eqn:Hm;
    simpl in H; try discriminate H.
  - inversion H; subst. exists content.
    destruct (Hfield _ _ Hm). auto.
  - destruct (truthy_field (lit "markdown_v2") actual)
      as [[[| | | | |fields]|]|e] eqn:Hm2; simpl in H; try discriminate H.
    destruct (lookup (lit "raw_markdown") fields) as [content|] eqn:Hr;
      try discriminate H.
    inversion H; subst. exists content.
    destruct (Hfield _ _ Hm2). split; [reflexivity|]. split; [reflexivity|].
    right. exists fields. auto.
Qed.

Lemma extract_returns_cleaned_field_witness :
  extract_clean_content basic_latin
    (JObj [(lit "markdown", JStr (lit "Done"))]) = Ret (Some (lit "Done"))
  /\ exists actual content,
      actual_result (JObj [(lit "markdown", JStr (lit "Done"))]) = Ret actual
      /\ lit "Done" = clean_markdown_content basic_latin content
      /\ ((py_getitem actual (lit "markdown") = Ret content
           /\ truthy content = true)
          \/ exists fields,
              truthy_field (lit "markdown") actual = Ret None
              /\ py_getitem actual (lit "markdown_v2") = Ret (JObj fields)
              /\ lookup (lit "raw_markdown") fields = Some content).
Proof.
  split; [reflexivity|].
  apply (extract_returns_cleaned_field basic_latin
           (JObj [(lit "markdown", JStr (lit "Done"))]) (lit "Done")).
  reflexivity.
Defined.

(** Whatever the runtime, a [markdown] field of one space is extracted
    as the empty string. *)
Lemma extract_of_blank_markdown (R : Runtime) :
  extract_clean_content R (JObj [(lit "markdown", JStr (lit " "))])
  = Ret (Some []).
Proof. reflexivity. Qed.

(** C6 as stated fails: a [markdown] field of one space is non-empty and
    cleans to the empty string, which is what the extractor returns. *)
Lemma extract_returns_empty :
  ~ (forall (R : Runtime) (body : json) (text : pystr),
       extract_clean_content R body = Ret (Some text) -> text <> []).
Proof.
  intro H.
  apply (H basic_latin (JObj [(lit "markdown", JStr (lit " "))]) []);
    [apply extract_of_blank_markdown | reflexivity].
Qed.

(** ** The polling loop *)

Lemma str_eqb_eq (a b : pystr) : str_eqb a b = true <-> a = b.
Proof.
  revert b. induction a as [|x a IH]; intros [|y b]; simpl;
    try (split; [discriminate | discriminate]); try tauto.
  rewrite andb_true_iff, N.eqb_eq, IH.
  split; [intros [-> ->]; reflexivity | intro H; inversion H; auto].
Qed.

Section PollerFacts.

Variable R : Runtime.
Variable env : Env.
Variable headers : list (pystr * pystr).
Variable target_url : pystr.

Local Notation "'try_ep'" := (try_endpoint R env headers target_url).
Local Notation "'round'" := (for_endpoints R env headers target_url).
Local Notation "'rounds'" := (for_attempts R env headers target_url).

Lemma try_endpoint_no_url (endpoint : pystr) (e : exn) (w : world) :
  urljoin R CRAWL4AI_BASE_URL endpoint = Raise e ->
  try_ep endpoint w = (Next, w).
Proof.
  intro Hu. unfold try_endpoint, poll_endpoint, bindM, lift.
  rewrite Hu. reflexivity.
Qed.

Lemma try_endpoint_not_200 (endpoint url : pystr) (w : world) :
  urljoin R CRAWL4AI_BASE_URL endpoint = Ret url ->
  (forall r, server env (requests w) url = Some r -> status_code r <> 200) ->
  try_ep endpoint w = (Next, asked url w).
Proof.
  intros Hu Hs.
  unfold try_endpoint, poll_endpoint, bindM, lift, requests_get.
  rewrite Hu.
  destruct (server env (requests w) url) as [r|] eqn:Hr; [|reflexivity].
  destruct (N.eqb_spec (status_code r) 200) as [E|E].
  - exfalso. exact (Hs r eq_refl E).
  - reflexivity.
Qed.

Lemma for_endpoints_passed (pre eps : list pystr) (w0 w : world) :
  passed_over R env headers target_url pre w0 = Some w ->
  round (pre ++ eps) w0 = round eps w.
Proof.
  revert w0. induction pre as [|e pre IH]; simpl; intros w0 H.
  - inversion H. reflexivity.
  - destruct (try_ep e w0) as [[b| |] w'] eqn:Ht; try discriminate H.
    apply IH. exact H.
Qed.

(** What a 200 response with a JSON object leads to, by its status. *)
Lemma poll_endpoint_200 (endpoint url : pystr) (w : world)
      (response : http_response) (result status_field : json) :
  urljoin R CRAWL4AI_BASE_URL endpoint = Ret url ->
  server env (requests w) url = Some response ->
  status_code response = 200 ->
  json_body response = Some result ->
  py_get result (lit "status") (JStr []) = Ret status_field ->
  poll_endpoint R env headers target_url endpoint w =
  (let status := str_lower R (py_str R status_field) in
   if one_of completed_words status then
     (_ <~ print MsgCompleted ;;
      final_result <~ lift (py_get result (lit "result") result) ;;
      content <~ lift (extract_clean_content R final_result) ;;
      match content with
      | Some ((_ :: _) as text) =>
          _ <~ save_markdown R env text target_url ;;
          retM (Return true)
      | _ =>
          _ <~ print MsgNoContent ;;
          retM (Return false)
      end) (asked url w)
   else if one_of failed_words status then
     (Ret (Return false), emit (Print (MsgTaskFailed status)) (asked url w))
   else if one_of pending_words status then
     (Ret Break, emit (Print (MsgStatus status)) (asked url w))
   else (Ret Next, asked url w)).
Proof.
  intros Hu Hs Hc Hb Hst.
  unfold poll_endpoint, bindM at 1 2, lift at 1, requests_get.
  rewrite Hu, Hs, Hc. simpl N.eqb. cbv iota.
  unfold response_json. rewrite Hb.
  unfold bindM at 1, lift at 1.
  unfold bindM at 1, lift at 1. rewrite Hst.
  fold (asked url w).
  destruct (one_of completed_words (str_lower R (py_str R status_field)));
    [reflexivity|].
  destruct (one_of failed_words (str_lower R (py_str R status_field)));
    [reflexivity|].
  destruct (one_of pending_words (str_lower R (py_str R status_field)));
    reflexivity.
Qed.

Lemma pending_is_not_terminal (status : pystr) :
  one_of pending_words status = true ->
  one_of completed_words status = false
  /\ one_of failed_words status = false.
Proof.
  unfold one_of, pending_words. simpl existsb.
  rewrite !orb_true_iff, !str_eqb_eq.
  intros [-> | [-> | H]]; [split; reflexivity | split; reflexivity
                          | discriminate H].
Qed.

Lemma round_without_200 (eps : list pystr) (w : world) :
  never_200 env ->
  round eps w =
  (None, {| requests := requests w + length (round_gets R eps);
            log := log w ++ round_gets R eps |}).
Proof.
  intro H. revert w. induction eps as [|e eps IH]; intro w; simpl.
  - rewrite Nat.add_0_r, app_nil_r. destruct w; reflexivity.
  - destruct (urljoin R CRAWL4AI_BASE_URL e) as [url|x] eqn:Hu.
    + rewrite (try_endpoint_not_200 e url w Hu (H (requests w) url)).
      rewrite IH. unfold asked. simpl.
      rewrite <- app_assoc. simpl. do 2 f_equal. lia.
    + rewrite (try_endpoint_no_url e x w Hu). rewrite IH. reflexivity.
Qed.

Lemma rounds_without_200 (n : nat) (eps : list pystr) (w : world) :
  never_200 env ->
  rounds n eps w =
  (false,
   {| requests := requests w + n * length (round_gets R eps);
      log := log w ++ concat (repeat (round_gets R eps ++ [Sleep 5]) n)
                   ++ [Print MsgTimeout] |}).
Proof.
  intro H. revert w. induction n as [|n IH]; intro w; simpl.
  - rewrite Nat.add_0_r. reflexivity.
  - rewrite (round_without_200 eps w H). rewrite IH. unfold emit. simpl.
    rewrite <- !app_assoc. simpl. do 2 f_equal. lia.
Qed.

Lemma no_write_in_rounds (k : nat) (eps : list pystr) :
  existsb is_write (concat (repeat (round_gets R eps ++ [Sleep 5]) k)) = false.
Proof.
  assert (Hg : existsb is_write (round_gets R eps) = false).
  { induction eps as [|e eps IH]; simpl; [reflexivity|].
    rewrite existsb_app, IH, orb_false_r.
    destruct (urljoin R CRAWL4AI_BASE_URL e); reflexivity. }
  induction k as [|k IH]; simpl; [reflexivity|].
  rewrite !existsb_app, Hg, IH. reflexivity.
Qed.

(** C8: when no request is ever answered with status 200, the poll
    makes its 24 rounds (each: the candidate endpoints in order, then a
    sleep of 5), reports the timeout and returns [False]; no file is
    written. *)
Theorem poll_times_out (task_id : json) (w : world) :
  never_200 env ->
  exists events,
    wait_for_completion R env headers target_url task_id w
    = (false, {| requests :=
                   requests w + 24 * length (round_gets R (endpoints R task_id));
                 log := log w ++ events |})
    /\ events
       = concat (repeat (round_gets R (endpoints R task_id) ++ [Sleep 5]) 24)
           ++ [Print MsgTimeout]
    /\ existsb is_write events = false.
Proof.
  intro H.
  exists (concat (repeat (round_gets R (endpoints R task_id) ++ [Sleep 5]) 24)
            ++ [Print MsgTimeout]).
  split; [|split; [reflexivity|]].
  - unfold wait_for_completion. apply rounds_without_200. exact H.
  - rewrite existsb_app, no_write_in_rounds. reflexivity.
Qed.

(** In any round, when the endpoint reached answers 200 with a
    completed status and the extractor returns [None] (or empty text)
    for the [result] field (the whole body when it is absent), the poll
    prints that no content was found and returns [False] at once: no
    further request, no sleep, no timeout message. *)
Theorem completed_without_content_fails_at_once
        (n : nat) (pre rest : list pystr) (endpoint url : pystr)
        (w0 w : world) (response : http_response)
        (result status_field final_result : json) :
  passed_over R env headers target_url pre w0 = Some w ->
  urljoin R CRAWL4AI_BASE_URL endpoint = Ret url ->
  server env (requests w) url = Some response ->
  status_code response = 200 ->
  json_body response = Some result ->
  py_get result (lit "status") (JStr []) = Ret status_field ->
  one_of completed_words (str_lower R (py_str R status_field)) = true ->
  py_get result (lit "result") result = Ret final_result ->
  (extract_clean_content R final_result = Ret None
   \/ extract_clean_content R final_result = Ret (Some [])) ->
  rounds (S n) (pre ++ endpoint :: rest) w0
  = (false,
     {| requests := S (requests w);
        log := log w ++ [Get url; Print MsgCompleted; Print MsgNoContent] |}).
Proof.
  intros Hpre Hu Hs Hc Hb Hst Hdone Hfinal Hmiss.
  simpl. rewrite (for_endpoints_passed pre _ w0 w Hpre). simpl.
  unfold try_endpoint.
  rewrite (poll_endpoint_200 endpoint url w response result status_field
             Hu Hs Hc Hb Hst).
  cbv zeta. rewrite Hdone.
  unfold bindM at 1, print at 1.
  unfold bindM at 1, lift at 1. rewrite Hfinal.
  unfold bindM at 1, lift at 1.
  destruct Hmiss as [-> | ->]; unfold bindM, print, retM, emit, asked; simpl;
    rewrite <- !app_assoc; reflexivity.
Qed.

(** C7, as amended: after a 200 response with a JSON object, the
    remaining candidates of the round are skipped when the status is
    pending or running, and the poll goes on with the next round after
    its sleep; when the status is none of the known words the response
    is not fatal and the next candidate of the same round is tried; when
    it is a failed word the poll ends at once. *)
Theorem round_after_200
        (n : nat) (rest : list pystr) (endpoint url : pystr) (w : world)
        (response : http_response) (result status_field : json) :
  urljoin R CRAWL4AI_BASE_URL endpoint = Ret url ->
  server env (requests w) url = Some response ->
  status_code response = 200 ->
  json_body response = Some result ->
  py_get result (lit "status") (JStr []) = Ret status_field ->
  let status := str_lower R (py_str R status_field) in
  (one_of pending_words status = true ->
   round (endpoint :: rest) w
     = (None, emit (Print (MsgStatus status)) (asked url w))
   /\ rounds (S n) (endpoint :: rest) w
     = rounds n (endpoint :: rest)
         (emit (Sleep 5) (emit (Print (MsgStatus status)) (asked url w))))
  /\ (one_of completed_words status = false ->
      one_of failed_words status = false ->
      one_of pending_words status = false ->
      round (endpoint :: rest) w = round rest (asked url w)
      /\ rounds (S n) (endpoint :: rest) w
         = match round rest (asked url w) with
           | (Some b, w') => (b, w')
           | (None, w') => rounds n (endpoint :: rest) (emit (Sleep 5) w')
           end)
  /\ (one_of completed_words status = false ->
      one_of failed_words status = true ->
      rounds (S n) (endpoint :: rest) w
      = (false, emit (Print (MsgTaskFailed status)) (asked url w))).
Proof.
  intros Hu Hs Hc Hb Hst status.
  assert (Hpoll := poll_endpoint_200 endpoint url w response result
                     status_field Hu Hs Hc Hb Hst).
  cbv zeta in Hpoll. fold status in Hpoll.
  split; [|split].
  - intro Hp. destruct (pending_is_not_terminal status Hp) as [Hc' Hf'].
    rewrite Hc', Hf', Hp in Hpoll.
    assert (Hr : round (endpoint :: rest) w
                 = (None, emit (Print (MsgStatus status)) (asked url w))).
    { simpl. unfold try_endpoint. rewrite Hpoll. reflexivity. }
    split; [exact Hr|].
    change (rounds (S n) (endpoint :: rest) w)
      with (match round (endpoint :: rest) w with
            | (Some b, w') => (b, w')
            | (None, w') => rounds n (endpoint :: rest) (emit (Sleep 5) w')
            end).
    rewrite Hr. reflexivity.
  - intros Hc' Hf' Hp'. rewrite Hc', Hf', Hp' in Hpoll.
    assert (Hr : round (endpoint :: rest) w = round rest (asked url w)).
    { simpl. unfold try_endpoint. rewrite Hpoll. reflexivity. }
    split; [exact Hr|].
    change (rounds (S n) (endpoint :: rest) w)
      with (match round (endpoint :: rest) w with
            | (Some b, w') => (b, w')
            | (None, w') => rounds n (endpoint :: rest) (emit (Sleep 5) w')
            end).
    rewrite Hr. reflexivity.
  - intros Hc' Hf'. rewrite Hc', Hf' in Hpoll.
    simpl. unfold try_endpoint. rewrite Hpoll. reflexivity.
Qed.

End PollerFacts.

Lemma poll_times_out_witness :
  never_200 env_404
  /\ exists events,
      wait_for_completion basic_latin env_404 [] page task_x start
      = (false, {| requests := 72; log := events |})
      /\ existsb is_write events = false.
Proof.
  assert (H : never_200 env_404).
  { intros n url r Hr. inversion Hr. simpl. discriminate. }
  split; [exact H|].
  destruct (poll_times_out basic_latin env_404 [] page task_x start H)
    as [events [Hw [_ Hn]]].
  exists events. split; [exact Hw | exact Hn].
Defined.

Lemma completed_without_content_fails_at_once_witness :
  wait_for_completion basic_latin env_empty_result [] page task_x start
  = (false,
     {| requests := 1;
        log := [Get (url_of "/task/x"); Print MsgCompleted;
                Print MsgNoContent] |}).
Proof.
  exact (completed_without_content_fails_at_once
           basic_latin env_empty_result [] page 23 []
           [lit "/tasks/x"; lit "/result/x"] (lit "/task/x")
           (url_of "/task/x") start start
           {| status_code := 200;
              json_body :=
                Some (object [("status"%string, JStr (lit "completed"));
                              ("result"%string, object [])]) |}
           (object [("status"%string, JStr (lit "completed"));
                    ("result"%string, object [])])
           (JStr (lit "completed")) (object [])
           eq_refl eq_refl eq_refl eq_refl eq_refl eq_refl eq_refl eq_refl
           (or_introl eq_refl)).
Defined.

Lemma round_after_200_witness :
  for_endpoints basic_latin env_running [] page
    (endpoints basic_latin task_x) start
  = (None, {| requests := 1;
              log := [Get (url_of "/task/x");
                      Print (MsgStatus (lit "running"))] |})
  /\ for_endpoints basic_latin env_queued [] page
       (endpoints basic_latin task_x) start
     = for_endpoints basic_latin env_queued [] page
         [lit "/tasks/x"; lit "/result/x"]
         {| requests := 1; log := [Get (url_of "/task/x")] |}
  /\ wait_for_completion basic_latin env_failed [] page task_x start
     = (false, {| requests := 1;
                  log := [Get (url_of "/task/x");
                          Print (MsgTaskFailed (lit "failed"))] |}).
Proof.
  pose (rest := [lit "/tasks/x"; lit "/result/x"]).
  pose (reply := fun word : string =>
          {| status_code := 200;
             json_body := Some (object [("status"%string, JStr (lit word))]) |}).
  split; [|split].
  - exact (proj1
             (proj1
                (round_after_200 basic_latin env_running [] page 23 rest
                   (lit "/task/x") (url_of "/task/x") start (reply "running"%string)
                   (object [("status"%string, JStr (lit "running"))])
                   (JStr (lit "running"))
                   eq_refl eq_refl eq_refl eq_refl eq_refl)
                eq_refl)).
  - exact (proj1
             (proj1
                (proj2
                   (round_after_200 basic_latin env_queued [] page 23 rest
                      (lit "/task/x") (url_of "/task/x") start (reply "queued"%string)
                      (object [("status"%string, JStr (lit "queued"))])
                      (JStr (lit "queued"))
                      eq_refl eq_refl eq_refl eq_refl eq_refl))
                eq_refl eq_refl eq_refl)).
  - exact (proj2
             (proj2
                (round_after_200 basic_latin env_failed [] page 23 rest
                   (lit "/task/x") (url_of "/task/x") start (reply "failed"%string)
                   (object [("status"%string, JStr (lit "failed"))])
                   (JStr (lit "failed"))
                   eq_refl eq_refl eq_refl eq_refl eq_refl))
             eq_refl eq_refl).
Defined.

(** C7 as stated fails: the first candidate answers 200 with the status
    field [queued], and the second candidate is still requested in the
    same round (and it is the one whose answer is used). *)
Lemma second_candidate_tried_after_200 :
  ~ (forall (R : Runtime) (env : Env) (headers : list (pystr * pystr))
            (target_url endpoint url status : pystr) (rest : list pystr)
            (w : world) (response : http_response)
            (fields : list (pystr * json)),
       urljoin R CRAWL4AI_BASE_URL endpoint = Ret url ->
       server env (requests w) url = Some response ->
       status_code response = 200 ->
       json_body response = Some (JObj fields) ->
       lookup (lit "status") fields = Some (JStr status) ->
       requests (snd (for_endpoints R env headers target_url
                        (endpoint :: rest) w))
       = S (requests w)).
Proof.
  intro H.
  specialize (H basic_latin env_queued [] page (lit "/task/x")
                (url_of "/task/x") (lit "queued")
                [lit "/tasks/x"; lit "/result/x"] start
                {| status_code := 200;
                   json_body :=
                     Some (object [("status"%string, JStr (lit "queued"))]) |}
                [(lit "status", JStr (lit "queued"))]
                eq_refl eq_refl eq_refl eq_refl eq_refl).
  vm_compute in H. discriminate H.
Qed.

(** ** The normalizer *)

Lemma starts_with_app (prefix s : pystr) :
  starts_with prefix s = true -> exists r, s = prefix ++ r.
Proof.
  revert s. induction prefix as [|p prefix IH]; intros s H.
  - exists s. reflexivity.
  - destruct s as [|c s]; [discriminate H|]. simpl in H.
    apply andb_true_iff in H. destruct H as [E H]. apply N.eqb_eq in E. subst c.
    destruct (IH s H) as [r ->]. exists r. reflexivity.
Qed.

Lemma is_empty_false (s : pystr) : is_empty s = false <-> s <> [].
Proof. destruct s; simpl; split; congruence. Qed.

Lemma accepted_inv (R : Runtime) (u v : pystr) :
  clean_and_validate_url R u = Ret (Some v) ->
  stripped_text R u <> []
  /\ starts_with (lit "#") (stripped_text R u) = false
  /\ v = with_protocol (stripped_text R u)
  /\ exists p, urlparse R v = Ret p /\ netloc p <> [] /\ scheme p <> [].
Proof.
  unfold clean_and_validate_url. fold (stripped_text R u).
  fold (with_protocol (stripped_text R u)).
  destruct (is_empty u); [discriminate|].
  destruct (is_empty (stripped_text R u)) eqn:He; [discriminate|].
  destruct (starts_with (lit "#") (stripped_text R u)) eqn:Hc; [discriminate|].
  destruct (urlparse R (with_protocol (stripped_text R u))) as [p|e] eqn:Hp;
    simpl; [|discriminate].
  destruct (is_empty (netloc p)) eqn:Hn; simpl; [discriminate|].
  destruct (is_empty (scheme p)) eqn:Hs; simpl; [discriminate|].
  intro H. inversion H; subst v. apply is_empty_false in He, Hn, Hs.
  repeat split; auto. exists p. rewrite Hp. auto.
Qed.

Lemma with_protocol_has (w : pystr) : has_protocol (with_protocol w) = true.
Proof.
  unfold with_protocol. destruct (has_protocol w) eqn:H; [exact H|].
  vm_compute. reflexivity.
Qed.

Lemma split_scheme_http (R : Runtime) (x : pystr) :
  split_scheme R (url_cleaned (lit "http://" ++ x))
  = (lit "http", lit "//" ++ filter (fun c => negb (unsafe_url_byte c)) x).
Proof. vm_compute. reflexivity. Qed.

Lemma split_scheme_https (R : Runtime) (x : pystr) :
  split_scheme R (url_cleaned (lit "https://" ++ x))
  = (lit "https", lit "//" ++ filter (fun c => negb (unsafe_url_byte c)) x).
Proof. vm_compute. reflexivity. Qed.

(** The components [urlsplit] returns, when it returns. *)
Lemma urlsplit_inv (R : Runtime) (url : pystr) (r : ParseResult) :
  urlsplit R url = Ret r ->
  exists nl rest,
    split_netloc R (snd (split_scheme R (url_cleaned url))) = Ret (nl, rest)
    /\ scheme r = fst (split_scheme R (url_cleaned url))
    /\ netloc r = nl
    /\ path r = fst (fst (partition 63 (fst (fst (partition 35 rest)))))
    /\ params r = [].
Proof.
  unfold urlsplit. fold (url_cleaned url). intros H.
  destruct (split_scheme R (url_cleaned url)) as [sch url1]. simpl.
  destruct (split_netloc R url1) as [[nl rest]|e]; [|discriminate H].
  simpl in H. exists nl, rest.
  destruct (partition 35 rest) as [[url2 f1] frag]. simpl.
  destruct (partition 63 url2) as [[url3 f2] qry].
  destruct (checknetloc R nl); [|discriminate H].
  simpl in H. inversion H; subst r. simpl. auto.
Qed.

Lemma urlparse_inv (R : Runtime) (url : pystr) (p : ParseResult) :
  urlparse R url = Ret p ->
  exists r,
    urlsplit R url = Ret r
    /\ scheme p = scheme r
    /\ netloc p = netloc r
    /\ (path p = path r \/ path p = fst (splitparams (path r))).
Proof.
  unfold urlparse. destruct (urlsplit R url) as [r|e]; [|discriminate].
  cbn [bind]. intro H. exists r.
  destruct (existsb (str_eqb (scheme r)) uses_params && mem 59 (path r)).
  - destruct (splitparams (path r)) as [url' prm] eqn:Hs.
    inversion H. simpl. auto.
  - inversion H. subst. auto.
Qed.

Lemma protocol_scheme (R : Runtime) (v : pystr) (p : ParseResult) :
  has_protocol v = true ->
  urlparse R v = Ret p ->
  scheme p = lit "http" \/ scheme p = lit "https".
Proof.
  intros Hv Hp.
  destruct (urlparse_inv R v p Hp) as [r [Hr [Hs _]]].
  destruct (urlsplit_inv R v r Hr) as [nl [rest [_ [Hsch _]]]].
  rewrite Hs, Hsch. unfold has_protocol in Hv.
  apply orb_true_iff in Hv. destruct Hv as [Hv|Hv];
    apply starts_with_app in Hv; destruct Hv as [x ->].
  - left. rewrite split_scheme_http. reflexivity.
  - right. rewrite split_scheme_https. reflexivity.
Qed.

(** C4, as amended: every URL the normalizer accepts parses with scheme
    [http] or [https] and a non-empty network location (the authority:
    user information, host and port together). *)
Theorem accepted_scheme_and_netloc (R : Runtime) (u v : pystr) :
  clean_and_validate_url R u = Ret (Some v) ->
  exists p,
    urlparse R v = Ret p
    /\ (scheme p = lit "http" \/ scheme p = lit "https")
    /\ netloc p <> [].
Proof.
  intro H. destruct (accepted_inv R u v H) as [_ [_ [Hv [p [Hp [Hn _]]]]]].
  exists p. split; [exact Hp|]. split; [|exact Hn].
  apply (protocol_scheme R v p); [|exact Hp].
  rewrite Hv. apply with_protocol_has.
Qed.

Lemma accepted_scheme_and_netloc_witness :
  clean_and_validate_url basic_latin (lit "example.com/blog/my-post.html")
    = Ret (Some page)
  /\ exists p,
      urlparse basic_latin page = Ret p
      /\ (scheme p = lit "http" \/ scheme p = lit "https")
      /\ netloc p <> [].
Proof.
  split; [reflexivity|].
  apply (accepted_scheme_and_netloc basic_latin
           (lit "example.com/blog/my-post.html") page).
  reflexivity.
Defined.

(** Whatever the runtime, [:80] is accepted as [https://:80], which has
    a network location and no host. *)
Lemma port_only_accepted (R : Runtime) :
  clean_and_validate_url R (lit ":80") = Ret (Some (lit "https://:80"))
  /\ exists p,
      urlparse R (lit "https://:80") = Ret p
      /\ netloc p = lit ":80"
      /\ hostname R p = None.
Proof.
  split; [reflexivity|].
  eexists. split; [vm_compute; reflexivity|]. split; reflexivity.
Qed.

(** C4 as stated fails: the input [:80] is accepted as [https://:80],
    whose network location [:80] is not empty and whose host is. *)
Lemma accepted_without_host :
  ~ (forall (R : Runtime) (u v : pystr),
       clean_and_validate_url R u = Ret (Some v) ->
       exists p host,
         urlparse R v = Ret p
         /\ (scheme p = lit "http" \/ scheme p = lit "https")
         /\ hostname R p = Some host
         /\ host <> []).
Proof.
  intro H.
  destruct (port_only_accepted basic_latin) as [Ha [q [Hq [_ Hnone]]]].
  destruct (H basic_latin (lit ":80") (lit "https://:80") Ha)
    as [p [host [Hp [_ [Hh _]]]]].
  rewrite Hq in Hp. inversion Hp; subst p.
  rewrite Hnone in Hh. discriminate Hh.
Qed.

(** ** Where characters come from *)

Lemma incl_firstn {A} (n : nat) (s : list A) : incl (firstn n s) s.
Proof.
  revert n. induction s as [|c s IH]; intros [|n]; simpl;
    try apply incl_nil_l.
  intros x [->|Hx]; [left; reflexivity | right; exact (IH n x Hx)].
Qed.

Lemma incl_skipn {A} (n : nat) (s : list A) : incl (skipn n s) s.
Proof.
  revert n. induction s as [|c s IH]; intros [|n]; simpl;
    try apply incl_refl.
  apply incl_tl. apply IH.
Qed.

Lemma incl_rev {A} (s : list A) : incl (rev s) s.
Proof. intros x Hx. apply in_rev. exact Hx. Qed.

Lemma incl_rev_r {A} (s : list A) : incl s (rev s).
Proof. intros x Hx. apply in_rev in Hx. exact Hx. Qed.

Lemma incl_removelast {A} (s : list A) : incl (removelast s) s.
Proof.
  induction s as [|c s IH]; simpl; [apply incl_refl|].
  destruct s as [|d s]; [apply incl_nil_l|].
  intros x [->|Hx]; [left; reflexivity | right; exact (IH x Hx)].
Qed.

Lemma incl_drop_while (f : char -> bool) (s : pystr) :
  incl (drop_while f s) s.
Proof.
  induction s as [|c s IH]; simpl; [apply incl_refl|].
  destruct (f c); [apply incl_tl; exact IH | apply incl_refl].
Qed.

Lemma incl_strip_by (f : char -> bool) (s : pystr) : incl (strip_by f s) s.
Proof.
  unfold strip_by, rstrip_by, lstrip_by.
  eapply incl_tran; [apply incl_rev|].
  eapply incl_tran; [apply incl_drop_while|].
  eapply incl_tran; [apply incl_rev|].
  apply incl_drop_while.
Qed.

Lemma incl_partition (sep : char) (s : pystr) :
  incl (fst (fst (partition sep s))) s /\ incl (snd (partition sep s)) s.
Proof.
  unfold partition.
  destruct (skipn (span (fun c => negb (c =? sep)) s) s) as [|d after] eqn:E;
    simpl.
  - split; [apply incl_refl | apply incl_nil_l].
  - split; [apply incl_firstn|].
    apply incl_tran with (d :: after); [apply incl_tl, incl_refl|].
    rewrite <- E. apply incl_skipn.
Qed.

Lemma incl_after_last (sep : char) (s : pystr) : incl (after_last sep s) s.
Proof.
  unfold after_last.
  eapply incl_tran; [apply incl_rev|].
  eapply incl_tran; [apply incl_firstn|]. apply incl_rev.
Qed.

Lemma incl_split_on (sep : char) (s piece : pystr) :
  In piece (split_on sep s) -> incl piece s.
Proof.
  revert piece. induction s as [|c s IH]; simpl; intros piece H.
  - destruct H as [<-|[]]. apply incl_nil_l.
  - destruct (c =? sep).
    + destruct H as [<-|H]; [apply incl_nil_l|]. apply incl_tl. auto.
    + destruct (split_on sep s) as [|first others].
      * destruct H as [<-|[]]. intros x [->|[]]. left. reflexivity.
      * destruct H as [<-|H].
        -- intros x [->|Hx]; [left; reflexivity|].
           right. exact (IH first (or_introl eq_refl) x Hx).
        -- apply incl_tl. apply IH. right. exact H.
Qed.

Lemma last_in_or_default {A} (l : list A) (d : A) :
  In (last l d) l \/ last l d = d.
Proof.
  induction l as [|x l IH]; simpl; [right; reflexivity|].
  destruct l as [|y l]; [left; left; reflexivity|].
  destruct IH as [H|H]; [left; right; exact H|].
  right. exact H.
Qed.

(** A substitution whose replacement is always empty only deletes. *)
Lemma sub_from_deletes (m : option char -> pystr -> option nat)
      (repl : pystr -> pystr) (prev : option char) (k : nat) (s : pystr) :
  (forall t, repl t = []) ->
  incl (sub_from m repl prev k s) s.
Proof.
  intro Hr. revert prev k.
  induction s as [|c s IH]; intros prev k; simpl; [apply incl_refl|].
  destruct k as [|k]; [|apply incl_tl; apply IH].
  destruct (m prev (c :: s)) as [[|n]|].
  - intros x [->|Hx]; [left; reflexivity | right; exact (IH _ _ x Hx)].
  - rewrite Hr. simpl. apply incl_tl. apply IH.
  - intros x [->|Hx]; [left; reflexivity | right; exact (IH _ _ x Hx)].
Qed.

(** ** ASCII *)

Lemma printable_is_ascii (c : char) : printable c = true -> is_ascii c = true.
Proof.
  unfold printable, in_range, is_ascii.
  rewrite andb_true_iff, !N.leb_le, N.ltb_lt. lia.
Qed.

Lemma to_lower_ascii (c : char) : is_ascii c = true -> is_ascii (to_lower c) = true.
Proof.
  unfold to_lower, ascii_upper, in_range, is_ascii.
  destruct ((65 <=? c) && (c <=? 90)) eqn:E; [|auto].
  apply andb_true_iff in E. rewrite !N.leb_le in E. rewrite !N.ltb_lt. lia.
Qed.

Lemma all_ascii_incl (a b : pystr) : incl a b -> all_ascii b -> all_ascii a.
Proof. apply incl_Forall. Qed.

Lemma str_lower_ascii (R : Runtime) (s : pystr) :
  all_ascii s -> all_ascii (str_lower R s).
Proof.
  intro H. unfold str_lower.
  replace (forallb is_ascii s) with true.
  - induction H; simpl; constructor; auto using to_lower_ascii.
  - symmetry. apply forallb_forall. apply Forall_forall. exact H.
Qed.

(** The substitution of [[^\w\-]] by nothing keeps ASCII letters, digits,
    underscores and hyphens of an ASCII string, and nothing else. *)
Lemma sanitized_name (R : Runtime) (s : pystr) :
  all_ascii s ->
  Forall (fun c => name_char c = true)
         (re_sub (m_not_name_char R) delete s).
Proof.
  unfold re_sub. generalize (@None char).
  induction s as [|c s IH]; intros prev H; simpl; [constructor|].
  inversion H as [|? ? Hc Hs]; subst.
  destruct (re_word R c || (c =? 45)) eqn:E; simpl.
  - constructor; [|apply IH; exact Hs].
    unfold re_word in E. rewrite Hc in E. unfold name_char. exact E.
  - apply IH. exact Hs.
Qed.

Lemma unprintable_removed (s : pystr) :
  Forall (fun c => printable c = true) (re_sub m_unprintable delete s).
Proof.
  unfold re_sub. generalize (@None char).
  induction s as [|c s IH]; intro prev; simpl; [constructor|].
  destruct (printable c) eqn:E; simpl; [constructor|]; auto.
Qed.

Lemma stripped_text_printable (R : Runtime) (u : pystr) :
  Forall (fun c => printable c = true) (stripped_text R u).
Proof.
  unfold stripped_text, strip.
  eapply incl_Forall; [apply incl_strip_by | apply unprintable_removed].
Qed.

Lemma with_protocol_printable (w : pystr) :
  Forall (fun c => printable c = true) w ->
  Forall (fun c => printable c = true) (with_protocol w).
Proof.
  intro H. unfold with_protocol. destruct (has_protocol w); [exact H|].
  apply Forall_app. split; [|exact H].
  repeat constructor.
Qed.

Lemma accepted_printable (R : Runtime) (u v : pystr) :
  clean_and_validate_url R u = Ret (Some v) ->
  Forall (fun c => printable c = true) v.
Proof.
  intro H. destruct (accepted_inv R u v H) as [_ [_ [-> _]]].
  apply with_protocol_printable, stripped_text_printable.
Qed.

Lemma url_cleaned_incl (url : pystr) : incl (url_cleaned url) url.
Proof.
  unfold url_cleaned, lstrip_by.
  eapply incl_tran; [apply incl_filter | apply incl_drop_while].
Qed.

Lemma split_scheme_incl (R : Runtime) (s : pystr) :
  incl (snd (split_scheme R s)) s.
Proof.
  unfold split_scheme.
  destruct (find_char 58 s) as [[|i]|]; cbn [snd]; try apply incl_refl.
  match goal with |- context [if ?b then _ else _] => destruct b end;
    cbn [snd]; [apply incl_skipn | apply incl_refl].
Qed.

Lemma split_netloc_incl (R : Runtime) (s nl rest : pystr) :
  split_netloc R s = Ret (nl, rest) -> incl nl s /\ incl rest s.
Proof.
  unfold split_netloc. destruct (starts_with (lit "//") s).
  - assert (Hb := incl_skipn 2 s). revert Hb.
    generalize (skipn 2 s). intros body Hb.
    repeat match goal with
           | |- context [if ?b then Raise _ else _] => destruct b
           end; try discriminate.
    intro H. inversion H. split.
    + eapply incl_tran; [apply incl_firstn | exact Hb].
    + eapply incl_tran; [apply incl_skipn | exact Hb].
  - intro H. inversion H. split; [apply incl_nil_l | apply incl_refl].
Qed.

Lemma splitparams_incl (s : pystr) : incl (fst (splitparams s)) s.
Proof.
  unfold splitparams.
  destruct (rfind_char 47 s) as [slash|].
  - destruct (find_char 59 (skipn slash s)); cbn [fst];
      [apply incl_firstn | apply incl_refl].
  - destruct (find_char 59 s); cbn [fst];
      [apply incl_firstn | apply incl_removelast].
Qed.

Lemma urlparse_incl (R : Runtime) (url : pystr) (p : ParseResult) :
  urlparse R url = Ret p -> incl (netloc p) url /\ incl (path p) url.
Proof.
  intro Hp. destruct (urlparse_inv R url p Hp) as [r [Hr [_ [Hn Hpath]]]].
  destruct (urlsplit_inv R url r Hr) as [nl [rest [Hnl [_ [Hnr [Hpr _]]]]]].
  destruct (split_netloc_incl R _ nl rest Hnl) as [In1 In2].
  assert (Hbase : incl (snd (split_scheme R (url_cleaned url))) url).
  { eapply incl_tran; [apply split_scheme_incl | apply url_cleaned_incl]. }
  split.
  - rewrite Hn, Hnr. eapply incl_tran; [exact In1 | exact Hbase].
  - assert (Hr' : incl (path r) url).
    { rewrite Hpr.
      eapply incl_tran; [apply incl_partition|].
      eapply incl_tran; [apply incl_partition|].
      eapply incl_tran; [exact In2 | exact Hbase]. }
    destruct Hpath as [-> | ->]; [exact Hr'|].
    eapply incl_tran; [apply splitparams_incl | exact Hr'].
Qed.

Lemma hostname_ascii (R : Runtime) (p : ParseResult) (h : pystr) :
  all_ascii (netloc p) -> hostname R p = Some h -> all_ascii h.
Proof.
  intros Hn. unfold hostname.
  assert (Hi : all_ascii (after_last 64 (netloc p))).
  { eapply all_ascii_incl; [apply incl_after_last | exact Hn]. }
  revert Hi. generalize (after_last 64 (netloc p)). intros hostinfo Hi.
  pose proof (incl_partition 91 hostinfo) as [_ Hb].
  destruct (partition 91 hostinfo) as [[before have_open_br] bracketed].
  simpl in Hb.
  set (host := if have_open_br then fst (fst (partition 93 bracketed))
               else fst (fst (partition 58 hostinfo))).
  assert (Hh : all_ascii host).
  { unfold host. destruct have_open_br.
    - eapply all_ascii_incl; [apply incl_partition|].
      eapply all_ascii_incl; [exact Hb | exact Hi].
    - eapply all_ascii_incl; [apply incl_partition | exact Hi]. }
  clearbody host. destruct (is_empty host); [discriminate|].
  pose proof (incl_partition 37 host) as [Hname Hzone].
  destruct (partition 37 host) as [[name percent] zone]. simpl in *.
  intro H. inversion H. apply Forall_app. split.
  - apply str_lower_ascii. eapply all_ascii_incl; [exact Hname | exact Hh].
  - apply Forall_app. split.
    + destruct percent; repeat constructor.
    + eapply all_ascii_incl; [exact Hzone | exact Hh].
Qed.

(** C10: for every URL the normalizer accepts, the derived filename is a
    stem of ASCII letters, digits, underscores and hyphens followed by
    [.md]; it holds no path separator, space or other character. *)
Theorem filename_is_safe (R : Runtime) (u v : pystr) :
  clean_and_validate_url R u = Ret (Some v) ->
  exists stem,
    get_filename_from_url R v = Ret (stem ++ lit ".md")
    /\ Forall (fun c => name_char c = true) stem.
Proof.
  intro H.
  assert (Hv : all_ascii v).
  { eapply Forall_impl; [|apply (accepted_printable R u v H)].
    apply printable_is_ascii. }
  destruct (accepted_inv R u v H) as [_ [_ [_ [p [Hp _]]]]].
  destruct (urlparse_incl R v p Hp) as [Hn Hpath].
  unfold get_filename_from_url. rewrite Hp. cbn [bind].
  set (host := re_sub (m_not_name_char R) delete
                 match hostname R p with
                 | Some h => str_replace (lit "www.") [] h
                 | None => lit "unknown"
                 end).
  assert (Hhost : Forall (fun c => name_char c = true) host).
  { apply sanitized_name.
    destruct (hostname R p) as [h|] eqn:Hh.
    - eapply all_ascii_incl.
      + unfold str_replace, re_sub. apply sub_from_deletes. reflexivity.
      + apply (hostname_ascii R p h); [|exact Hh].
        eapply all_ascii_incl; [exact Hn | exact Hv].
    - repeat constructor. }
  clearbody host.
  set (path' := strip_by (is_char 47) (path p)).
  assert (Hp' : all_ascii path').
  { eapply all_ascii_incl; [apply incl_strip_by|].
    eapply all_ascii_incl; [exact Hpath | exact Hv]. }
  clearbody path'.
  destruct (is_empty path' || str_eqb path' (lit "index.html")
            || str_eqb path' (lit "index.php")).
  { exists host. split; [reflexivity | exact Hhost]. }
  set (page0 := last (split_on 47 path') []).
  assert (H0 : all_ascii page0).
  { destruct (last_in_or_default (split_on 47 path') []) as [Hl|Hl];
      fold page0 in Hl.
    - eapply all_ascii_incl; [apply (incl_split_on 47 path'); exact Hl|].
      exact Hp'.
    - rewrite Hl. constructor. }
  clearbody page0.
  set (page1 := if mem 46 page0 then hd [] (split_on 46 page0) else page0).
  assert (H1 : all_ascii page1).
  { unfold page1. destruct (mem 46 page0); [|exact H0].
    destruct (split_on 46 page0) as [|first others] eqn:Es; [constructor|].
    eapply all_ascii_incl; [apply (incl_split_on 46 page0)|exact H0].
    rewrite Es. left. reflexivity. }
  clearbody page1.
  pose proof (sanitized_name R page1 H1) as Hpage.
  destruct (re_sub (m_not_name_char R) delete page1) as [|c page]; simpl.
  - exists host. split; [reflexivity | exact Hhost].
  - exists (host ++ lit "-" ++ c :: page). split.
    + rewrite <- !app_assoc. reflexivity.
    + apply Forall_app. split; [exact Hhost|].
      apply Forall_app. split; [repeat constructor | exact Hpage].
Qed.

Lemma filename_is_safe_witness :
  clean_and_validate_url basic_latin (lit "example.com/blog/my-post.html")
    = Ret (Some page)
  /\ exists stem,
      get_filename_from_url basic_latin page = Ret (stem ++ lit ".md")
      /\ Forall (fun c => name_char c = true) stem.
Proof.
  split; [reflexivity|].
  apply (filename_is_safe basic_latin
           (lit "example.com/blog/my-post.html") page).
  reflexivity.
Defined.

(** ** Substitutions that change nothing *)

Lemma sub_from_no_match (m : option char -> pystr -> option nat)
      (repl : pystr -> pystr) (prev : option char) (s : pystr) :
  never_matches m s -> sub_from m repl prev O s = s.
Proof.
  revert prev. induction s as [|c s IH]; intros prev H; [reflexivity|].
  destruct H as [Hm Hs]. simpl.
  destruct (Hm prev) as [-> | ->]; rewrite (IH _ Hs); reflexivity.
Qed.

Lemma sub_from_skip (m : option char -> pystr -> option nat)
      (repl : pystr -> pystr) (prev : option char) (k : nat) (s : pystr) :
  sub_from m repl prev k s
  = sub_from m repl (last_passed prev k s) O (skipn k s).
Proof.
  revert prev k. induction s as [|c s IH]; intros prev [|k];
    try reflexivity.
  simpl. apply IH.
Qed.

Lemma run_then_none (x : char) (t : pystr) :
  run_then (not_char x) (is_char x) t = None -> ~ In x t.
Proof.
  induction t as [|c t IH]; simpl; [tauto|].
  change (not_char x c) with (negb (c =? x)).
  change (is_char x c) with (c =? x).
  destruct (N.eqb_spec c x) as [E|E]; simpl; [discriminate|].
  destruct (run_then (not_char x) (is_char x) t); [discriminate|].
  intros _ [H|H]; [exact (E H) | exact (IH eq_refl H)].
Qed.

Lemma run_then_absent (p : char -> bool) (x : char) (t : pystr) :
  ~ In x t -> run_then p (is_char x) t = None.
Proof.
  induction t as [|c t IH]; simpl; [reflexivity|]. intro H.
  rewrite IH by tauto.
  change (is_char x c) with (c =? x).
  destruct (N.eqb_spec c x) as [E|E]; [tauto|].
  destruct (p c); reflexivity.
Qed.

(** *** Braces *)

Lemma no_group_never_matches (s : pystr) :
  no_group s -> never_matches m_rtf_group s.
Proof.
  induction s as [|c s IH]; simpl; [tauto|].
  intros [Hc Hs]. split; [|exact (IH Hs)].
  intros _. left. unfold m_rtf_group.
  destruct (N.eq_dec c 123) as [E|E].
  - subst c. rewrite (run_then_absent _ 125 s (Hc eq_refl)). reflexivity.
  - destruct c as [|c]; [reflexivity|].
    repeat (destruct c as [c|c|]; try reflexivity). congruence.
Qed.

Lemma no_group_deleting (m : option char -> pystr -> option nat)
      (repl : pystr -> pystr) (prev : option char) (k : nat) (s : pystr) :
  (forall t, repl t = []) ->
  no_group s -> no_group (sub_from m repl prev k s).
Proof.
  intro Hr. revert prev k.
  induction s as [|c s IH]; intros prev k H; simpl; [exact I|].
  destruct H as [Hc Hs].
  assert (Hcopy : forall p, no_group (c :: sub_from m repl p O s)).
  { intro p. split; [|apply IH; exact Hs].
    intros E Hin. apply (Hc E).
    exact (sub_from_deletes m repl p O s Hr _ Hin). }
  destruct k as [|k]; [|apply IH; exact Hs].
  destruct (m prev (c :: s)) as [[|n]|]; try apply Hcopy.
  rewrite Hr. simpl. apply IH. exact Hs.
Qed.

Lemma no_group_app (a b : pystr) :
  no_group (a ++ b) -> no_group a /\ no_group b.
Proof.
  induction a as [|c a IH]; simpl; [tauto|].
  intros [Hc Hs]. destruct (IH Hs) as [Ha Hb].
  repeat split; auto.
  intros E Hin. apply (Hc E). apply in_or_app. left. exact Hin.
Qed.

Lemma sub_from_cons (m : option char -> pystr -> option nat)
      (repl : pystr -> pystr) (prev : option char) (c : char) (s : pystr) :
  sub_from m repl prev O (c :: s)
  = match m prev (c :: s) with
    | Some (S n) => repl (firstn (S n) (c :: s)) ++ sub_from m repl (Some c) n s
    | _ => c :: sub_from m repl (Some c) O s
    end.
Proof. reflexivity. Qed.

Lemma groups_removed_from (n : nat) :
  forall (prev : option char) (s : pystr),
    (length s <= n)%nat ->
    no_group (sub_from m_rtf_group delete prev O s).
Proof.
  induction n as [|n IH]; intros prev [|c s] Hlen;
    try exact I; try (simpl in Hlen; lia).
  simpl in Hlen. rewrite sub_from_cons.
  assert (Hcopy : m_rtf_group prev (c :: s) = None
                  \/ m_rtf_group prev (c :: s) = Some O ->
                  no_group (c :: sub_from m_rtf_group delete (Some c) O s)).
  { intro Hm. split; [|apply IH; lia].
    intros -> Hin.
    apply (sub_from_deletes m_rtf_group delete (Some 123) O s
             (fun _ => eq_refl)) in Hin.
    revert Hin. apply run_then_none.
    unfold m_rtf_group in Hm.
    destruct (run_then (not_char 125) (is_char 125) s) as [k|];
      [|reflexivity].
    destruct Hm as [Hm|Hm]; [discriminate Hm|].
    inversion Hm. lia. }
  destruct (m_rtf_group prev (c :: s)) as [[|k]|] eqn:Hm; auto.
  unfold delete at 1. rewrite app_nil_l, sub_from_skip. apply IH.
  pose proof (length_skipn k s). lia.
Qed.

Lemma groups_removed (s : pystr) : no_group (re_sub m_rtf_group delete s).
Proof. apply (groups_removed_from (length s)). lia. Qed.

(** *** Strip *)

Lemma drop_while_starts_clean (p : char -> bool) (s : pystr) :
  starts_clean p (drop_while p s).
Proof.
  induction s as [|c s IH]; simpl; [exact I|].
  destruct (p c) eqn:E; [exact IH | exact E].
Qed.

Lemma drop_while_clean (p : char -> bool) (s : pystr) :
  starts_clean p s -> drop_while p s = s.
Proof. destruct s as [|c s]; simpl; [reflexivity|]. intros ->. reflexivity. Qed.

Lemma drop_while_suffix (p : char -> bool) (s : pystr) :
  exists a, s = a ++ drop_while p s.
Proof.
  induction s as [|c s [a IH]]; simpl; [exists []; reflexivity|].
  destruct (p c); [|exists []; reflexivity].
  exists (c :: a). simpl. rewrite <- IH. reflexivity.
Qed.

Lemma starts_clean_prefix (p : char -> bool) (a b : pystr) :
  starts_clean p (a ++ b) -> starts_clean p a.
Proof. destruct a; simpl; auto. Qed.

Lemma starts_clean_app (p : char -> bool) (a b : pystr) :
  a <> [] -> starts_clean p a -> starts_clean p (a ++ b).
Proof. destruct a; simpl; [congruence | auto]. Qed.

Lemma strip_by_fixed (p : char -> bool) (s : pystr) :
  starts_clean p s -> starts_clean p (rev s) -> strip_by p s = s.
Proof.
  intros Hs He. unfold strip_by, rstrip_by, lstrip_by.
  rewrite (drop_while_clean p s Hs), (drop_while_clean p (rev s) He).
  apply rev_involutive.
Qed.

Lemma strip_by_factor (p : char -> bool) (s : pystr) :
  exists a b, s = a ++ strip_by p s ++ b.
Proof.
  unfold strip_by, rstrip_by, lstrip_by.
  destruct (drop_while_suffix p s) as [a Ha].
  destruct (drop_while_suffix p (rev (drop_while p s))) as [b Hb].
  exists a, (rev b). rewrite <- rev_app_distr, <- Hb, rev_involutive.
  exact Ha.
Qed.

Lemma strip_by_ends (p : char -> bool) (s : pystr) :
  starts_clean p (strip_by p s) /\ starts_clean p (rev (strip_by p s)).
Proof.
  unfold strip_by, rstrip_by, lstrip_by. split.
  - destruct (drop_while_suffix p (rev (drop_while p s))) as [b Hb].
    apply (starts_clean_prefix p _ (rev b)).
    rewrite <- rev_app_distr, <- Hb, rev_involutive.
    apply drop_while_starts_clean.
  - rewrite rev_involutive. apply drop_while_starts_clean.
Qed.

(** *** The normalizer on its own output *)

Lemma no_rtf_command_never_matches (R : Runtime) (s : pystr) :
  has_rtf_command s = false -> never_matches (m_rtf_command R) s.
Proof.
  induction s as [|c s IH]; simpl; [tauto|].
  intro H. apply orb_false_iff in H. destruct H as [Hc Hs].
  split; [|exact (IH Hs)].
  intros _. left. unfold m_rtf_command.
  destruct (N.eq_dec c 92) as [E|E].
  - subst c. simpl in Hc. destruct s as [|d s]; [reflexivity|].
    simpl. rewrite Hc. reflexivity.
  - other_than c.
Qed.

Lemma printable_never_matches (s : pystr) :
  Forall (fun c => printable c = true) s -> never_matches m_unprintable s.
Proof.
  induction 1 as [|c s Hc Hs IH]; simpl; [exact I|].
  split; [|exact IH]. intros _. left. rewrite Hc. reflexivity.
Qed.

Lemma stripped_text_no_group (R : Runtime) (u : pystr) :
  no_group (stripped_text R u).
Proof.
  unfold stripped_text, strip.
  set (x := re_sub m_unprintable delete _).
  assert (Hx : no_group x).
  { unfold x, re_sub.
    apply no_group_deleting; [reflexivity|].
    apply no_group_deleting; [reflexivity|].
    apply groups_removed. }
  clearbody x.
  destruct (strip_by_factor is_space x) as [a [b Hab]].
  rewrite Hab in Hx.
  apply no_group_app in Hx. destruct Hx as [_ Hx].
  apply no_group_app in Hx. tauto.
Qed.

Lemma with_protocol_no_group (w : pystr) :
  no_group w -> no_group (with_protocol w).
Proof.
  intro H. unfold with_protocol. destruct (has_protocol w); [exact H|].
  simpl. repeat split; try discriminate. exact H.
Qed.

Lemma with_protocol_stripped (w : pystr) :
  w <> [] ->
  starts_clean is_space w -> starts_clean is_space (rev w) ->
  strip (with_protocol w) = with_protocol w.
Proof.
  intros Hne Hs He. unfold strip, with_protocol.
  destruct (has_protocol w); apply strip_by_fixed; auto.
  - reflexivity.
  - rewrite rev_app_distr. apply starts_clean_app; [|exact He].
    intro E. apply Hne. rewrite <- (rev_involutive w), E. reflexivity.
Qed.

Lemma with_protocol_not_comment (w : pystr) :
  starts_with (lit "#") w = false ->
  starts_with (lit "#") (with_protocol w) = false.
Proof.
  intro H. unfold with_protocol. destruct (has_protocol w); [exact H|].
  reflexivity.
Qed.

Lemma with_protocol_not_empty (w : pystr) : w <> [] -> with_protocol w <> [].
Proof.
  intro H. unfold with_protocol. destruct (has_protocol w); [exact H|].
  discriminate.
Qed.

(** Without an RTF command left in it, an accepted URL passes through the
    substitutions and the strip unchanged. *)
Lemma accepted_is_stripped (R : Runtime) (u v : pystr) :
  clean_and_validate_url R u = Ret (Some v) ->
  has_rtf_command v = false ->
  stripped_text R v = v.
Proof.
  intros H Hcmd.
  pose proof (accepted_printable R u v H) as Hpr.
  destruct (accepted_inv R u v H) as [Hne [_ [Hv _]]].
  assert (Hg : no_group v).
  { rewrite Hv. apply with_protocol_no_group, stripped_text_no_group. }
  unfold stripped_text, re_sub.
  rewrite (sub_from_no_match _ _ _ v (no_group_never_matches v Hg)).
  rewrite (sub_from_no_match _ _ _ v (no_rtf_command_never_matches R v Hcmd)).
  rewrite (sub_from_no_match _ _ _ v (printable_never_matches v Hpr)).
  rewrite Hv. apply with_protocol_stripped; [exact Hne| |];
    unfold stripped_text, strip; apply strip_by_ends.
Qed.

(** C3, as amended: when the normalizer accepts [u] as [v] and [v] holds
    no backslash directly followed by an ASCII letter, normalizing [v]
    yields [v] again. *)
Theorem normalize_idempotent (R : Runtime) (u v : pystr) :
  clean_and_validate_url R u = Ret (Some v) ->
  has_rtf_command v = false ->
  clean_and_validate_url R v = Ret (Some v).
Proof.
  intros H Hcmd.
  pose proof (accepted_is_stripped R u v H Hcmd) as Hfix.
  destruct (accepted_inv R u v H) as [Hne [Hc [Hv [p [Hp [Hn Hs]]]]]].
  assert (Hv' : v <> []) by (rewrite Hv; apply with_protocol_not_empty, Hne).
  unfold clean_and_validate_url. fold (stripped_text R v). rewrite Hfix.
  apply is_empty_false in Hv'. rewrite Hv'.
  replace (starts_with (lit "#") v) with false
    by (symmetry; rewrite Hv; apply with_protocol_not_comment, Hc).
  replace (has_protocol v) with true
    by (symmetry; rewrite Hv; apply with_protocol_has).
  rewrite Hp. cbn [bind].
  apply is_empty_false in Hn, Hs. rewrite Hn, Hs. reflexivity.
Qed.

Lemma normalize_idempotent_witness :
  clean_and_validate_url basic_latin (lit "example.com/blog/my-post.html")
    = Ret (Some page)
  /\ has_rtf_command page = false
  /\ clean_and_validate_url basic_latin page = Ret (Some page).
Proof.
  split; [reflexivity|]. split; [reflexivity|].
  apply (normalize_idempotent basic_latin
           (lit "example.com/blog/my-post.html") page);
    reflexivity.
Defined.

(** Whatever the runtime, [x.com/\\a1b] is accepted as [https://x.com/\b]
    and that as [https://x.com/]. *)
Lemma leftover_command (R : Runtime) :
  clean_and_validate_url R (lit "x.com/\\a1b")
    = Ret (Some (lit "https://x.com/\b"))
  /\ clean_and_validate_url R (lit "https://x.com/\b")
    = Ret (Some (lit "https://x.com/")).
Proof. split; vm_compute; reflexivity. Qed.

(** C3 as stated fails: from [x.com/\\a1b] one pass of the command
    pattern removes [\a1] and leaves [\b]; the URL is accepted as
    [https://x.com/\b], and normalizing that gives [https://x.com/]. *)
Lemma normalize_not_idempotent :
  ~ (forall (R : Runtime) (u v : pystr),
       clean_and_validate_url R u = Ret (Some v) ->
       clean_and_validate_url R v = Ret (Some v)).
Proof.
  intro H. destruct (leftover_command basic_latin) as [H1 H2].
  specialize (H basic_latin _ _ H1). rewrite H2 in H.
  vm_compute in H. discriminate H.
Qed.

(** ** The cleaner *)

(** *** Patterns of character classes *)

Lemma starts_like_app (pat : list (char -> bool)) (a b : pystr) :
  starts_like pat a = true -> starts_like pat (a ++ b) = true.
Proof.
  revert a. induction pat as [|q pat IH]; intros [|c a]; simpl; auto;
    try discriminate.
  rewrite !andb_true_iff. intros [-> H]. auto.
Qed.

Lemma occurs_app_l (pat : list (char -> bool)) (a b : pystr) :
  occurs pat a = true -> occurs pat (a ++ b) = true.
Proof.
  induction a as [|c a IH]; simpl.
  - rewrite orb_false_r. destruct pat; [|discriminate].
    intros _. destruct b; reflexivity.
  - rewrite !orb_true_iff. intros [H|H].
    + left. exact (starts_like_app pat (c :: a) b H).
    + right. exact (IH H).
Qed.

Lemma occurs_app_r (pat : list (char -> bool)) (a b : pystr) :
  occurs pat b = true -> occurs pat (a ++ b) = true.
Proof.
  intro H. induction a as [|c a IH]; simpl; [exact H|].
  rewrite IH. apply orb_true_r.
Qed.

Lemma occurs_factor (pat : list (char -> bool)) (a s b : pystr) :
  occurs pat (a ++ s ++ b) = false -> occurs pat s = false.
Proof.
  intro H. destruct (occurs pat s) eqn:E; [|reflexivity].
  rewrite (occurs_app_r pat a _ (occurs_app_l pat s b E)) in H.
  discriminate H.
Qed.

Lemma occurs_strip (pat : list (char -> bool)) (s : pystr) :
  occurs pat s = false -> occurs pat (strip s) = false.
Proof.
  intro H. unfold strip.
  destruct (strip_by_factor is_space s) as [a [b Hab]].
  rewrite Hab in H. exact (occurs_factor pat a _ b H).
Qed.

Lemma occurs_cons (pat : list (char -> bool)) (c : char) (s : pystr) :
  occurs pat (c :: s) = false ->
  starts_like pat (c :: s) = false /\ occurs pat s = false.
Proof. simpl. intro H. apply orb_false_iff in H. exact H. Qed.

(** *** Substitutions that bring no new occurrence of a pattern *)

Section Preserving.

Variable m : option char -> pystr -> option nat.
Variable repl : pystr -> pystr.
Variable pat : list (char -> bool).

Hypothesis Hrepl : foreign_replacements m repl pat.

Lemma foreign_not_start (pat' : list (char -> bool)) (c : char) (s : pystr) :
  incl pat' pat -> pat' <> [] -> foreign pat c = true ->
  starts_like pat' (c :: s) = false.
Proof.
  intros Hi Hne Hc. destruct pat' as [|q pat']; [congruence|]. simpl.
  unfold foreign in Hc. rewrite forallb_forall in Hc.
  specialize (Hc q (Hi q (or_introl eq_refl))).
  apply negb_true_iff in Hc. rewrite Hc. reflexivity.
Qed.

Lemma starts_like_out (pat' : list (char -> bool)) :
  incl pat' pat ->
  forall prev s,
    starts_like pat' (sub_from m repl prev O s) = true ->
    starts_like pat' s = true.
Proof.
  induction pat' as [|q pat' IH]; intros Hi prev s; [reflexivity|].
  destruct s as [|c s]; [simpl; auto|].
  rewrite sub_from_cons.
  assert (Hcopy : starts_like (q :: pat')
                    (c :: sub_from m repl (Some c) O s) = true ->
                  starts_like (q :: pat') (c :: s) = true).
  { simpl. rewrite !andb_true_iff. intros [Hq H]. split; [exact Hq|].
    apply (IH (fun x Hx => Hi x (or_intror Hx)) (Some c) s H). }
  destruct (m prev (c :: s)) as [[|n]|] eqn:Hm; auto.
  destruct (Hrepl prev (c :: s) n Hm) as [Hne Hf].
  destruct (repl (firstn (S n) (c :: s))) as [|x r]; [congruence|].
  inversion Hf; subst. simpl app.
  rewrite (foreign_not_start (q :: pat') x _ Hi); [discriminate| |assumption].
  discriminate.
Qed.

Lemma starts_like_copied (pat' : list (char -> bool)) (c : char) (s : pystr) :
  incl pat' pat ->
  starts_like pat' (c :: sub_from m repl (Some c) O s) = true ->
  starts_like pat' (c :: s) = true.
Proof.
  intros Hi. destruct pat' as [|q pat'']; [reflexivity|].
  simpl. rewrite !andb_true_iff. intros [Hq H]. split; [exact Hq|].
  apply (starts_like_out pat'' (fun x Hx => Hi x (or_intror Hx)) (Some c) s H).
Qed.

Lemma occurs_after_foreign (r o : pystr) :
  pat <> [] ->
  Forall (fun c => foreign pat c = true) r ->
  occurs pat (r ++ o) = occurs pat o.
Proof.
  intros Hne. induction 1 as [|x r Hx Hr IH]; [reflexivity|].
  simpl app. simpl occurs.
  rewrite (foreign_not_start pat x _ (incl_refl pat) Hne Hx). exact IH.
Qed.

(** A pattern that occurs in the output occurred in the input. *)
Lemma occurs_out (prev : option char) (k : nat) (s : pystr) :
  pat <> [] ->
  occurs pat (sub_from m repl prev k s) = true -> occurs pat s = true.
Proof.
  intro Hne. revert prev k.
  induction s as [|c s IH]; intros prev k; [simpl; auto|].
  destruct k as [|k].
  - rewrite sub_from_cons.
    assert (Hcopy : occurs pat (c :: sub_from m repl (Some c) O s) = true ->
                    occurs pat (c :: s) = true).
    { intro H. simpl in H. apply orb_true_iff in H. destruct H as [H|H].
      - change (occurs pat (c :: s))
          with (starts_like pat (c :: s) || occurs pat s).
        apply orb_true_iff. left.
        exact (starts_like_copied pat c s (incl_refl pat) H).
      - change (occurs pat (c :: s))
          with (starts_like pat (c :: s) || occurs pat s).
        rewrite (IH _ _ H). apply orb_true_r. }
    destruct (m prev (c :: s)) as [[|n]|] eqn:Hm; auto.
    destruct (Hrepl prev (c :: s) n Hm) as [_ Hf].
    rewrite (occurs_after_foreign _ _ Hne Hf). intro H.
    change (occurs pat (c :: s))
      with (starts_like pat (c :: s) || occurs pat s).
    rewrite (IH _ _ H). apply orb_true_r.
  - simpl sub_from. intro H.
    change (occurs pat (c :: s))
      with (starts_like pat (c :: s) || occurs pat s).
    rewrite (IH _ _ H). apply orb_true_r.
Qed.

Lemma kept_out (s : pystr) :
  pat <> [] ->
  occurs pat s = false -> occurs pat (re_sub m repl s) = false.
Proof.
  intros Hne H. destruct (occurs pat (re_sub m repl s)) eqn:E; [|reflexivity].
  rewrite (occurs_out None O s Hne E) in H. discriminate H.
Qed.

End Preserving.

Section PreservingPairs.

Variable m : option char -> pystr -> option nat.
Variable repl : pystr -> pystr.
Variables q1 q2 : char -> bool.

Hypothesis Hrepl : alike_replacements m repl q1 q2.

Lemma head_out (prev : option char) (s : pystr) :
  starts_like [q2] (sub_from m repl prev O s) = true ->
  starts_like [q2] s = true.
Proof.
  destruct s as [|c s]; [simpl; auto|]. rewrite sub_from_cons.
  destruct (m prev (c :: s)) as [[|n]|] eqn:Hm; auto.
  destruct (Hrepl prev (c :: s) n Hm) as [r [-> Hr]].
  destruct (Hr c (or_introl eq_refl)) as [_ H2].
  simpl. rewrite H2. auto.
Qed.

Lemma occurs_at_join (a : pystr) (l h : char) (b : pystr) :
  q1 l = true -> q2 h = true ->
  occurs [q1; q2] (a ++ l :: h :: b) = true.
Proof.
  intros H1 H2. apply occurs_app_r. simpl. rewrite H1, H2. reflexivity.
Qed.

Lemma nonempty_last (a : pystr) :
  a <> [] -> exists a' l, a = a' ++ [l].
Proof.
  intro H. exists (removelast a), (last a 0).
  apply app_removelast_last. exact H.
Qed.

(** A pair that occurs in the output occurred in the input. *)
Lemma occurs_pair_out (prev : option char) (k : nat) (s : pystr) :
  occurs [q1; q2] (sub_from m repl prev k s) = true ->
  occurs [q1; q2] s = true.
Proof.
  revert prev k. induction s as [|c s IH]; intros prev k; [simpl; auto|].
  assert (Hlater : forall p j,
             occurs [q1; q2] (sub_from m repl p j s) = true ->
             occurs [q1; q2] (c :: s) = true).
  { intros p j H.
    change (occurs [q1; q2] (c :: s))
      with (starts_like [q1; q2] (c :: s) || occurs [q1; q2] s).
    rewrite (IH _ _ H). apply orb_true_r. }
  destruct k as [|k]; [|apply Hlater].
  rewrite sub_from_cons.
  assert (Hcopy : occurs [q1; q2] (c :: sub_from m repl (Some c) O s) = true ->
                  occurs [q1; q2] (c :: s) = true).
  { intro H. simpl in H. apply orb_true_iff in H. destruct H as [H|H].
    - apply andb_true_iff in H. destruct H as [Hc H'].
      change (starts_like [q2] (sub_from m repl (Some c) O s) = true) in H'.
      apply head_out in H'. destruct s as [|h s]; [discriminate H'|].
      simpl in H'. rewrite andb_true_r in H'.
      simpl. rewrite Hc, H'. reflexivity.
    - exact (Hlater _ _ H). }
  destruct (m prev (c :: s)) as [[|n]|] eqn:Hm; auto.
  destruct (Hrepl prev (c :: s) n Hm) as [r [-> Hr]].
  simpl app. intro H. simpl in H. apply orb_true_iff in H.
  destruct H as [H|H]; [|exact (Hlater _ _ H)].
  apply andb_true_iff in H. destruct H as [H1 H'].
  change (starts_like [q2] (sub_from m repl (Some c) n s) = true) in H'.
  rewrite sub_from_skip in H'.
  apply head_out in H'.
  destruct (skipn n s) as [|h rest] eqn:Hs; [discriminate H'|].
  simpl in H'. rewrite andb_true_r in H'.
  destruct (nonempty_last (firstn (S n) (c :: s))) as [a [l Hl]];
    [discriminate|].
  assert (Hin : In l (firstn (S n) (c :: s))).
  { rewrite Hl. apply in_or_app. right. left. reflexivity. }
  destruct (Hr l Hin) as [Hl1 _].
  rewrite <- (firstn_skipn (S n) (c :: s)).
  change (skipn (S n) (c :: s)) with (skipn n s).
  rewrite Hl, Hs, <- app_assoc. simpl app.
  apply occurs_at_join; [rewrite Hl1; exact H1 | exact H'].
Qed.

Lemma kept_pair_out (s : pystr) :
  occurs [q1; q2] s = false -> occurs [q1; q2] (re_sub m repl s) = false.
Proof.
  intro H. destruct (occurs [q1; q2] (re_sub m repl s)) eqn:E; [|reflexivity].
  rewrite (occurs_pair_out None O s E) in H. discriminate H.
Qed.

End PreservingPairs.

(** *** Runs *)

Lemma span_all (p : char -> bool) (s : pystr) :
  Forall (fun c => p c = true) (firstn (span p s) s).
Proof.
  induction s as [|c s IH]; simpl; [constructor|].
  destruct (p c) eqn:E; simpl; [constructor; assumption | constructor].
Qed.

Lemma span_end (p : char -> bool) (s : pystr) :
  starts_like [p] (skipn (span p s) s) = false.
Proof.
  induction s as [|c s IH]; simpl; [reflexivity|].
  destruct (p c) eqn:E; simpl; [exact IH | rewrite E; reflexivity].
Qed.

Lemma span_zero (p : char -> bool) (s : pystr) :
  starts_like [p] s = false -> span p s = O.
Proof.
  destruct s as [|c s]; simpl; [reflexivity|].
  rewrite andb_true_r. intros ->. reflexivity.
Qed.

(** What [run_then] found: [k] characters of the first class, then one of
    the second. *)
Lemma run_then_found (p q : char -> bool) (t : pystr) (k : nat) :
  run_then p q t = Some k ->
  exists d rest,
    t = firstn k t ++ d :: rest
    /\ length (firstn k t) = k
    /\ Forall (fun c => p c = true) (firstn k t)
    /\ q d = true.
Proof.
  revert k. induction t as [|c t IH]; intros k; simpl; [discriminate|].
  destruct (p c) eqn:Ep.
  - destruct (run_then p q t) as [j|] eqn:Er.
    + intro H. inversion H; subst k.
      destruct (IH j eq_refl) as [d [rest [Ht [Hl [Hp Hq]]]]].
      exists d, rest. simpl. rewrite <- Ht, Hl. auto.
    + destruct (q c) eqn:Eq; [|discriminate].
      intro H. inversion H; subst k. exists c, t. simpl. auto.
  - destruct (q c) eqn:Eq; [|discriminate].
    intro H. inversion H; subst k. exists c, t. simpl. auto.
Qed.

(** *** The four squeezing passes *)

Lemma starts_like_cons (q : char -> bool) (pat : list (char -> bool))
      (c : char) (s : pystr) :
  starts_like (q :: pat) (c :: s) = q c && starts_like pat s.
Proof. reflexivity. Qed.

Lemma occurs_cons_eq (pat : list (char -> bool)) (c : char) (s : pystr) :
  occurs pat (c :: s) = starts_like pat (c :: s) || occurs pat s.
Proof. reflexivity. Qed.

Lemma starts_like_longer (p : char -> bool) (pat : list (char -> bool))
      (s : pystr) :
  starts_like [p] s = false -> starts_like (p :: pat) s = false.
Proof.
  destruct s as [|c s]; [reflexivity|]. simpl. rewrite andb_true_r.
  intros ->. reflexivity.
Qed.

Lemma span_positive (p : char -> bool) (s : pystr) :
  span p s = O -> starts_like [p] s = false.
Proof.
  destruct s as [|c s]; simpl; [reflexivity|].
  destruct (p c); [discriminate | reflexivity].
Qed.

Lemma span_two (p : char -> bool) (s : pystr) :
  (span p s <= 1)%nat -> starts_like [p; p] s = false.
Proof.
  destruct s as [|c [|d s]]; simpl; try reflexivity.
  - rewrite andb_false_r. reflexivity.
  - destruct (p c); [|reflexivity]. destruct (p d); [lia | reflexivity].
Qed.

Lemma m_newlines_cons (prev : option char) (c : char) (s : pystr) :
  m_newlines prev (c :: s)
  = if newline c
    then if (2 <=? span newline s)%nat then Some (S (span newline s)) else None
    else None.
Proof.
  unfold m_newlines, newline. simpl. destruct (is_char 10 c); reflexivity.
Qed.

Lemma m_blanks_cons (prev : option char) (c : char) (s : pystr) :
  m_blanks prev (c :: s)
  = if is_blank c then Some (S (span is_blank s)) else None.
Proof. unfold m_blanks. simpl. destruct (is_blank c); reflexivity. Qed.

Lemma m_dots_cons (prev : option char) (c : char) (s : pystr) :
  m_dots prev (c :: s)
  = if dot c
    then if (1 <=? span dot s)%nat then Some (S (span dot s)) else None
    else None.
Proof.
  unfold m_dots, dot. simpl. destruct (is_char 46 c); reflexivity.
Qed.

Lemma run_then_cons (p q : char -> bool) (c : char) (t : pystr) :
  run_then p q (c :: t)
  = match (if p c then run_then p q t else None) with
    | Some k => Some (S k)
    | None => if q c then Some O else None
    end.
Proof. reflexivity. Qed.

Lemma punct_cases (c : char) :
  is_punct c = true -> c = 44 \/ c = 46 \/ c = 33 \/ c = 63.
Proof.
  unfold is_punct. rewrite !orb_true_iff, !N.eqb_eq. tauto.
Qed.

Lemma punct_not_space (c : char) : is_punct c = true -> is_space c = false.
Proof.
  intro H. destruct (punct_cases c H) as [->|[->|[->| ->]]]; reflexivity.
Qed.

Lemma blank_cases (c : char) : is_blank c = true -> c = 32 \/ c = 9.
Proof. unfold is_blank. rewrite orb_true_iff, !N.eqb_eq. tauto. Qed.

Lemma last_char_snoc (a : pystr) (d : char) : last_char (a ++ [d]) = [d].
Proof.
  unfold last_char. rewrite length_app. simpl.
  replace (length a + 1 - 1)%nat with (length a) by lia.
  induction a as [|c a IH]; simpl; auto.
Qed.

(** The text a match of the space-before-punctuation pattern covers:
    white space, then one punctuation mark. *)
Lemma space_punct_match (prev : option char) (t : pystr) (n : nat) :
  m_space_punct prev t = Some (S n) ->
  exists a d,
    firstn (S n) t = a ++ [d]
    /\ Forall (fun c => is_space c = true) a
    /\ is_punct d = true.
Proof.
  unfold m_space_punct.
  destruct (run_then is_space is_punct t) as [[|k]|] eqn:Er; try discriminate.
  intro H. inversion H; subst n.
  destruct (run_then_found _ _ _ _ Er) as [d [rest [Ht [Hl [Hp Hq]]]]].
  exists (firstn (S k) t), d. split; [|auto].
  rewrite Ht at 1.
  replace (S (k + 1)) with (length (firstn (S k) t) + 1)%nat by lia.
  rewrite firstn_app_2. reflexivity.
Qed.

(** Replacements foreign to a pattern. *)
Lemma newlines_foreign (pat : list (char -> bool)) :
  foreign pat 10 = true ->
  foreign_replacements m_newlines (replace_by [10; 10]) pat.
Proof.
  intros H prev t n _. split; [discriminate|]. repeat constructor; exact H.
Qed.

Lemma blanks_foreign (pat : list (char -> bool)) :
  foreign pat 32 = true ->
  foreign_replacements m_blanks (replace_by [32]) pat.
Proof.
  intros H prev t n _. split; [discriminate|]. repeat constructor; exact H.
Qed.

Lemma dots_foreign (pat : list (char -> bool)) :
  foreign pat 46 = true ->
  foreign_replacements m_dots (replace_by [46]) pat.
Proof.
  intros H prev t n _. split; [discriminate|]. repeat constructor; exact H.
Qed.

Lemma punct_foreign (pat : list (char -> bool)) :
  foreign pat 44 = true -> foreign pat 46 = true ->
  foreign pat 33 = true -> foreign pat 63 = true ->
  foreign_replacements m_space_punct last_char pat.
Proof.
  intros H1 H2 H3 H4 prev t n Hm.
  destruct (space_punct_match prev t n Hm) as [a [d [-> [_ Hd]]]].
  rewrite last_char_snoc. split; [discriminate|].
  constructor; [|constructor].
  destruct (punct_cases d Hd) as [->|[->|[->| ->]]]; assumption.
Qed.

(** Replacements of the same classes as what they replace. *)
Lemma blanks_alike :
  alike_replacements m_blanks (replace_by [32]) is_space is_punct.
Proof.
  intros prev [|c0 t] n Hm; [discriminate Hm|].
  exists 32. split; [reflexivity|]. intros c Hc.
  rewrite m_blanks_cons in Hm.
  destruct (is_blank c0) eqn:E0; [|discriminate Hm]. inversion Hm; subst n.
  assert (Hb : is_blank c = true).
  { destruct Hc as [<-|Hc]; [exact E0|].
    pose proof (span_all is_blank t) as Hall.
    rewrite Forall_forall in Hall. exact (Hall c Hc). }
  destruct (blank_cases c Hb) as [-> | ->]; split; reflexivity.
Qed.

Lemma dots_alike :
  alike_replacements m_dots (replace_by [46]) is_space is_punct.
Proof.
  intros prev [|c0 t] n Hm; [discriminate Hm|].
  exists 46. split; [reflexivity|]. intros c Hc.
  rewrite m_dots_cons in Hm.
  destruct (dot c0) eqn:E0; [|discriminate Hm].
  destruct (1 <=? span dot t)%nat; [|discriminate Hm].
  inversion Hm; subst n.
  assert (Hd : dot c = true).
  { destruct Hc as [<-|Hc]; [exact E0|].
    pose proof (span_all dot t) as Hall.
    rewrite Forall_forall in Hall. exact (Hall c Hc). }
  apply N.eqb_eq in Hd. subst c. split; reflexivity.
Qed.

(** What each pass leaves behind. *)
Lemma newlines_squeezed_from (n : nat) :
  forall (prev : option char) (s : pystr),
    (length s <= n)%nat ->
    occurs [newline; newline; newline]
      (sub_from m_newlines (replace_by [10; 10]) prev O s) = false
    /\ (starts_like [newline] s = false ->
        starts_like [newline]
          (sub_from m_newlines (replace_by [10; 10]) prev O s) = false)
    /\ (starts_like [newline; newline] s = false ->
        starts_like [newline; newline]
          (sub_from m_newlines (replace_by [10; 10]) prev O s) = false).
Proof.
  induction n as [|n IH]; intros prev [|c s] Hlen; simpl in Hlen;
    try lia; try (simpl; auto; fail).
  rewrite sub_from_cons, m_newlines_cons.
  destruct (newline c) eqn:Ec.
  - destruct (2 <=? span newline s)%nat eqn:E2.
    + unfold replace_by at 1. simpl app. rewrite sub_from_skip.
      destruct (IH (last_passed (Some c) (span newline s) s)
                  (skipn (span newline s) s)) as [He [Hc _]].
      { pose proof (length_skipn (span newline s) s). lia. }
      specialize (Hc (span_end newline s)).
      set (o := sub_from _ _ _ _ _) in *.
      split; [|split].
      * rewrite !occurs_cons_eq, !starts_like_cons, Hc, He.
        rewrite (starts_like_longer newline [newline] o Hc).
        rewrite !andb_false_r. reflexivity.
      * rewrite starts_like_cons, Ec. discriminate.
      * rewrite !starts_like_cons, Ec. simpl. intro H.
        apply span_zero in H. rewrite H in E2. discriminate E2.
    + apply Nat.leb_gt in E2.
      destruct (IH (Some c) s) as [He [Hc Hd]]; [lia|].
      set (o := sub_from _ _ _ _ _) in *.
      split; [|split].
      * rewrite occurs_cons_eq, starts_like_cons, He.
        rewrite Hd; [rewrite andb_false_r; reflexivity|].
        apply span_two. lia.
      * rewrite starts_like_cons, Ec. discriminate.
      * rewrite !starts_like_cons, Ec. simpl. intro H.
        exact (Hc H).
  - destruct (IH (Some c) s) as [He _]; [lia|].
    split; [|split].
    + rewrite occurs_cons_eq, starts_like_cons, Ec, He. reflexivity.
    + intros _. rewrite starts_like_cons, Ec. reflexivity.
    + intros _. rewrite starts_like_cons, Ec. reflexivity.
Qed.

Lemma newlines_squeezed (s : pystr) :
  occurs [newline; newline; newline] (squeeze_newlines s) = false.
Proof. apply (newlines_squeezed_from (length s)). lia. Qed.

Lemma punct_tightened_from (n : nat) :
  forall (prev : option char) (s : pystr),
    (length s <= n)%nat ->
    occurs [is_space; is_punct] (sub_from m_space_punct last_char prev O s)
    = false
    /\ (run_then is_space is_punct s = None ->
        starts_like [is_punct] (sub_from m_space_punct last_char prev O s)
        = false).
Proof.
  induction n as [|n IH]; intros prev [|c s] Hlen; simpl in Hlen;
    try lia; try (simpl; auto; fail).
  rewrite sub_from_cons.
  destruct (m_space_punct prev (c :: s)) as [[|k]|] eqn:Hm.
  - unfold m_space_punct in Hm.
    destruct (run_then is_space is_punct (c :: s)) as [[|j]|]; discriminate Hm.
  - destruct (space_punct_match prev (c :: s) k Hm) as [a [d [-> [_ Hd]]]].
    rewrite last_char_snoc. simpl app. rewrite sub_from_skip.
    destruct (IH (last_passed (Some c) k s) (skipn k s)) as [He _].
    { pose proof (length_skipn k s). lia. }
    split.
    + rewrite occurs_cons_eq, starts_like_cons, He.
      rewrite (punct_not_space d Hd). reflexivity.
    + unfold m_space_punct in Hm. intro Hr. rewrite Hr in Hm. discriminate Hm.
  - destruct (IH (Some c) s) as [He Hc]; [lia|].
    unfold m_space_punct in Hm. rewrite run_then_cons in Hm |- *.
    destruct (is_space c) eqn:Es.
    + destruct (run_then is_space is_punct s) as [j|] eqn:Er;
        [discriminate Hm|].
      split.
      * rewrite occurs_cons_eq, starts_like_cons, He, (Hc eq_refl).
        rewrite andb_false_r. reflexivity.
      * destruct (is_punct c) eqn:Ep; [discriminate|].
        intros _. rewrite starts_like_cons, Ep. reflexivity.
    + split.
      * rewrite occurs_cons_eq, starts_like_cons, He, Es. reflexivity.
      * destruct (is_punct c) eqn:Ep; [discriminate|].
        intros _. rewrite starts_like_cons, Ep. reflexivity.
Qed.

Lemma punct_tightened (s : pystr) :
  occurs [is_space; is_punct] (tighten_punct s) = false.
Proof. apply (punct_tightened_from (length s)). lia. Qed.

Lemma blanks_squeezed_from (n : nat) :
  forall (prev : option char) (s : pystr),
    (length s <= n)%nat ->
    occurs [is_blank; is_blank]
      (sub_from m_blanks (replace_by [32]) prev O s) = false
    /\ occurs [is_char 9]
         (sub_from m_blanks (replace_by [32]) prev O s) = false
    /\ (starts_like [is_blank] s = false ->
        starts_like [is_blank]
          (sub_from m_blanks (replace_by [32]) prev O s) = false).
Proof.
  induction n as [|n IH]; intros prev [|c s] Hlen; simpl in Hlen;
    try lia; try (simpl; auto; fail).
  rewrite sub_from_cons, m_blanks_cons.
  destruct (is_blank c) eqn:Ec.
  - unfold replace_by at 1. simpl app. rewrite sub_from_skip.
    destruct (IH (last_passed (Some c) (span is_blank s) s)
                (skipn (span is_blank s) s)) as [He [Ht Hc]].
    { pose proof (length_skipn (span is_blank s) s). lia. }
    specialize (Hc (span_end is_blank s)).
    set (o := sub_from _ _ _ _ _) in *.
    split; [|split].
    + rewrite occurs_cons_eq, starts_like_cons, Hc, He. reflexivity.
    + rewrite occurs_cons_eq, starts_like_cons, Ht. reflexivity.
    + rewrite starts_like_cons, Ec. discriminate.
  - destruct (IH (Some c) s) as [He [Ht _]]; [lia|].
    split; [|split].
    + rewrite occurs_cons_eq, starts_like_cons, Ec, He. reflexivity.
    + rewrite occurs_cons_eq, starts_like_cons, Ht.
      unfold is_blank in Ec. apply orb_false_iff in Ec. destruct Ec as [_ E9].
      unfold is_char. rewrite E9. reflexivity.
    + intros _. rewrite starts_like_cons, Ec. reflexivity.
Qed.

Lemma blanks_squeezed (s : pystr) :
  occurs [is_blank; is_blank] (squeeze_blanks s) = false
  /\ occurs [is_char 9] (squeeze_blanks s) = false.
Proof.
  destruct (blanks_squeezed_from (length s) None s (le_n _)) as [H1 [H2 _]].
  split; assumption.
Qed.

Lemma dots_squeezed_from (n : nat) :
  forall (prev : option char) (s : pystr),
    (length s <= n)%nat ->
    occurs [dot; dot] (sub_from m_dots (replace_by [46]) prev O s) = false
    /\ (starts_like [dot] s = false ->
        starts_like [dot] (sub_from m_dots (replace_by [46]) prev O s)
        = false).
Proof.
  induction n as [|n IH]; intros prev [|c s] Hlen; simpl in Hlen;
    try lia; try (simpl; auto; fail).
  rewrite sub_from_cons, m_dots_cons.
  destruct (dot c) eqn:Ec.
  - destruct (1 <=? span dot s)%nat eqn:E1.
    + unfold replace_by at 1. simpl app. rewrite sub_from_skip.
      destruct (IH (last_passed (Some c) (span dot s) s)
                  (skipn (span dot s) s)) as [He Hc].
      { pose proof (length_skipn (span dot s) s). lia. }
      specialize (Hc (span_end dot s)).
      set (o := sub_from _ _ _ _ _) in *.
      split.
      * rewrite occurs_cons_eq, starts_like_cons, Hc, He. reflexivity.
      * rewrite starts_like_cons, Ec. discriminate.
    + apply Nat.leb_gt in E1.
      destruct (IH (Some c) s) as [He Hc]; [lia|].
      assert (H0 : starts_like [dot] s = false)
        by (apply span_positive; lia).
      split.
      * rewrite occurs_cons_eq, starts_like_cons, He, (Hc H0).
        rewrite andb_false_r. reflexivity.
      * rewrite starts_like_cons, Ec. discriminate.
  - destruct (IH (Some c) s) as [He _]; [lia|].
    split.
    + rewrite occurs_cons_eq, starts_like_cons, Ec, He. reflexivity.
    + intros _. rewrite starts_like_cons, Ec. reflexivity.
Qed.

Lemma dots_squeezed (s : pystr) :
  occurs [dot; dot] (squeeze_dots s) = false.
Proof. apply (dots_squeezed_from (length s)). lia. Qed.

(** *** Text the passes leave alone *)

Lemma span_two_starts (p : char -> bool) (s : pystr) :
  (2 <= span p s)%nat -> starts_like [p; p] s = true.
Proof.
  destruct s as [|c [|d s]]; simpl; try lia.
  - destruct (p c); simpl; lia.
  - destruct (p c); simpl; [|lia]. destruct (p d); simpl; [reflexivity | lia].
Qed.

Lemma span_one_starts (p : char -> bool) (s : pystr) :
  (1 <= span p s)%nat -> starts_like [p] s = true.
Proof.
  destruct s as [|c s]; simpl; try lia.
  destruct (p c); simpl; [reflexivity | lia].
Qed.

Lemma no_newlines_match (s : pystr) :
  occurs [newline; newline; newline] s = false -> never_matches m_newlines s.
Proof.
  induction s as [|c s IH]; [intros; exact I|]. intro H.
  apply occurs_cons in H. destruct H as [Hh Ht].
  split; [|exact (IH Ht)]. intros prev. left. rewrite m_newlines_cons.
  destruct (newline c) eqn:Ec; [|reflexivity].
  destruct (2 <=? span newline s)%nat eqn:E2; [|reflexivity].
  apply Nat.leb_le in E2. apply span_two_starts in E2.
  rewrite starts_like_cons, Ec, E2 in Hh. discriminate Hh.
Qed.

Lemma no_dots_match (s : pystr) :
  occurs [dot; dot] s = false -> never_matches m_dots s.
Proof.
  induction s as [|c s IH]; [intros; exact I|]. intro H.
  apply occurs_cons in H. destruct H as [Hh Ht].
  split; [|exact (IH Ht)]. intros prev. left. rewrite m_dots_cons.
  destruct (dot c) eqn:Ec; [|reflexivity].
  destruct (1 <=? span dot s)%nat eqn:E1; [|reflexivity].
  apply Nat.leb_le in E1. apply span_one_starts in E1.
  rewrite starts_like_cons, Ec, E1 in Hh. discriminate Hh.
Qed.

Lemma run_then_occurs (p q : char -> bool) (s : pystr) (k : nat) :
  run_then p q s = Some (S k) -> occurs [p; q] s = true.
Proof.
  revert k. induction s as [|c s IH]; intro k; [discriminate|].
  rewrite run_then_cons, occurs_cons_eq, starts_like_cons.
  destruct (p c) eqn:Ep.
  - destruct (run_then p q s) as [[|j]|] eqn:Er.
    + intros _. destruct s as [|d s]; [discriminate Er|].
      rewrite run_then_cons in Er.
      destruct (if p d then run_then p q s else None); [discriminate Er|].
      destruct (q d) eqn:Eq; [|discriminate Er].
      rewrite starts_like_cons, Eq. reflexivity.
    + intros _. rewrite (IH j eq_refl). apply orb_true_r.
    + destruct (q c); discriminate.
  - destruct (q c); discriminate.
Qed.

Lemma no_space_punct_match (s : pystr) :
  occurs [is_space; is_punct] s = false -> never_matches m_space_punct s.
Proof.
  induction s as [|c s IH]; [intros; exact I|]. intro H.
  split; [|apply IH; apply occurs_cons in H; tauto].
  intros prev. left. unfold m_space_punct.
  destruct (run_then is_space is_punct (c :: s)) as [[|k]|] eqn:Er;
    try reflexivity.
  rewrite (run_then_occurs _ _ _ _ Er) in H. discriminate H.
Qed.

Lemma single_blanks_kept (s : pystr) :
  occurs [is_blank; is_blank] s = false ->
  occurs [is_char 9] s = false ->
  forall prev, sub_from m_blanks (replace_by [32]) prev O s = s.
Proof.
  induction s as [|c s IH]; intros Hb Ht prev; [reflexivity|].
  apply occurs_cons in Hb, Ht. destruct Hb as [Hbh Hb], Ht as [Hth Ht].
  rewrite sub_from_cons, m_blanks_cons.
  destruct (is_blank c) eqn:Ec.
  - rewrite starts_like_cons, Ec in Hbh. simpl in Hbh.
    rewrite (span_zero is_blank s Hbh).
    rewrite (IH Hb Ht). unfold replace_by. simpl.
    destruct (blank_cases c Ec) as [-> | ->]; [reflexivity|].
    discriminate Hth.
  - rewrite (IH Hb Ht). reflexivity.
Qed.

Lemma is_char_false (x c : char) : is_char x c = false -> c <> x.
Proof. unfold is_char. intro H. apply N.eqb_neq. exact H. Qed.

Lemma single_head (x c : char) (s : pystr) :
  occurs [is_char x] (c :: s) = false -> c <> x /\ occurs [is_char x] s = false.
Proof.
  intro H. apply occurs_cons in H. destruct H as [Hh Ht].
  rewrite starts_like_cons, andb_true_r in Hh.
  split; [apply is_char_false; exact Hh | exact Ht].
Qed.

Lemma no_citation_match (R : Runtime) (s : pystr) :
  occurs [is_char 10216] s = false -> never_matches (m_citation R) s.
Proof.
  induction s as [|c s IH]; [intros; exact I|]. intro H.
  apply single_head in H. destruct H as [E Ht].
  split; [|exact (IH Ht)]. intros prev. left. unfold m_citation.
  other_than c.
Qed.

Lemma no_empty_link_match (s : pystr) :
  occurs [is_char 91] s = false -> never_matches m_empty_link s.
Proof.
  induction s as [|c s IH]; [intros; exact I|]. intro H.
  apply single_head in H. destruct H as [E Ht].
  split; [|exact (IH Ht)]. intros prev. left. unfold m_empty_link.
  other_than c.
Qed.

Lemma no_image_match (s : pystr) :
  occurs [is_char 91] s = false -> never_matches m_image s.
Proof.
  induction s as [|c s IH]; [intros; exact I|]. intro H.
  apply single_head in H. destruct H as [_ Ht].
  split; [|exact (IH Ht)]. intros prev. left. unfold m_image.
  destruct (N.eq_dec c 33) as [E|E].
  - subst c. destruct s as [|d s]; [reflexivity|].
    apply single_head in Ht. destruct Ht as [E _].
    other_than d.
  - other_than c.
Qed.

Lemma no_url_word_match (R : Runtime) (s : pystr) :
  occurs [is_char 85; is_char 82; is_char 76] s = false ->
  never_matches (m_url_word R) s.
Proof.
  induction s as [|c s IH]; [intros; exact I|]. intro H.
  apply occurs_cons in H. destruct H as [Hh Ht].
  split; [|exact (IH Ht)]. intros prev. left. unfold m_url_word.
  destruct (N.eq_dec c 85) as [E|E]; [subst c | other_than c].
  destruct s as [|d s]; [reflexivity|].
  destruct (N.eq_dec d 82) as [E|E]; [subst d | other_than d].
  destruct s as [|e s]; [reflexivity|].
  destruct (N.eq_dec e 76) as [E|E]; [subst e | other_than e].
  discriminate Hh.
Qed.

(** *** The cleaner on its own output *)

Lemma starts_with_like (p s : pystr) :
  starts_with p s = starts_like (map is_char p) s.
Proof.
  revert s. induction p as [|x p IH]; intros [|c s]; simpl; try reflexivity.
  rewrite IH. unfold is_char. rewrite (N.eqb_sym x c). reflexivity.
Qed.

Lemma contains_occurs (p s : pystr) :
  contains p s = occurs (map is_char p) s.
Proof.
  induction s as [|c s IH]; simpl; rewrite starts_with_like; [reflexivity|].
  rewrite IH. reflexivity.
Qed.

Lemma mem_occurs (x : char) (s : pystr) : mem x s = occurs [is_char x] s.
Proof.
  unfold mem. induction s as [|c s IH]; simpl; [reflexivity|].
  rewrite IH, andb_true_r. unfold is_char. rewrite (N.eqb_sym x c).
  reflexivity.
Qed.

Lemma plain_kept (m : option char -> pystr -> option nat)
      (repl : pystr -> pystr) (s : pystr) :
  foreign_replacements m repl [is_char 91] ->
  foreign_replacements m repl [is_char 10216] ->
  foreign_replacements m repl [is_char 85; is_char 82; is_char 76] ->
  plain s -> plain (re_sub m repl s).
Proof.
  intros F1 F2 F3 [H1 [H2 H3]].
  repeat split; apply kept_out; try assumption; discriminate.
Qed.

Lemma plain_squeeze_newlines (s : pystr) : plain s -> plain (squeeze_newlines s).
Proof. apply plain_kept; apply newlines_foreign; reflexivity. Qed.

Lemma plain_tighten_punct (s : pystr) : plain s -> plain (tighten_punct s).
Proof. apply plain_kept; apply punct_foreign; reflexivity. Qed.

Lemma plain_squeeze_blanks (s : pystr) : plain s -> plain (squeeze_blanks s).
Proof. apply plain_kept; apply blanks_foreign; reflexivity. Qed.

Lemma plain_squeeze_dots (s : pystr) : plain s -> plain (squeeze_dots s).
Proof. apply plain_kept; apply dots_foreign; reflexivity. Qed.

Lemma plain_strip (s : pystr) : plain s -> plain (strip s).
Proof.
  intros [H1 [H2 H3]]. repeat split; apply occurs_strip; assumption.
Qed.

(** On plain text the cleaner's eight passes are the four squeezing ones. *)
Lemma clean_passes_plain (R : Runtime) (s : pystr) :
  plain s -> clean_passes R s = squeeze s.
Proof.
  intro Hs. unfold clean_passes, squeeze.
  destruct Hs as [H1 [H2 H3]].
  unfold re_sub at 8.
  rewrite (sub_from_no_match _ _ _ s (no_citation_match R s H2)).
  unfold re_sub at 7.
  rewrite (sub_from_no_match _ _ _ s (no_url_word_match R s H3)).
  unfold re_sub at 6.
  rewrite (sub_from_no_match _ _ _ s (no_image_match s H1)).
  fold (squeeze_newlines s). fold (tighten_punct (squeeze_newlines s)).
  fold (squeeze_blanks (tighten_punct (squeeze_newlines s))).
  assert (Hp : plain (squeeze_blanks (tighten_punct (squeeze_newlines s)))).
  { apply plain_squeeze_blanks, plain_tighten_punct, plain_squeeze_newlines.
    repeat split; assumption. }
  destruct Hp as [Hp _].
  unfold re_sub at 2.
  rewrite (sub_from_no_match _ _ _ _ (no_empty_link_match _ Hp)).
  reflexivity.
Qed.

Lemma squeeze_settled (s : pystr) : settled (squeeze s).
Proof.
  unfold squeeze.
  destruct (blanks_squeezed (tighten_punct (squeeze_newlines s))) as [Hb Ht].
  repeat split.
  - unfold squeeze_dots, squeeze_blanks, tighten_punct.
    apply kept_out; [apply dots_foreign; reflexivity | discriminate |].
    apply kept_out; [apply blanks_foreign; reflexivity | discriminate |].
    apply kept_out; [apply punct_foreign; reflexivity | discriminate |].
    apply newlines_squeezed.
  - unfold squeeze_dots, squeeze_blanks.
    apply (kept_pair_out _ _ _ _ dots_alike).
    apply (kept_pair_out _ _ _ _ blanks_alike).
    apply punct_tightened.
  - unfold squeeze_dots.
    apply kept_out; [apply dots_foreign; reflexivity | discriminate | exact Hb].
  - unfold squeeze_dots.
    apply kept_out; [apply dots_foreign; reflexivity | discriminate | exact Ht].
  - apply dots_squeezed.
Qed.

Lemma settled_strip (s : pystr) : settled s -> settled (strip s).
Proof.
  intros [H1 [H2 [H3 [H4 H5]]]].
  repeat split; apply occurs_strip; assumption.
Qed.

Lemma settled_fixed (s : pystr) : settled s -> squeeze s = s.
Proof.
  intros [H1 [H2 [H3 [H4 H5]]]].
  unfold squeeze, squeeze_dots, squeeze_blanks, tighten_punct,
    squeeze_newlines, re_sub.
  rewrite (sub_from_no_match _ _ _ s (no_newlines_match s H1)).
  rewrite (sub_from_no_match _ _ _ s (no_space_punct_match s H2)).
  rewrite (single_blanks_kept s H3 H4).
  rewrite (sub_from_no_match _ _ _ s (no_dots_match s H5)).
  reflexivity.
Qed.

Lemma strip_strip (s : pystr) : strip (strip s) = strip s.
Proof.
  unfold strip. destruct (strip_by_ends is_space s) as [H1 H2].
  apply strip_by_fixed; assumption.
Qed.

Lemma clean_of_str (R : Runtime) (s : pystr) :
  clean_markdown_content R (JStr s) = strip (clean_passes R s).
Proof. destruct s; reflexivity. Qed.

(** On a string with no opening square bracket, no U+27E8 and no [URL]
    in it (so that the four deleting passes find nothing to delete),
    cleaning the cleaned text changes nothing. *)
Theorem clean_idempotent_on_plain (R : Runtime) (s : pystr) :
  mem 91 s = false ->
  mem 10216 s = false ->
  contains (lit "URL") s = false ->
  clean_markdown_content R (JStr (clean_markdown_content R (JStr s)))
  = clean_markdown_content R (JStr s).
Proof.
  intros H1 H2 H3.
  rewrite mem_occurs in H1, H2. rewrite contains_occurs in H3.
  assert (Hs : plain s) by (repeat split; assumption).
  rewrite !clean_of_str.
  rewrite (clean_passes_plain R s Hs).
  assert (Hp : plain (strip (squeeze s))).
  { apply plain_strip. unfold squeeze.
    apply plain_squeeze_dots, plain_squeeze_blanks, plain_tighten_punct,
      plain_squeeze_newlines, Hs. }
  rewrite (clean_passes_plain R _ Hp).
  rewrite (settled_fixed _ (settled_strip _ (squeeze_settled s))).
  apply strip_strip.
Qed.

Lemma clean_idempotent_on_plain_witness :
  mem 91 (lit "Hello  world ,  again ...") = false
  /\ clean_markdown_content basic_latin (JStr (lit "Hello  world ,  again ..."))
     = lit "Hello world, again."
  /\ clean_markdown_content basic_latin (JStr (lit "Hello world, again."))
     = lit "Hello world, again.".
Proof.
  split; [reflexivity|]. split; [reflexivity|].
  exact (clean_idempotent_on_plain basic_latin
           (lit "Hello  world ,  again ...") eq_refl eq_refl eq_refl).
Defined.

(** Whatever the runtime, cleaning [a [](b) c] gives [a  c] with two
    spaces, and cleaning that gives [a c]. *)
Lemma empty_link_leaves_two_blanks (R : Runtime) :
  clean_markdown_content R (JStr (lit "a [](b) c")) = lit "a  c"
  /\ clean_markdown_content R (JStr (lit "a  c")) = lit "a c".
Proof. split; vm_compute; reflexivity. Qed.

(** C2 as stated fails: from [a [](b) c] the empty link is deleted after
    the blanks were squeezed, which leaves [a  c] with two spaces; a
    second cleaning squeezes them. *)
Lemma clean_not_idempotent :
  ~ (forall (R : Runtime) (s : pystr),
       clean_markdown_content R (JStr (clean_markdown_content R (JStr s)))
       = clean_markdown_content R (JStr s)).
Proof.
  intro H. specialize (H basic_latin (lit "a [](b) c")).
  destruct (empty_link_leaves_two_blanks basic_latin) as [H1 H2].
  rewrite H1, H2 in H. vm_compute in H. discriminate H.
Qed.

(** ** What the cleaner guarantees *)

(** ** What the cleaner's output never holds *)

Lemma occurs_char_in (x : char) (s : pystr) :
  occurs [is_char x] s = true <-> In x s.
Proof.
  induction s as [|c s IH]; simpl; [split; [discriminate | tauto]|].
  rewrite andb_true_r, orb_true_iff, IH. unfold is_char. rewrite N.eqb_eq.
  split; intros [H|H]; auto.
Qed.

Lemma char_kept_out_deleting (m : option char -> pystr -> option nat)
      (x : char) (s : pystr) :
  occurs [is_char x] s = false ->
  occurs [is_char x] (re_sub m delete s) = false.
Proof.
  intro H. apply not_true_is_false. intro H'. apply occurs_char_in in H'.
  apply (sub_from_deletes m delete None O s (fun _ => eq_refl)) in H'.
  apply occurs_char_in in H'. congruence.
Qed.

Lemma clean_passes_shape (R : Runtime) (text : pystr) :
  occurs [is_char 9] (clean_passes R text) = false
  /\ occurs [dot; dot] (clean_passes R text) = false.
Proof.
  unfold clean_passes. split.
  - apply (kept_out m_dots (replace_by [46]) [is_char 9]);
      [apply dots_foreign; reflexivity | discriminate |].
    apply char_kept_out_deleting.
    apply (proj2 (blanks_squeezed _)).
  - apply dots_squeezed.
Qed.

(** Whatever the content, the cleaned text has no whitespace at either
    end, no tab, and no two dots in a row. *)
Theorem cleaned_text_shape (R : Runtime) (content : json) :
  strip (clean_markdown_content R content) = clean_markdown_content R content
  /\ mem 9 (clean_markdown_content R content) = false
  /\ contains (lit "..") (clean_markdown_content R content) = false.
Proof.
  unfold clean_markdown_content.
  destruct (negb (truthy content)); [repeat split; reflexivity|].
  destruct (clean_passes_shape R (py_str R content)) as [Ht Hd].
  split; [apply strip_strip|]. split.
  - rewrite mem_occurs. apply occurs_strip. exact Ht.
  - rewrite contains_occurs. apply occurs_strip. exact Hd.
Qed.

(** ** The cleaner never lengthens *)

Lemma sub_from_length (m : option char -> pystr -> option nat)
      (repl : pystr -> pystr) :
  (forall prev t n,
      m prev t = Some (S n) ->
      (length (repl (firstn (S n) t)) <= length (firstn (S n) t))%nat) ->
  forall s prev k,
    (length (sub_from m repl prev k s) + Nat.min k (length s) <= length s)%nat.
Proof.
  intro Hr. induction s as [|c s IH]; intros prev k; simpl; [lia|].
  destruct k as [|k].
  - destruct (m prev (c :: s)) as [[|n]|] eqn:Hm.
    + simpl. specialize (IH (Some c) O). lia.
    + rewrite length_app. specialize (Hr _ _ _ Hm). specialize (IH (Some c) n).
      simpl in Hr. rewrite length_firstn in Hr. lia.
    + simpl. specialize (IH (Some c) O). lia.
  - specialize (IH (Some c) k). lia.
Qed.

Lemma re_sub_length (m : option char -> pystr -> option nat)
      (repl : pystr -> pystr) (s : pystr) :
  (forall prev t n,
      m prev t = Some (S n) ->
      (length (repl (firstn (S n) t)) <= length (firstn (S n) t))%nat) ->
  (length (re_sub m repl s) <= length s)%nat.
Proof.
  intro Hr. pose proof (sub_from_length m repl Hr s None O). unfold re_sub. lia.
Qed.

Lemma span_length (p : char -> bool) (s : pystr) : (span p s <= length s)%nat.
Proof. induction s as [|c s IH]; simpl; [lia|]. destruct (p c); lia. Qed.

Lemma strip_by_length (p : char -> bool) (s : pystr) :
  (length (strip_by p s) <= length s)%nat.
Proof.
  destruct (strip_by_factor p s) as [a [b H]].
  rewrite H at 2. rewrite !length_app. lia.
Qed.

Lemma clean_passes_length (R : Runtime) (text : pystr) :
  (length (clean_passes R text) <= length text)%nat.
Proof.
  unfold clean_passes.
  (* the dots *)
  eapply Nat.le_trans.
  { apply re_sub_length. intros prev t n Hm. unfold replace_by.
    rewrite length_firstn. destruct t as [|c t]; [discriminate Hm|].
    simpl. lia. }
  (* the empty links *)
  eapply Nat.le_trans.
  { apply re_sub_length. intros prev t n Hm. simpl. lia. }
  (* the blanks *)
  eapply Nat.le_trans.
  { apply re_sub_length. intros prev t n Hm. unfold replace_by.
    rewrite length_firstn. destruct t as [|c t]; [discriminate Hm|].
    simpl. lia. }
  (* the spaces before punctuation *)
  eapply Nat.le_trans.
  { apply re_sub_length. intros prev t n Hm. unfold last_char.
    rewrite length_skipn. lia. }
  (* the newlines *)
  eapply Nat.le_trans.
  { apply re_sub_length. intros prev t n Hm. unfold replace_by.
    rewrite length_firstn. unfold m_newlines in Hm.
    destruct (Nat.leb 3 (span (is_char 10) t)) eqn:E; [|discriminate Hm].
    apply Nat.leb_le in E. inversion Hm.
    pose proof (span_length (is_char 10) t). simpl length. lia. }
  (* the images *)
  eapply Nat.le_trans.
  { apply re_sub_length. intros prev t n Hm. unfold image_alt.
    rewrite length_firstn.
    pose proof (span_length (not_char 93) (skipn 2 (firstn (S n) t))) as H.
    rewrite length_skipn in H. lia. }
  (* the word URL and the citation markers *)
  eapply Nat.le_trans.
  { apply re_sub_length. intros prev t n Hm. simpl. lia. }
  apply re_sub_length. intros prev t n Hm. simpl. lia.
Qed.

(** The cleaned text is never longer than the text it was made from:
    every substitution replaces a match by something no longer. *)
Theorem cleaning_never_lengthens (R : Runtime) (s : pystr) :
  (length (clean_markdown_content R (JStr s)) <= length s)%nat.
Proof.
  unfold clean_markdown_content.
  destruct (negb (truthy (JStr s))); [simpl; lia|].
  eapply Nat.le_trans; [apply strip_by_length|]. apply clean_passes_length.
Qed.

(** Text with nothing to clean comes back as it is: no bracket, citation
    mark or [URL], no run of three newlines, no space before a
    punctuation mark, no tab, no two blanks or two dots in a row, and no
    space at either end. *)
Theorem settled_text_is_unchanged (R : Runtime) (s : pystr) :
  plain s -> settled s -> strip s = s ->
  clean_markdown_content R (JStr s) = s.
Proof.
  intros Hp Hs Hstrip.
  rewrite clean_of_str, (clean_passes_plain R s Hp), (settled_fixed s Hs).
  exact Hstrip.
Qed.

Lemma settled_text_is_unchanged_witness :
  clean_markdown_content basic_latin (JStr (lit "Hello world, again."))
  = lit "Hello world, again.".
Proof.
  apply (settled_text_is_unchanged basic_latin (lit "Hello world, again.")).
  - repeat split; reflexivity.
  - repeat split; reflexivity.
  - reflexivity.
Defined.

(** ** The cleaner on its own output, exactly *)

Lemma matches_in_kept (m : option char -> pystr -> option nat)
      (repl : pystr -> pystr) (s : pystr) :
  forall prev, matches_in m prev s = false -> sub_from m repl prev O s = s.
Proof.
  induction s as [|c s IH]; intros prev H; [reflexivity|].
  rewrite sub_from_cons. cbn [matches_in] in H.
  destruct (m prev (c :: s)) as [[|n]|]; try discriminate H;
    rewrite (IH _ H); reflexivity.
Qed.

(** A substitution whose replacements are shorter than what they replace
    shortens the text as soon as the pattern matches. *)
Lemma matches_in_shorter (m : option char -> pystr -> option nat)
      (repl : pystr -> pystr) :
  (forall prev t n,
      m prev t = Some (S n) ->
      (length (repl (firstn (S n) t)) <= length (firstn (S n) t))%nat) ->
  (forall prev c t n,
      m prev (c :: t) = Some (S n) ->
      (length (repl (firstn (S n) (c :: t))) < length (firstn (S n) (c :: t)))%nat) ->
  forall s prev,
    matches_in m prev s = true ->
    (length (sub_from m repl prev O s) < length s)%nat.
Proof.
  intros Hle Hlt. induction s as [|c s IH]; intros prev H; [discriminate H|].
  rewrite sub_from_cons. cbn [matches_in] in H.
  destruct (m prev (c :: s)) as [[|n]|] eqn:Hm.
  - specialize (IH _ H). simpl. lia.
  - specialize (Hlt _ _ _ _ Hm).
    pose proof (sub_from_length m repl Hle s (Some c) n) as Hs.
    rewrite length_app. cbn [firstn length] in Hlt.
    rewrite length_firstn in Hlt. simpl. lia.
  - specialize (IH _ H). simpl. lia.
Qed.

(** Such a substitution that does not shorten the text leaves it as it
    is: the pattern matches nowhere. *)
Lemma same_length_kept (m : option char -> pystr -> option nat)
      (repl : pystr -> pystr) (s : pystr) :
  (forall prev t n,
      m prev t = Some (S n) ->
      (length (repl (firstn (S n) t)) <= length (firstn (S n) t))%nat) ->
  (forall prev c t n,
      m prev (c :: t) = Some (S n) ->
      (length (repl (firstn (S n) (c :: t))) < length (firstn (S n) (c :: t)))%nat) ->
  (length s <= length (re_sub m repl s))%nat ->
  matches_in m None s = false /\ re_sub m repl s = s.
Proof.
  intros Hle Hlt H.
  destruct (matches_in m None s) eqn:E.
  - pose proof (matches_in_shorter m repl Hle Hlt s None E) as Hs.
    unfold re_sub in H. lia.
  - split; [reflexivity|]. apply matches_in_kept. exact E.
Qed.

(** *** The replacements of the eight passes *)

Lemma delete_no_longer (m : option char -> pystr -> option nat) :
  forall prev t n,
    m prev t = Some (S n) ->
    (length (delete (firstn (S n) t)) <= length (firstn (S n) t))%nat.
Proof. intros. simpl. lia. Qed.

Lemma delete_shorter (m : option char -> pystr -> option nat) :
  forall prev c t n,
    m prev (c :: t) = Some (S n) ->
    (length (delete (firstn (S n) (c :: t))) < length (firstn (S n) (c :: t)))%nat.
Proof. intros. simpl. lia. Qed.

Lemma image_no_longer :
  forall prev t n,
    m_image prev t = Some (S n) ->
    (length (image_alt (firstn (S n) t)) <= length (firstn (S n) t))%nat.
Proof.
  intros prev t n Hm. unfold image_alt. rewrite length_firstn.
  pose proof (span_length (not_char 93) (skipn 2 (firstn (S n) t))) as H.
  rewrite length_skipn in H. lia.
Qed.

Lemma image_shorter :
  forall prev c t n,
    m_image prev (c :: t) = Some (S n) ->
    (length (image_alt (firstn (S n) (c :: t)))
     < length (firstn (S n) (c :: t)))%nat.
Proof.
  intros prev c t n Hm. unfold image_alt. rewrite length_firstn.
  pose proof (span_length (not_char 93) (skipn 2 (firstn (S n) (c :: t)))) as H.
  rewrite length_skipn in H. simpl length in *. lia.
Qed.

Lemma newlines_shorter :
  forall prev t n,
    m_newlines prev t = Some (S n) ->
    (length (replace_by [10%N; 10%N] (firstn (S n) t))
     < length (firstn (S n) t))%nat.
Proof.
  intros prev t n Hm. unfold replace_by.
  rewrite length_firstn. unfold m_newlines in Hm.
  destruct (Nat.leb 3 (span (is_char 10) t)) eqn:E; [|discriminate Hm].
  apply Nat.leb_le in E. inversion Hm.
  pose proof (span_length (is_char 10) t). simpl length. lia.
Qed.

Lemma punct_no_longer :
  forall prev t n,
    m_space_punct prev t = Some (S n) ->
    (length (last_char (firstn (S n) t)) <= length (firstn (S n) t))%nat.
Proof. intros prev t n Hm. unfold last_char. rewrite length_skipn. lia. Qed.

Lemma punct_shorter :
  forall prev c t n,
    m_space_punct prev (c :: t) = Some (S n) ->
    (length (last_char (firstn (S n) (c :: t)))
     < length (firstn (S n) (c :: t)))%nat.
Proof.
  intros prev c t n Hm.
  destruct (space_punct_match prev (c :: t) n Hm) as [a [d [Hf [Ha Hd]]]].
  rewrite Hf, last_char_snoc, length_app. simpl.
  destruct a as [|x a]; [|simpl; lia].
  exfalso. unfold m_space_punct in Hm.
  destruct (run_then is_space is_punct (c :: t)) as [[|k]|] eqn:Hr;
    try discriminate Hm.
  inversion Hm as [Hn]. 
  assert (length (firstn (S n) (c :: t)) = 1%nat) by (rewrite Hf; reflexivity).
  destruct (run_then_found _ _ _ _ Hr) as [d' [rest [Ht [Hl _]]]].
  rewrite length_firstn in H. 
  assert (length (c :: t) = (S k + S (length rest))%nat).
  { rewrite Ht at 1. rewrite length_app, Hl. reflexivity. }
  lia.
Qed.

Lemma blanks_no_longer :
  forall prev t n,
    m_blanks prev t = Some (S n) ->
    (length (replace_by [32%N] (firstn (S n) t)) <= length (firstn (S n) t))%nat.
Proof.
  intros prev t n Hm. unfold replace_by.
  rewrite length_firstn. destruct t as [|c t]; [discriminate Hm|].
  simpl. lia.
Qed.

Lemma dots_no_longer :
  forall prev t n,
    m_dots prev t = Some (S n) ->
    (length (replace_by [46%N] (firstn (S n) t)) <= length (firstn (S n) t))%nat.
Proof.
  intros prev t n Hm. unfold replace_by.
  rewrite length_firstn. destruct t as [|c t]; [discriminate Hm|].
  simpl. lia.
Qed.

(** Two blanks in a row: the pass that squeezes the blanks shortens the
    text. *)
Lemma blanks_shorter (s : pystr) :
  forall prev,
    occurs [is_blank; is_blank] s = true ->
    (length (sub_from m_blanks (replace_by [32%N]) prev O s) < length s)%nat.
Proof.
  induction s as [|c s IH]; intros prev H; [discriminate H|].
  rewrite sub_from_cons, m_blanks_cons.
  rewrite occurs_cons_eq, starts_like_cons in H.
  destruct (is_blank c) eqn:Hc.
  - pose proof (sub_from_length m_blanks (replace_by [32]) blanks_no_longer
                  s (Some c) (span is_blank s)) as Hs.
    pose proof (span_length is_blank s) as Hk.
    unfold replace_by at 1. cbn [length app].
    destruct (span is_blank s) as [|k] eqn:Hspan.
    + rewrite (span_positive is_blank s Hspan) in H. simpl in H.
      specialize (IH (Some c) H). lia.
    + lia.
  - simpl in H. specialize (IH (Some c) H). simpl. lia.
Qed.

Lemma lt_no_longer (m : option char -> pystr -> option nat)
      (repl : pystr -> pystr) :
  (forall prev t n,
      m prev t = Some (S n) ->
      (length (repl (firstn (S n) t)) < length (firstn (S n) t))%nat) ->
  forall prev t n,
    m prev t = Some (S n) ->
    (length (repl (firstn (S n) t)) <= length (firstn (S n) t))%nat.
Proof. intros H prev t n Hm. apply Nat.lt_le_incl, (H prev), Hm. Qed.

(** Text that is stripped and holds no tab and no two dots in a row is
    what the cleaner returns for it exactly when the cleaner finds
    nothing to do in it. *)
Lemma clean_fixed_iff (R : Runtime) (o : pystr) :
  strip o = o ->
  occurs [is_char 9] o = false ->
  occurs [dot; dot] o = false ->
  clean_markdown_content R (JStr o) = o <-> nothing_to_clean R o = true.
Proof.
  intros Hstrip Htab Hdots. rewrite clean_of_str. unfold clean_passes.
  cbv zeta. split.
  - intro H.
    remember (re_sub (m_citation R) delete o) as t1 eqn:E1.
    remember (re_sub (m_url_word R) delete t1) as t2 eqn:E2.
    remember (re_sub m_image image_alt t2) as t3 eqn:E3.
    remember (re_sub m_newlines (replace_by [10; 10]) t3) as t4 eqn:E4.
    remember (re_sub m_space_punct last_char t4) as t5 eqn:E5.
    remember (re_sub m_blanks (replace_by [32]) t5) as t6 eqn:E6.
    remember (re_sub m_empty_link delete t6) as t7 eqn:E7.
    remember (re_sub m_dots (replace_by [46]) t7) as t8 eqn:E8.
    assert (L1 : (length t1 <= length o)%nat)
      by (rewrite E1; apply re_sub_length, delete_no_longer).
    assert (L2 : (length t2 <= length t1)%nat)
      by (rewrite E2; apply re_sub_length, delete_no_longer).
    assert (L3 : (length t3 <= length t2)%nat)
      by (rewrite E3; apply re_sub_length, image_no_longer).
    assert (L4 : (length t4 <= length t3)%nat)
      by (rewrite E4; apply re_sub_length, lt_no_longer, newlines_shorter).
    assert (L5 : (length t5 <= length t4)%nat)
      by (rewrite E5; apply re_sub_length, punct_no_longer).
    assert (L6 : (length t6 <= length t5)%nat)
      by (rewrite E6; apply re_sub_length, blanks_no_longer).
    assert (L7 : (length t7 <= length t6)%nat)
      by (rewrite E7; apply re_sub_length, delete_no_longer).
    assert (L8 : (length t8 <= length t7)%nat)
      by (rewrite E8; apply re_sub_length, dots_no_longer).
    assert (Ls : (length (strip t8) <= length t8)%nat)
      by apply strip_by_length.
    rewrite H in Ls.
    (* the citation markers *)
    destruct (same_length_kept (m_citation R) delete o
                (delete_no_longer _) (delete_shorter _)) as [M1 K1];
      [rewrite <- E1; lia|].
    rewrite <- E1 in K1. clear E1. subst t1.
    (* the word URL *)
    destruct (same_length_kept (m_url_word R) delete o
                (delete_no_longer _) (delete_shorter _)) as [M2 K2];
      [rewrite <- E2; lia|].
    rewrite <- E2 in K2. clear E2. subst t2.
    (* the images *)
    destruct (same_length_kept m_image image_alt o
                image_no_longer image_shorter) as [M3 K3];
      [rewrite <- E3; lia|].
    rewrite <- E3 in K3. clear E3. subst t3.
    (* the newlines *)
    destruct (same_length_kept m_newlines (replace_by [10; 10]) o
                (lt_no_longer _ _ newlines_shorter)
                (fun prev c t n => newlines_shorter prev (c :: t) n))
      as [_ K4]; [rewrite <- E4; lia|].
    assert (N4 : occurs [newline; newline; newline] o = false).
    { pose proof (newlines_squeezed o) as N. unfold squeeze_newlines in N.
      rewrite K4 in N. exact N. }
    rewrite <- E4 in K4. clear E4. subst t4.
    (* the spaces before punctuation *)
    destruct (same_length_kept m_space_punct last_char o
                punct_no_longer punct_shorter) as [_ K5];
      [rewrite <- E5; lia|].
    assert (N5 : occurs [is_space; is_punct] o = false).
    { pose proof (punct_tightened o) as N. unfold tighten_punct in N.
      rewrite K5 in N. exact N. }
    rewrite <- E5 in K5. clear E5. subst t5.
    (* the blanks *)
    assert (N6 : occurs [is_blank; is_blank] o = false).
    { destruct (occurs [is_blank; is_blank] o) eqn:B; [|reflexivity].
      pose proof (blanks_shorter o None B) as Hb.
      fold (re_sub m_blanks (replace_by [32]) o) in Hb.
      rewrite <- E6 in Hb. lia. }
    assert (K6 : t6 = o).
    { rewrite E6. apply (single_blanks_kept o N6 Htab). }
    clear E6. subst t6.
    (* the empty links *)
    destruct (same_length_kept m_empty_link delete o
                (delete_no_longer _) (delete_shorter _)) as [M7 K7];
      [rewrite <- E7; lia|].
    unfold nothing_to_clean. rewrite M1, M2, M3, M7, N4, N5, N6. reflexivity.
  - intro H. unfold nothing_to_clean in H.
    repeat (apply andb_true_iff in H; destruct H as [H ?]).
    repeat match goal with
           | X : negb _ = true |- _ => apply negb_true_iff in X
           end.
    unfold re_sub.
    rewrite (matches_in_kept (m_citation R) delete o None) by assumption.
    rewrite (matches_in_kept (m_url_word R) delete o None) by assumption.
    rewrite (matches_in_kept m_image image_alt o None) by assumption.
    rewrite (sub_from_no_match m_newlines _ None o)
      by (apply no_newlines_match; assumption).
    rewrite (sub_from_no_match m_space_punct _ None o)
      by (apply no_space_punct_match; assumption).
    rewrite (single_blanks_kept o) by assumption.
    rewrite (matches_in_kept m_empty_link delete o None) by assumption.
    rewrite (sub_from_no_match m_dots _ None o)
      by (apply no_dots_match; assumption).
    exact Hstrip.
Qed.

(** C2, as amended: cleaning the cleaned text changes nothing exactly
    when the cleaner finds nothing to do in the cleaned text: no citation
    marker, no word [URL], no image, no empty link, no three newlines in a
    row, no whitespace before a punctuation mark, no two blanks in a
    row.  Text that a deletion has brought together can hold any of
    these. *)
Theorem clean_idempotent_iff_nothing_left (R : Runtime) (s : pystr) :
  clean_markdown_content R (JStr (clean_markdown_content R (JStr s)))
  = clean_markdown_content R (JStr s)
  <-> nothing_to_clean R (clean_markdown_content R (JStr s)) = true.
Proof.
  destruct (clean_passes_shape R s) as [Ht Hd].
  apply clean_fixed_iff.
  - rewrite clean_of_str. apply strip_strip.
  - rewrite clean_of_str. apply occurs_strip. exact Ht.
  - rewrite clean_of_str. apply occurs_strip. exact Hd.
Qed.

Lemma clean_idempotent_iff_nothing_left_witness :
  clean_markdown_content basic_latin
    (JStr (lit "See [docs](http://x.y) , URL and ![logo](l.png) .."))
  = lit "See [docs](http://x.y), and logo."
  /\ clean_markdown_content basic_latin
       (JStr (lit "See [docs](http://x.y), and logo."))
     = lit "See [docs](http://x.y), and logo.".
Proof.
  assert (E : clean_markdown_content basic_latin
                (JStr (lit "See [docs](http://x.y) , URL and ![logo](l.png) .."))
              = lit "See [docs](http://x.y), and logo.")
    by (vm_compute; reflexivity).
  split; [exact E|].
  pose proof (proj2 (clean_idempotent_iff_nothing_left basic_latin
                       (lit "See [docs](http://x.y) , URL and ![logo](l.png) .."))) as H.
  rewrite E in H. apply H. vm_compute. reflexivity.
Defined.

(** ** When the validator raises *)

Lemma mem_false (c : char) (s : pystr) : mem c s = false <-> ~ In c s.
Proof.
  unfold mem. split.
  - intros H Hin. apply not_true_iff_false in H. apply H.
    apply existsb_exists. exists c. split; [exact Hin | apply N.eqb_refl].
  - intro H. apply not_true_iff_false. intro E.
    apply existsb_exists in E. destruct E as [x [Hx E]].
    apply N.eqb_eq in E. subst x. exact (H Hx).
Qed.

Lemma mem_incl (c : char) (a b : pystr) :
  incl a b -> mem c b = false -> mem c a = false.
Proof. rewrite !mem_false. intros Hi H Hin. exact (H (Hi _ Hin)). Qed.

Lemma all_ascii_forallb (s : pystr) : all_ascii s -> forallb is_ascii s = true.
Proof. intro H. apply forallb_forall. apply Forall_forall. exact H. Qed.

(** [urlsplit] raises only for a bracket or a non-ASCII character in the
    network location. *)
Lemma urlsplit_returns (R : Runtime) (url : pystr) :
  mem 91 url = false -> mem 93 url = false -> all_ascii url ->
  exists r, urlsplit R url = Ret r.
Proof.
  intros Ho Hc Ha. unfold urlsplit. fold (url_cleaned url).
  pose proof (split_scheme_incl R (url_cleaned url)) as Hi.
  destruct (split_scheme R (url_cleaned url)) as [sch url1]. cbn [snd] in Hi.
  assert (H1 : incl url1 url)
    by (eapply incl_tran; [exact Hi | apply url_cleaned_incl]).
  clear Hi.
  assert (Hn : exists nl rest,
             split_netloc R url1 = Ret (nl, rest) /\ incl nl url).
  { unfold split_netloc. destruct (starts_with (lit "//") url1).
    - set (body := skipn 2 url1).
      set (delim := span (fun c => negb (mem c (lit "/?#"))) body).
      assert (Hnl : incl (firstn delim body) url).
      { eapply incl_tran; [apply incl_firstn|].
        eapply incl_tran; [apply incl_skipn | exact H1]. }
      rewrite (mem_incl 91 _ url Hnl Ho), (mem_incl 93 _ url Hnl Hc).
      simpl. eauto.
    - exists [], url1. split; [reflexivity | apply incl_nil_l]. }
  destruct Hn as [nl [rest [-> Hnl]]]. cbn [bind].
  destruct (partition 35 rest) as [[url2 f1] frag].
  destruct (partition 63 url2) as [[url3 f2] qry].
  unfold checknetloc.
  rewrite (all_ascii_forallb nl (all_ascii_incl nl url Hnl Ha)), orb_true_r.
  cbn [bind]. eauto.
Qed.

Lemma urlparse_returns (R : Runtime) (url : pystr) :
  mem 91 url = false -> mem 93 url = false -> all_ascii url ->
  exists p, urlparse R url = Ret p.
Proof.
  intros Ho Hc Ha. unfold urlparse.
  destruct (urlsplit_returns R url Ho Hc Ha) as [r ->]. cbn [bind].
  destruct (existsb (str_eqb (scheme r)) uses_params && mem 59 (path r));
    [destruct (splitparams (path r))|]; eauto.
Qed.

Lemma stripped_text_incl (R : Runtime) (u : pystr) : incl (stripped_text R u) u.
Proof.
  unfold stripped_text, strip, re_sub.
  eapply incl_tran; [apply incl_strip_by|].
  eapply incl_tran; [apply sub_from_deletes; reflexivity|].
  eapply incl_tran; [apply sub_from_deletes; reflexivity|].
  apply sub_from_deletes; reflexivity.
Qed.

Lemma with_protocol_mem (c : char) (w : pystr) :
  mem c (lit "https://") = false -> mem c w = false ->
  mem c (with_protocol w) = false.
Proof.
  intros Hp Hw. unfold with_protocol. destruct (has_protocol w); [exact Hw|].
  unfold mem in *. rewrite existsb_app. apply orb_false_iff. split; assumption.
Qed.

(** The validator raises only for a square bracket in its argument. *)
Theorem validator_returns_without_brackets (R : Runtime) (url : pystr) :
  mem 91 url = false -> mem 93 url = false ->
  exists r, clean_and_validate_url R url = Ret r.
Proof.
  intros Ho Hc. unfold clean_and_validate_url.
  fold (stripped_text R url). fold (with_protocol (stripped_text R url)).
  destruct (is_empty url); [eauto|].
  destruct (is_empty (stripped_text R url)); [eauto|].
  destruct (starts_with (lit "#") (stripped_text R url)); [eauto|].
  destruct (urlparse_returns R (with_protocol (stripped_text R url)))
    as [p ->].
  - apply with_protocol_mem; [reflexivity|].
    exact (mem_incl 91 _ url (stripped_text_incl R url) Ho).
  - apply with_protocol_mem; [reflexivity|].
    exact (mem_incl 93 _ url (stripped_text_incl R url) Hc).
  - eapply Forall_impl; [apply printable_is_ascii|].
    apply with_protocol_printable, stripped_text_printable.
  - cbn [bind]. destruct (is_empty (netloc p) || is_empty (scheme p)); eauto.
Qed.

Lemma validator_returns_without_brackets_witness :
  mem 91 (lit "example.com/a b") = false
  /\ mem 93 (lit "example.com/a b") = false
  /\ exists r,
      clean_and_validate_url basic_latin (lit "example.com/a b") = Ret r.
Proof.
  split; [reflexivity|]. split; [reflexivity|].
  apply (validator_returns_without_brackets basic_latin
           (lit "example.com/a b"));
    reflexivity.
Defined.

Theorem accepted_url_shape (R : Runtime) (u v : pystr) :
  clean_and_validate_url R u = Ret (Some v) ->
  has_protocol v = true
  /\ Forall (fun c => printable c = true) v
  /\ strip v = v.
Proof.
  intro H. destruct (accepted_inv R u v H) as [Hne [_ [Hv _]]].
  split; [rewrite Hv; apply with_protocol_has|].
  split; [exact (accepted_printable R u v H)|].
  rewrite Hv. apply with_protocol_stripped; [exact Hne| |];
    unfold stripped_text, strip; apply strip_by_ends.
Qed.

Lemma accepted_url_shape_witness :
  has_protocol page = true
  /\ Forall (fun c => printable c = true) page
  /\ strip page = page.
Proof.
  apply (accepted_url_shape basic_latin (lit "  example.com/blog/my-post.html ")
           page).
  reflexivity.
Defined.

Lemma no_brace_no_group (s : pystr) : ~ In 123 s -> no_group s.
Proof.
  induction s as [|c s IH]; simpl; [tauto|]. intro H. split.
  - intros ->. tauto.
  - apply IH. tauto.
Qed.

Lemma no_backslash_no_command (s : pystr) :
  ~ In 92 s -> has_rtf_command s = false.
Proof.
  induction s as [|c s IH]; simpl; [reflexivity|]. intro H.
  rewrite IH by tauto. rewrite orb_false_r.
  destruct (N.eqb_spec c 92) as [E|E]; [tauto | reflexivity].
Qed.

Lemma span_whole (p : char -> bool) (s : pystr) :
  Forall (fun c => p c = true) s -> span p s = length s.
Proof. induction 1 as [|c s Hc Hs IH]; simpl; [|rewrite Hc, IH]; reflexivity. Qed.

Lemma filter_whole (p : char -> bool) (s : pystr) :
  Forall (fun c => p c = true) s -> filter p s = s.
Proof. induction 1 as [|c s Hc Hs IH]; simpl; [|rewrite Hc, IH]; reflexivity. Qed.

Lemma rev_starts_clean (p : char -> bool) (s : pystr) :
  Forall (fun c => p c = false) s -> starts_clean p (rev s).
Proof.
  intro H. assert (Hr : Forall (fun c => p c = false) (rev s)).
  { apply Forall_forall. intros c Hc. apply in_rev in Hc.
    exact (proj1 (Forall_forall _ _) H c Hc). }
  destruct (rev s) as [|c t]; [exact I|]. inversion Hr. assumption.
Qed.

Lemma unbroken_inv (c : char) :
  unbroken c = true ->
  printable c = true /\ is_space c = false
  /\ c <> 92 /\ c <> 123 /\ c <> 93
  /\ negb (mem c (lit "/?#")) = true /\ negb (unsafe_url_byte c) = true.
Proof.
  unfold unbroken, printable, in_range, is_space, in_range, unsafe_url_byte.
  simpl mem. intro H.
  repeat (apply andb_true_iff in H; destruct H as [H ?]).
  repeat match goal with
         | H : negb _ = true |- _ => apply negb_true_iff in H
         | H : (_ || _) = false |- _ => apply orb_false_iff in H; destruct H
         | H : (_ <=? _) = true |- _ => apply N.leb_le in H
         | H : (_ =? _) = false |- _ => apply N.eqb_neq in H
         end.
  repeat split; try congruence.
  - apply andb_true_iff. rewrite !N.leb_le. lia.
  - repeat (apply orb_false_iff; split);
      try (apply N.eqb_neq; lia);
      try (apply andb_false_iff; rewrite !N.leb_gt; lia).
  - apply negb_true_iff.
    repeat (apply orb_false_iff; split); try reflexivity;
      apply N.eqb_neq; congruence.
  - apply negb_true_iff.
    repeat (apply orb_false_iff; split); try reflexivity;
      apply N.eqb_neq; lia.
Qed.

(** A host that opens a square bracket and does not close it: the
    validator raises [ValueError]. *)
Theorem unclosed_bracket_raises (R : Runtime) (x : pystr) :
  forallb unbroken x = true ->
  clean_and_validate_url R (91 :: x) = Raise ValueError.
Proof.
  intro Hx.
  assert (Hall : Forall (fun c => unbroken c = true) (91 :: x)).
  { constructor; [reflexivity|]. apply Forall_forall.
    exact (proj1 (forallb_forall _ _) Hx). }
  set (s := 91 :: x) in *.
  assert (Hin : forall c, In c s -> unbroken c = true)
    by (apply Forall_forall; exact Hall).
  assert (Hpr : Forall (fun c => printable c = true) s).
  { eapply Forall_impl; [|exact Hall]. intros c Hc. apply (unbroken_inv c Hc). }
  assert (Hfix : stripped_text R s = s).
  { unfold stripped_text, re_sub.
    rewrite (sub_from_no_match _ _ _ s).
    2:{ apply no_group_never_matches, no_brace_no_group.
        intro H. apply Hin, unbroken_inv in H. tauto. }
    rewrite (sub_from_no_match _ _ _ s).
    2:{ apply no_rtf_command_never_matches, no_backslash_no_command.
        intro H. apply Hin, unbroken_inv in H. tauto. }
    rewrite (sub_from_no_match _ _ _ s (printable_never_matches s Hpr)).
    apply strip_by_fixed; [reflexivity|].
    apply rev_starts_clean. eapply Forall_impl; [|exact Hall].
    intros c Hc. apply (unbroken_inv c Hc). }
  unfold clean_and_validate_url. fold (stripped_text R s). rewrite Hfix.
  change (is_empty s) with false. change (starts_with (lit "#") s) with false.
  change (has_protocol s) with false. cbv iota.
  unfold urlparse, urlsplit. fold (url_cleaned (lit "https://" ++ s)).
  rewrite split_scheme_https.
  rewrite (filter_whole _ s).
  2:{ eapply Forall_impl; [|exact Hall]. intros c Hc. apply (unbroken_inv c Hc). }
  unfold split_netloc.
  change (starts_with (lit "//") (lit "//" ++ s)) with true.
  change (skipn 2 (lit "//" ++ s)) with s. cbv iota zeta.
  rewrite (span_whole _ s).
  2:{ eapply Forall_impl; [|exact Hall]. intros c Hc. apply (unbroken_inv c Hc). }
  rewrite firstn_all.
  change (mem 91 s) with true.
  replace (mem 93 s) with false; [reflexivity|].
  symmetry. apply not_true_iff_false. intro E.
  apply existsb_exists in E. destruct E as [c [Hc E]].
  apply N.eqb_eq in E. subst c. apply Hin, unbroken_inv in Hc. tauto.
Qed.

Lemma unclosed_bracket_raises_witness :
  clean_and_validate_url basic_latin (lit "[::1") = Raise ValueError.
Proof. apply (unclosed_bracket_raises basic_latin (lit "::1")). reflexivity. Defined.

(** ** The file name and the query string *)

Lemma span_stops (p : char -> bool) (a b : pystr) (c : char) :
  p c = false -> span p (a ++ c :: b) = span p (a ++ [c]).
Proof.
  intro Hc. induction a as [|x a IH]; simpl.
  - rewrite Hc. reflexivity.
  - destruct (p x); [rewrite IH|]; reflexivity.
Qed.

Lemma span_stops_le (p : char -> bool) (a : pystr) (c : char) :
  p c = false -> (span p (a ++ [c]) <= length a)%nat.
Proof.
  intro Hc. induction a as [|x a IH]; simpl.
  - rewrite Hc. lia.
  - destruct (p x); lia.
Qed.

Lemma span_before (p : char -> bool) (a b : pystr) :
  (span p (a ++ b) <= length a)%nat -> span p (a ++ b) = span p a.
Proof.
  induction a as [|x a IH]; simpl.
  - lia.
  - destruct (p x); [|reflexivity]. intro H. rewrite IH by lia. reflexivity.
Qed.

Lemma partition_absent (sep : char) (s : pystr) :
  mem sep s = false -> partition sep s = (s, false, []).
Proof.
  intro H. unfold partition.
  rewrite (span_whole _ s).
  - rewrite skipn_all. reflexivity.
  - apply Forall_forall. intros c Hc. apply negb_true_iff, N.eqb_neq.
    intros ->. apply mem_false in H. exact (H Hc).
Qed.

Lemma partition_head (sep : char) (a b : pystr) :
  mem sep a = false ->
  fst (fst (partition sep (a ++ b))) = a ++ fst (fst (partition sep b)).
Proof.
  intro H. unfold partition.
  set (other := fun c : char => negb (c =? sep)).
  assert (Ha : Forall (fun c => other c = true) a).
  { apply Forall_forall. intros c Hc. apply negb_true_iff, N.eqb_neq.
    intros ->. apply mem_false in H. exact (H Hc). }
  assert (Hs : span other (a ++ b) = (length a + span other b)%nat).
  { clear H. induction Ha as [|c a Hc Ha IH]; simpl; [reflexivity|].
    rewrite Hc, IH. reflexivity. }
  rewrite Hs. rewrite skipn_app.
  rewrite (skipn_all2 a) by lia.
  replace (length a + span other b - length a)%nat with (span other b) by lia.
  cbn [app].
  destruct (skipn (span other b) b) as [|d after];
    cbn [fst]; [reflexivity|].
  rewrite firstn_app, (firstn_all2 a) by lia.
  replace (length a + span other b - length a)%nat with (span other b) by lia.
  reflexivity.
Qed.

Lemma partition_at (sep : char) (a b : pystr) :
  mem sep a = false -> fst (fst (partition sep (a ++ sep :: b))) = a.
Proof.
  intro H. rewrite (partition_head sep a (sep :: b) H).
  unfold partition. simpl. rewrite N.eqb_refl. simpl. apply app_nil_r.
Qed.

Section FilenameFacts.

Variable R : Runtime.

(** The parse of [pre ++ x ++ "?" ++ q] and that of [pre ++ x], for a
    printable [x] without [?] and [#]. *)
Lemma urlparse_with_query (pre x q : pystr) (p : ParseResult) :
  pre = lit "http://" \/ pre = lit "https://" ->
  Forall (fun c => printable c = true) x ->
  mem 63 x = false -> mem 35 x = false ->
  urlparse R (pre ++ x) = Ret p ->
  exists p',
    urlparse R (pre ++ x ++ 63 :: q) = Ret p'
    /\ netloc p' = netloc p /\ path p' = path p.
Proof.
  intros Hpre Hx Hq Hh.
  assert (Hfx : filter (fun c => negb (unsafe_url_byte c)) x = x).
  { apply filter_whole. eapply Forall_impl; [|exact Hx].
    intros c Hc. unfold printable, in_range in Hc.
    apply andb_true_iff in Hc. destruct Hc as [Hc _]. apply N.leb_le in Hc.
    unfold unsafe_url_byte. simpl.
    apply negb_true_iff.
    repeat (apply orb_false_iff; split); try reflexivity;
      apply N.eqb_neq; lia. }
  set (q' := filter (fun c => negb (unsafe_url_byte c)) q).
  assert (Hfy : filter (fun c => negb (unsafe_url_byte c)) (x ++ 63 :: q)
                = x ++ 63 :: q').
  { rewrite filter_app, Hfx. reflexivity. }
  assert (Hsch : exists sch,
             split_scheme R (url_cleaned (pre ++ x)) = (sch, lit "//" ++ x)
             /\ split_scheme R (url_cleaned (pre ++ x ++ 63 :: q))
                = (sch, lit "//" ++ x ++ 63 :: q')).
  { destruct Hpre as [-> | ->].
    - exists (lit "http"). rewrite !split_scheme_http, Hfx, Hfy. auto.
    - exists (lit "https"). rewrite !split_scheme_https, Hfx, Hfy. auto. }
  destruct Hsch as [sch [Hs1 Hs2]].
  set (nd := fun c : char => negb (mem c (lit "/?#"))).
  assert (Hd : span nd (x ++ 63 :: q') = span nd x
               /\ (span nd x <= length x)%nat).
  { assert (H63 : nd 63 = false) by reflexivity.
    pose proof (span_stops_le nd x 63 H63) as Hle.
    split.
    - etransitivity; [exact (span_stops nd x q' 63 H63)|].
      exact (span_before nd x [63] Hle).
    - rewrite <- (span_before nd x [63] Hle). exact Hle. }
  destruct Hd as [Hd Hle].
  unfold urlparse, urlsplit. fold (url_cleaned (pre ++ x)).
  fold (url_cleaned (pre ++ x ++ 63 :: q)). rewrite Hs1, Hs2.
  unfold split_netloc.
  change (starts_with (lit "//") (lit "//" ++ x)) with true.
  change (starts_with (lit "//") (lit "//" ++ x ++ 63 :: q')) with true.
  change (skipn 2 (lit "//" ++ x)) with x.
  change (skipn 2 (lit "//" ++ x ++ 63 :: q')) with (x ++ 63 :: q').
  cbv iota zeta. fold nd. rewrite Hd.
  rewrite (firstn_app (span nd x) x).
  replace (span nd x - length x)%nat with O by lia.
  rewrite firstn_O, app_nil_r.
  rewrite (skipn_app (span nd x) x).
  replace (span nd x - length x)%nat with O by lia.
  cbn [skipn].
  set (nl := firstn (span nd x) x). set (rest := skipn (span nd x) x).
  assert (Hr63 : mem 63 rest = false)
    by (apply (mem_incl 63 rest x); [apply incl_skipn | exact Hq]).
  assert (Hr35 : mem 35 rest = false)
    by (apply (mem_incl 35 rest x); [apply incl_skipn | exact Hh]).
  destruct ((mem 91 nl && negb (mem 93 nl)) || (mem 93 nl && negb (mem 91 nl)));
    [discriminate|].
  destruct (mem 91 nl && mem 93 nl && negb (bracketed_netloc_ok R nl));
    [discriminate|].
  cbn [bind].
  rewrite (partition_absent 35 rest Hr35).
  rewrite (partition_absent 63 rest Hr63).
  assert (H2 : exists q1, fst (fst (partition 35 (63 :: q'))) = 63 :: q1).
  { unfold partition. simpl.
    destruct (skipn (span (fun c => negb (c =? 35)) q') q'); simpl; eauto. }
  destruct H2 as [q1 H2].
  destruct (partition 35 (rest ++ 63 :: q')) as [[url2 f1] frag] eqn:E1.
  apply (f_equal (fun t => fst (fst t))) in E1. cbn [fst] in E1.
  rewrite (partition_head 35 rest (63 :: q') Hr35), H2 in E1. subst url2.
  destruct (partition 63 (rest ++ 63 :: q1)) as [[url3 f2] qry] eqn:E2.
  apply (f_equal (fun t => fst (fst t))) in E2. cbn [fst] in E2.
  assert (E3 : url3 = rest)
    by exact (eq_trans (eq_sym E2) (partition_at 63 rest q1 Hr63)).
  clear E2. subst url3.
  destruct (checknetloc R nl); [|discriminate]. cbn [bind scheme path].
  destruct (existsb (str_eqb sch) uses_params && mem 59 rest).
  - destruct (splitparams rest) as [u prm]. intro H. inversion H; subst.
    eexists. split; [reflexivity|]. split; reflexivity.
  - intro H. inversion H; subst.
    eexists. split; [reflexivity|]. split; reflexivity.
Qed.

Lemma filename_by_parse (a b : pystr) (p p' : ParseResult) :
  urlparse R a = Ret p -> urlparse R b = Ret p' ->
  netloc p' = netloc p -> path p' = path p ->
  get_filename_from_url R b = get_filename_from_url R a.
Proof.
  intros Ha Hb Hn Hp. unfold get_filename_from_url. rewrite Ha, Hb.
  cbn [bind]. unfold hostname. rewrite Hn, Hp. reflexivity.
Qed.

(** The file name is taken from the host and the last segment of the
    path alone: a query string added to an accepted URL does not change
    it, so pages that differ in their query are saved over one another. *)
Theorem filename_ignores_query (u v q : pystr) :
  clean_and_validate_url R u = Ret (Some v) ->
  mem 63 v = false -> mem 35 v = false ->
  get_filename_from_url R (v ++ 63 :: q) = get_filename_from_url R v.
Proof.
  intros H Hq Hh.
  pose proof (accepted_printable R u v H) as Hpr.
  destruct (accepted_inv R u v H) as [_ [_ [Hv [p [Hp _]]]]].
  assert (Hhas : has_protocol v = true) by (rewrite Hv; apply with_protocol_has).
  assert (Hsplit : exists pre x,
             v = pre ++ x /\ (pre = lit "http://" \/ pre = lit "https://")).
  { unfold has_protocol in Hhas. apply orb_true_iff in Hhas.
    destruct Hhas as [Hs|Hs]; apply starts_with_app in Hs;
      destruct Hs as [x ->]; eauto. }
  destruct Hsplit as [pre [x [-> Hpre]]].
  assert (Hx : Forall (fun c => printable c = true) x)
    by (apply Forall_app in Hpr; tauto).
  assert (Hxq : mem 63 x = false)
    by (apply (mem_incl 63 x (pre ++ x)); [apply incl_appr, incl_refl | exact Hq]).
  assert (Hxh : mem 35 x = false)
    by (apply (mem_incl 35 x (pre ++ x)); [apply incl_appr, incl_refl | exact Hh]).
  destruct (urlparse_with_query pre x q p Hpre Hx Hxq Hxh Hp)
    as [p' [Hp' [Hn Hpath]]].
  rewrite <- app_assoc.
  exact (filename_by_parse _ _ p p' Hp Hp' Hn Hpath).
Qed.

End FilenameFacts.

Lemma filename_ignores_query_witness :
  get_filename_from_url basic_latin (page ++ lit "?page=2")
  = Ret (lit "examplecom-my-post.md")
  /\ get_filename_from_url basic_latin (page ++ 63 :: lit "page=2")
     = get_filename_from_url basic_latin page.
Proof.
  split; [reflexivity|].
  apply (filename_ignores_query basic_latin
           (lit "example.com/blog/my-post.html") page (lit "page=2"));
    reflexivity.
Defined.

(** ** The extractor on the shapes of a body *)

(** When [results] is an array that begins with an object, the fields
    are read from that object: the other fields of the body and the other
    elements of the array play no part. *)
Theorem extract_reads_first_result (R : Runtime)
        (fields inner : list (pystr * json)) (others : list json) :
  lookup (lit "results") fields = Some (JArr (JObj inner :: others)) ->
  lookup (lit "results") inner = None ->
  extract_clean_content R (JObj fields) = extract_clean_content R (JObj inner).
Proof.
  intros Hf Hi. unfold extract_clean_content, actual_result.
  rewrite Hf, Hi. reflexivity.
Qed.

Lemma extract_reads_first_result_witness :
  extract_clean_content basic_latin
    (object [("markdown"%string, JStr (lit "outer"));
             ("results"%string,
              JArr [object [("markdown"%string, JStr (lit "inner"))];
                    object [("markdown"%string, JStr (lit "second"))]])])
  = extract_clean_content basic_latin
      (object [("markdown"%string, JStr (lit "inner"))]).
Proof.
  exact (extract_reads_first_result basic_latin
           [(lit "markdown", JStr (lit "outer"));
            (lit "results",
             JArr [JObj [(lit "markdown", JStr (lit "inner"))];
                   object [("markdown"%string, JStr (lit "second"))]])]
           [(lit "markdown", JStr (lit "inner"))]
           [object [("markdown"%string, JStr (lit "second"))]]
           eq_refl eq_refl).
Defined.

Lemma starts_with_prefix (a b s : pystr) :
  starts_with (a ++ b) s = true -> starts_with a s = true.
Proof.
  revert s. induction a as [|x a IH]; intros s; simpl; [reflexivity|].
  destruct s as [|c s]; [discriminate|].
  rewrite !andb_true_iff. intros [E H]. split; [exact E | exact (IH s H)].
Qed.

Lemma contains_prefix (a b s : pystr) :
  contains (a ++ b) s = true -> contains a s = true.
Proof.
  induction s as [|c s IH]; simpl.
  - rewrite !orb_false_r. apply starts_with_prefix.
  - rewrite !orb_true_iff. intros [H|H];
      [left; exact (starts_with_prefix a b _ H) | right; exact (IH H)].
Qed.

(** A body that is a string or an array is searched with [in], not read
    as an object: the extractor returns [None] when the search for
    [markdown] and [markdown_v2] finds nothing, and raises [TypeError] at
    the subscript when it finds something. *)
Theorem extract_of_text_or_array (R : Runtime) (s : pystr) (items : list json) :
  extract_clean_content R (JStr s)
  = (if contains (lit "markdown") s then Raise TypeError else Ret None)
  /\ extract_clean_content R (JArr items)
     = (if existsb (fun x => match x with
                             | JStr k => str_eqb k (lit "markdown")
                                         || str_eqb k (lit "markdown_v2")
                             | _ => false
                             end) items
        then Raise TypeError else Ret None).
Proof.
  split.
  - unfold extract_clean_content, actual_result, truthy_field, py_in.
    cbn [bind].
    destruct (contains (lit "markdown") s) eqn:E; [reflexivity|]. cbn [bind].
    destruct (contains (lit "markdown_v2") s) eqn:E2; [|reflexivity].
    apply (contains_prefix (lit "markdown") (lit "_v2")) in E2. congruence.
  - unfold extract_clean_content, actual_result, truthy_field, py_in.
    cbn [bind].
    induction items as [|x items IH]; [reflexivity|].
    cbn [existsb].
    destruct x as [| | |k| |]; cbn [orb]; try exact IH.
    destruct (str_eqb k (lit "markdown")) eqn:E1; [reflexivity|].
    cbn [orb bind].
    destruct (str_eqb k (lit "markdown_v2")) eqn:E2; cbn [orb].
    + destruct (existsb _ items); reflexivity.
    + exact IH.
Qed.

(** In an object without [results], a truthy [markdown] is the content
    whatever [markdown_v2] holds; when [markdown] is absent or falsy (an
    empty string, [null], zero) the content is the [raw_markdown] of a
    non-empty [markdown_v2] object. *)
Theorem extract_field_order (R : Runtime) (fields : list (pystr * json)) :
  lookup (lit "results") fields = None ->
  (forall content,
      lookup (lit "markdown") fields = Some content ->
      truthy content = true ->
      extract_clean_content R (JObj fields)
      = Ret (Some (clean_markdown_content R content)))
  /\ (forall v2 raw,
         match lookup (lit "markdown") fields with
         | Some content => truthy content = false
         | None => True
         end ->
         lookup (lit "markdown_v2") fields = Some (JObj v2) ->
         lookup (lit "raw_markdown") v2 = Some raw ->
         extract_clean_content R (JObj fields)
         = Ret (Some (clean_markdown_content R raw))).
Proof.
  intro Hr. split.
  - intros content Hm Ht.
    unfold extract_clean_content, actual_result, truthy_field, py_in, py_getitem.
    rewrite Hr. cbn [bind]. rewrite Hm. cbn [bind]. rewrite Ht. reflexivity.
  - intros v2 raw Hm H2 Hraw.
    assert (Hv2 : truthy (JObj v2) = true)
      by (destruct v2; [discriminate Hraw | reflexivity]).
    unfold extract_clean_content, actual_result, truthy_field, py_in, py_getitem.
    rewrite Hr. cbn [bind].
    destruct (lookup (lit "markdown") fields) as [content|]; cbn [bind].
    + rewrite Hm. cbn [bind]. rewrite H2. cbn [bind]. rewrite Hv2, Hraw.
      reflexivity.
    + rewrite H2. cbn [bind]. rewrite Hv2, Hraw. reflexivity.
Qed.

Lemma extract_field_order_witness :
  extract_clean_content basic_latin
    (object [("markdown"%string, JStr (lit "one"));
             ("markdown_v2"%string,
              object [("raw_markdown"%string, JStr (lit "two"))])])
  = Ret (Some (lit "one"))
  /\ extract_clean_content basic_latin
       (object [("markdown"%string, JStr []);
                ("markdown_v2"%string,
                 object [("raw_markdown"%string, JStr (lit "two"))])])
     = Ret (Some (lit "two")).
Proof.
  split.
  - exact (proj1 (extract_field_order basic_latin
                    [(lit "markdown", JStr (lit "one"));
                     (lit "markdown_v2",
                      JObj [(lit "raw_markdown", JStr (lit "two"))])] eq_refl)
             (JStr (lit "one")) eq_refl eq_refl).
  - exact (proj2 (extract_field_order basic_latin
                    [(lit "markdown", JStr []);
                     (lit "markdown_v2",
                      JObj [(lit "raw_markdown", JStr (lit "two"))])] eq_refl)
             [(lit "raw_markdown", JStr (lit "two"))] (JStr (lit "two"))
             eq_refl eq_refl eq_refl).
Defined.

(** ** Invariants of the polling loop *)

Section PollerInvariant.

Variable R : Runtime.
Variable env : Env.
Variable headers : list (pystr * pystr).
Variable target_url : pystr.

Local Notation "'try_ep'" := (try_endpoint R env headers target_url).
Local Notation "'round'" := (for_endpoints R env headers target_url).
Local Notation "'rounds'" := (for_attempts R env headers target_url).

Lemma failed_saves_none (k : nat) :
  k = O -> failed_saves R target_url k = [].
Proof.
  intros ->. unfold failed_saves.
  destruct (get_filename_from_url R target_url); reflexivity.
Qed.

Lemma failed_saves_app (j k : nat) :
  failed_saves R target_url j ++ failed_saves R target_url k
  = failed_saves R target_url (j + k).
Proof.
  unfold failed_saves.
  destruct (get_filename_from_url R target_url); [|reflexivity].
  symmetry. apply repeat_app.
Qed.

Lemma unsaved_none (events : list event) :
  filter is_write events = [] -> unsaved_file R target_url events.
Proof. intro H. exists O. rewrite H, failed_saves_none; reflexivity. Qed.

Lemma unsaved_app (a b : list event) :
  unsaved_file R target_url a -> unsaved_file R target_url b ->
  unsaved_file R target_url (a ++ b).
Proof.
  intros [j Ha] [k Hb]. exists (j + k)%nat.
  rewrite filter_app, Ha, Hb. apply failed_saves_app.
Qed.

Lemma saved_file_after (a b : list event) :
  unsaved_file R target_url a ->
  saved_file R env target_url b -> saved_file R env target_url (a ++ b).
Proof.
  intros [j Ha] [name [doc [k [Hb H]]]]. exists name, doc, (j + k)%nat.
  rewrite filter_app, Ha, Hb, app_assoc, failed_saves_app. auto.
Qed.

(** The three ways a save ends: the document is written; the file is
    opened and the writing raises; nothing is opened. *)
Lemma save_markdown_cases (content : pystr) (w : world) :
  let doc := {| doc_url := target_url;
                doc_timestamp := strftime env (length (log w));
                doc_length := length content;
                doc_content := content |} in
  (exists name,
      get_filename_from_url R target_url = Ret name
      /\ writable env name = true
      /\ write_raises env name doc = None
      /\ save_markdown R env content target_url w
         = (Ret tt,
            {| requests := requests w;
               log := log w
                      ++ [WriteFile name doc;
                          Print (MsgSaved name);
                          Print (MsgLength (length content))] |}))
  \/ (exists name e,
         get_filename_from_url R target_url = Ret name
         /\ writable env name = true
         /\ write_raises env name doc = Some e
         /\ save_markdown R env content target_url w
            = (Raise e, emit (Truncate name) w))
  \/ exists e, save_markdown R env content target_url w = (Raise e, w).
Proof.
  intro doc. unfold save_markdown, bindM, lift.
  destruct (get_filename_from_url R target_url) as [name|e];
    [|right; right; eauto].
  destruct (writable env name) eqn:Hw; [|right; right; eauto].
  fold doc. destruct (write_raises env name doc) as [e|] eqn:He.
  - right. left. exists name, e. auto.
  - left. exists name. split; [reflexivity|]. split; [exact Hw|].
    split; [exact He|].
    unfold print, emit. simpl. rewrite <- !app_assoc. reflexivity.
Qed.

(** What one pass through the [try] block leaves behind. *)
Lemma poll_endpoint_step (endpoint : pystr) (w w' : world) (o : outcome flow) :
  poll_endpoint R env headers target_url endpoint w = (o, w') ->
  exists events,
    extends 1 events w w'
    /\ filter is_sleep events = []
    /\ match o with
       | Ret (Return true) => saved_file R env target_url events
       | _ => unsaved_file R target_url events
       end.
Proof.
  intro E. unfold poll_endpoint, extends in *.
  unfold bindM at 1, lift at 1 in E.
  destruct (urljoin R CRAWL4AI_BASE_URL endpoint) as [url|e].
  2:{ inversion E; subst. exists []. rewrite app_nil_r.
      repeat split; auto; [lia | apply unsaved_none; reflexivity]. }
  unfold bindM at 1, requests_get in E.
  destruct (server env (requests w) url) as [response|].
  2:{ inversion E; subst. exists [Get url]. simpl.
      repeat split; auto; [lia | apply unsaved_none; reflexivity]. }
  fold (asked url w) in E.
  destruct (status_code response =? 200).
  2:{ inversion E; subst. exists [Get url]. simpl.
      repeat split; auto; [lia | apply unsaved_none; reflexivity]. }
  unfold bindM at 1, lift at 1 in E.
  destruct (response_json response) as [result|e].
  2:{ inversion E; subst. exists [Get url]. simpl.
      repeat split; auto; [lia | apply unsaved_none; reflexivity]. }
  unfold bindM at 1, lift at 1 in E.
  destruct (py_get result (lit "status") (JStr [])) as [status_field|e].
  2:{ inversion E; subst. exists [Get url]. simpl.
      repeat split; auto; [lia | apply unsaved_none; reflexivity]. }
  cbv zeta in E.
  destruct (one_of completed_words (str_lower R (py_str R status_field))).
  - unfold bindM at 1, print at 1 in E.
    unfold bindM at 1, lift at 1 in E.
    destruct (py_get result (lit "result") result) as [final_result|e].
    2:{ inversion E; subst. exists [Get url; Print MsgCompleted]. simpl.
        rewrite <- app_assoc.
        repeat split; auto; [lia | apply unsaved_none; reflexivity]. }
    unfold bindM at 1, lift at 1 in E.
    destruct (extract_clean_content R final_result) as [[[|c text]|]|e].
    + inversion E; subst.
      exists [Get url; Print MsgCompleted; Print MsgNoContent]. simpl.
      rewrite <- !app_assoc.
      repeat split; auto; [lia | apply unsaved_none; reflexivity].
    + unfold bindM at 1 in E.
      pose proof (save_markdown_cases (c :: text)
                    (emit (Print MsgCompleted) (asked url w))) as Hcases.
      cbv zeta in Hcases.
      set (doc := Build_document _ _ _ _) in Hcases.
      destruct Hcases
        as [[name [Hn [Hw [Hr Hs]]]]
           | [[name [e [Hn [Hw [Hr Hs]]]]] | [e Hs]]]; rewrite Hs in E;
        inversion E; subst.
      * exists ([Get url; Print MsgCompleted]
                  ++ [WriteFile name doc; Print (MsgSaved name);
                      Print (MsgLength (length (c :: text)))]).
        simpl. rewrite <- !app_assoc. repeat split; auto; [lia|].
        exists name, doc, O.
        rewrite failed_saves_none by reflexivity.
        split; [reflexivity|]. split; [exact Hn|]. split; [exact Hw|].
        split; [exact Hr|]. split; [reflexivity | discriminate].
      * exists [Get url; Print MsgCompleted; Truncate name]. simpl.
        rewrite <- !app_assoc. repeat split; auto; [lia|].
        exists 1%nat. unfold failed_saves. rewrite Hn. reflexivity.
      * exists [Get url; Print MsgCompleted]. simpl.
        rewrite <- app_assoc.
        repeat split; auto; [lia | apply unsaved_none; reflexivity].
    + inversion E; subst.
      exists [Get url; Print MsgCompleted; Print MsgNoContent]. simpl.
      rewrite <- !app_assoc.
      repeat split; auto; [lia | apply unsaved_none; reflexivity].
    + inversion E; subst. exists [Get url; Print MsgCompleted]. simpl.
      rewrite <- app_assoc.
      repeat split; auto; [lia | apply unsaved_none; reflexivity].
  - destruct (one_of failed_words (str_lower R (py_str R status_field))).
    { inversion E; subst. eexists [Get url; _]. simpl. rewrite <- app_assoc.
      repeat split; auto; [lia | apply unsaved_none; reflexivity]. }
    destruct (one_of pending_words (str_lower R (py_str R status_field))).
    { inversion E; subst. eexists [Get url; _]. simpl. rewrite <- app_assoc.
      repeat split; auto; [lia | apply unsaved_none; reflexivity]. }
    inversion E; subst. exists [Get url]. simpl.
    repeat split; auto; [lia | apply unsaved_none; reflexivity].
Qed.

Lemma try_endpoint_step (endpoint : pystr) (w : world) :
  exists events,
    extends 1 events w (snd (try_ep endpoint w))
    /\ filter is_sleep events = []
    /\ match fst (try_ep endpoint w) with
       | Return true => saved_file R env target_url events
       | _ => unsaved_file R target_url events
       end.
Proof.
  unfold try_endpoint.
  destruct (poll_endpoint R env headers target_url endpoint w) as [o w'] eqn:E.
  destruct (poll_endpoint_step endpoint w w' o E) as [events [He [Hs Hw]]].
  exists events. destruct o as [f|e]; simpl in *; auto.
Qed.

Lemma extends_trans (j k : nat) (a b : list event) (w w' w'' : world) :
  extends j a w w' -> extends k b w' w'' -> extends (j + k) (a ++ b) w w''.
Proof.
  unfold extends. intros [Hl Hr] [Hl' Hr']. rewrite Hl', Hl, app_assoc.
  split; [reflexivity | lia].
Qed.

Lemma for_endpoints_step (eps : list pystr) (w : world) :
  exists events,
    extends (length eps) events w (snd (round eps w))
    /\ filter is_sleep events = []
    /\ match fst (round eps w) with
       | Some true => saved_file R env target_url events
       | _ => unsaved_file R target_url events
       end.
Proof.
  revert w. induction eps as [|endpoint eps IH]; intro w.
  - exists []. unfold extends. simpl. rewrite app_nil_r.
    repeat split; auto; [lia | apply unsaved_none; reflexivity].
  - destruct (try_endpoint_step endpoint w) as [a [Ha [Hs Hw]]].
    cbn [for_endpoints length].
    destruct (try_ep endpoint w) as [[b| |] w']; cbn [fst snd] in *.
    + exists a. split; [|split; [exact Hs|]].
      * destruct Ha as [Hl Hr]. split; [exact Hl | lia].
      * destruct b; exact Hw.
    + exists a. split; [|split; [exact Hs | exact Hw]].
      destruct Ha as [Hl Hr]. split; [exact Hl | lia].
    + destruct (IH w') as [b [Hb [Hs' Hw']]].
      exists (a ++ b). split; [|split].
      * exact (extends_trans 1 (length eps) a b w w' _ Ha Hb).
      * rewrite filter_app, Hs, Hs'. reflexivity.
      * destruct (fst (round eps w')) as [[|]|].
        -- apply saved_file_after; assumption.
        -- apply unsaved_app; assumption.
        -- apply unsaved_app; assumption.
Qed.

Lemma for_attempts_step (n : nat) (eps : list pystr) (w : world) :
  exists events k,
    extends (n * length eps) events w (snd (rounds n eps w))
    /\ filter is_sleep events = repeat (Sleep 5) k /\ (k <= n)%nat
    /\ if fst (rounds n eps w) then saved_file R env target_url events
       else unsaved_file R target_url events.
Proof.
  revert w. induction n as [|n IH]; intro w.
  - exists [Print MsgTimeout], O. unfold extends. simpl.
    repeat split; auto; [lia | apply unsaved_none; reflexivity].
  - destruct (for_endpoints_step eps w) as [a [Ha [Hs Hw]]].
    cbn [for_attempts].
    destruct (round eps w) as [[b|] w']; cbn [fst snd] in *.
    + exists a, O. split; [|split; [exact Hs|split; [lia|]]].
      * destruct Ha as [Hl Hr]. split; [exact Hl | lia].
      * destruct b; exact Hw.
    + destruct (IH (emit (Sleep 5) w')) as [b [k [Hb [Hs' [Hk Hw']]]]].
      exists (a ++ Sleep 5 :: b), (S k). split; [|split; [|split]].
      * destruct Ha as [Hl Hr]. destruct Hb as [Hl' Hr'].
        split.
        -- rewrite Hl'. simpl. rewrite Hl, <- !app_assoc. reflexivity.
        -- simpl in Hr'. lia.
      * rewrite filter_app, Hs. simpl. rewrite Hs'. reflexivity.
      * lia.
      * destruct (fst (rounds n eps (emit (Sleep 5) w'))).
        -- apply saved_file_after; [exact Hw|].
           destruct Hw' as [name [doc [j [Hf H]]]]. exists name, doc, j.
           simpl. auto.
        -- apply unsaved_app; [exact Hw|].
           destruct Hw' as [j Hf]. exists j. exact Hf.
Qed.

(** The poll returns [True] exactly when it has written the document:
    the content for [target_url], under the name derived from it, as its
    last file operation.  A save that fails once the file is open leaves
    that file created or emptied, and the poll goes on: before the
    document, and in a poll that returns [False], the only file events are
    such failed saves, to the file named after [target_url]. *)
Theorem poll_true_iff_saved (task_id : json) (w : world) :
  exists events,
    log (snd (wait_for_completion R env headers target_url task_id w))
    = log w ++ events
    /\ if fst (wait_for_completion R env headers target_url task_id w)
       then saved_file R env target_url events
       else unsaved_file R target_url events.
Proof.
  unfold wait_for_completion.
  destruct (for_attempts_step 24 (endpoints R task_id) w)
    as [events [k [[Hl _] [_ [_ Hw]]]]].
  exists events. split; [exact Hl | exact Hw].
Qed.

(** Whatever the server answers, the poll makes 72 requests at most and
    sleeps 24 times at most, 5 seconds each. *)
Theorem poll_is_bounded (task_id : json) (w : world) :
  exists events k,
    log (snd (wait_for_completion R env headers target_url task_id w))
    = log w ++ events
    /\ (requests (snd (wait_for_completion R env headers target_url task_id w))
        <= requests w + 72)%nat
    /\ filter is_sleep events = repeat (Sleep 5) k
    /\ (k <= 24)%nat.
Proof.
  unfold wait_for_completion.
  destruct (for_attempts_step 24 (endpoints R task_id) w)
    as [events [k [[Hl Hr] [Hs [Hk _]]]]].
  exists events, k. simpl in Hr. auto.
Qed.

(** When the file named after [target_url] cannot be opened for writing
    (or the name cannot be derived), the poll does not return [True],
    whatever the server answers. *)
Theorem unwritable_target_never_succeeds (task_id : json) (w : world) :
  (forall name,
      get_filename_from_url R target_url = Ret name ->
      writable env name = false) ->
  fst (wait_for_completion R env headers target_url task_id w) = false.
Proof.
  intro H. unfold wait_for_completion.
  destruct (for_attempts_step 24 (endpoints R task_id) w)
    as [events [k [_ [_ [_ Hw]]]]].
  destruct (fst (rounds 24 (endpoints R task_id) w)); [|reflexivity].
  destruct Hw as [name [doc [j [_ [Hn [Hw _]]]]]].
  rewrite (H name Hn) in Hw. discriminate Hw.
Qed.

Lemma completed_response (endpoint url : pystr) (w : world)
      (response : http_response) (final : json) :
  urljoin R CRAWL4AI_BASE_URL endpoint = Ret url ->
  server env (requests w) url = Some response ->
  completes_with R response final ->
  poll_endpoint R env headers target_url endpoint w
  = (content <~ lift (extract_clean_content R final) ;;
     match content with
     | Some ((_ :: _) as text) =>
         _ <~ save_markdown R env text target_url ;;
         retM (Return true)
     | _ =>
         _ <~ print MsgNoContent ;;
         retM (Return false)
     end) (emit (Print MsgCompleted) (asked url w)).
Proof.
  intros Hu Hs [Hc [result [status_field [Hb [Hst [Hdone Hfinal]]]]]].
  rewrite (poll_endpoint_200 R env headers target_url endpoint url w response
             result status_field Hu Hs Hc Hb Hst).
  cbv zeta. rewrite Hdone.
  unfold bindM at 1, print at 1.
  unfold bindM at 1, lift at 1. rewrite Hfinal. reflexivity.
Qed.

(** In any round, when the endpoint reached answers that the task is
    completed and the extractor returns non-empty text for its result,
    and the file named after [target_url] can be opened and the document
    written to it, the poll saves the text and returns [True] at once. *)
Theorem completed_with_content_is_saved
        (n : nat) (pre rest : list pystr) (endpoint url : pystr)
        (w0 w : world) (response : http_response) (final : json)
        (text name : pystr) :
  passed_over R env headers target_url pre w0 = Some w ->
  urljoin R CRAWL4AI_BASE_URL endpoint = Ret url ->
  server env (requests w) url = Some response ->
  completes_with R response final ->
  extract_clean_content R final = Ret (Some text) ->
  text <> [] ->
  get_filename_from_url R target_url = Ret name ->
  writable env name = true ->
  write_raises env name
    {| doc_url := target_url;
       doc_timestamp := strftime env (length (log w) + 2);
       doc_length := length text;
       doc_content := text |} = None ->
  rounds (S n) (pre ++ endpoint :: rest) w0
  = (true,
     {| requests := S (requests w);
        log := log w
               ++ [Get url; Print MsgCompleted;
                   WriteFile name
                     {| doc_url := target_url;
                        doc_timestamp := strftime env (length (log w) + 2);
                        doc_length := length text;
                        doc_content := text |};
                   Print (MsgSaved name);
                   Print (MsgLength (length text))] |}).
Proof.
  intros Hpre Hu Hs Hdone Hx Hne Hn Hw Hr.
  simpl. rewrite (for_endpoints_passed R env headers target_url pre _ w0 w Hpre).
  simpl. unfold try_endpoint.
  rewrite (completed_response endpoint url w response final Hu Hs Hdone).
  unfold bindM at 1, lift at 1. rewrite Hx.
  destruct text as [|c text]; [congruence|].
  unfold bindM at 1, save_markdown, bindM at 1, lift. rewrite Hn, Hw.
  replace (length (log (emit (Print MsgCompleted) (asked url w))))
    with (length (log w) + 2)%nat
    by (unfold emit, asked; simpl; rewrite !length_app; simpl; lia).
  rewrite Hr.
  unfold bindM, print, retM, emit, asked. simpl.
  rewrite <- !app_assoc. reflexivity.
Qed.

Lemma try_endpoint_raising (endpoint url : pystr) (w : world) :
  (forall n url,
      exists response final e,
        server env n url = Some response
        /\ completes_with R response final
        /\ extract_clean_content R final = Raise e) ->
  urljoin R CRAWL4AI_BASE_URL endpoint = Ret url ->
  try_ep endpoint w = (Next, emit (Print MsgCompleted) (asked url w)).
Proof.
  intros H Hu.
  destruct (H (requests w) url) as [response [final [e [Hs [Hdone Hx]]]]].
  unfold try_endpoint.
  rewrite (completed_response endpoint url w response final Hu Hs Hdone).
  unfold bindM, lift. rewrite Hx. reflexivity.
Qed.

Lemma round_raising (eps : list pystr) (w : world) :
  (forall n url,
      exists response final e,
        server env n url = Some response
        /\ completes_with R response final
        /\ extract_clean_content R final = Raise e) ->
  round eps w =
  (None, {| requests := requests w + length (round_gets R eps);
            log := log w ++ round_completed R eps |}).
Proof.
  intro H. revert w. induction eps as [|e eps IH]; intro w; simpl.
  - rewrite Nat.add_0_r, app_nil_r. destruct w; reflexivity.
  - destruct (urljoin R CRAWL4AI_BASE_URL e) as [url|x] eqn:Hu.
    + rewrite (try_endpoint_raising e url w H Hu). rewrite IH.
      unfold emit, asked. simpl. rewrite <- !app_assoc. simpl.
      do 2 f_equal. lia.
    + rewrite (try_endpoint_no_url R env headers target_url e x w Hu).
      rewrite IH. reflexivity.
Qed.

Lemma rounds_raising (n : nat) (eps : list pystr) (w : world) :
  (forall n url,
      exists response final e,
        server env n url = Some response
        /\ completes_with R response final
        /\ extract_clean_content R final = Raise e) ->
  rounds n eps w =
  (false,
   {| requests := requests w + n * length (round_gets R eps);
      log := log w ++ concat (repeat (round_completed R eps ++ [Sleep 5]) n)
                   ++ [Print MsgTimeout] |}).
Proof.
  intro H. revert w. induction n as [|n IH]; intro w; simpl.
  - rewrite Nat.add_0_r. reflexivity.
  - rewrite (round_raising eps w H). rewrite IH. unfold emit. simpl.
    rewrite <- !app_assoc. simpl. do 2 f_equal. lia.
Qed.

Lemma try_endpoint_spoiling (endpoint url name : pystr) (w : world) :
  (forall n url,
      exists response final text,
        server env n url = Some response
        /\ completes_with R response final
        /\ extract_clean_content R final = Ret (Some text)
        /\ text <> []) ->
  get_filename_from_url R target_url = Ret name ->
  writable env name = true ->
  (forall doc, write_raises env name doc <> None) ->
  urljoin R CRAWL4AI_BASE_URL endpoint = Ret url ->
  try_ep endpoint w
  = (Next, emit (Truncate name) (emit (Print MsgCompleted) (asked url w))).
Proof.
  intros H Hn Hw Hr Hu.
  destruct (H (requests w) url) as [response [final [text [Hs [Hdone [Hx Ht]]]]]].
  unfold try_endpoint.
  rewrite (completed_response endpoint url w response final Hu Hs Hdone).
  unfold bindM at 1, lift at 1. rewrite Hx.
  destruct text as [|c text]; [congruence|].
  unfold bindM at 1, save_markdown, bindM at 1, lift. rewrite Hn, Hw.
  match goal with
  | |- context [write_raises env name ?doc] =>
      destruct (write_raises env name doc) as [e|] eqn:E;
      [reflexivity | destruct (Hr doc E)]
  end.
Qed.

Lemma round_spoiling (eps : list pystr) (name : pystr) (w : world) :
  (forall n url,
      exists response final text,
        server env n url = Some response
        /\ completes_with R response final
        /\ extract_clean_content R final = Ret (Some text)
        /\ text <> []) ->
  get_filename_from_url R target_url = Ret name ->
  writable env name = true ->
  (forall doc, write_raises env name doc <> None) ->
  round eps w =
  (None, {| requests := requests w + length (round_gets R eps);
            log := log w ++ round_spoiled R name eps |}).
Proof.
  intros H Hn Hw Hr. revert w. induction eps as [|e eps IH]; intro w; simpl.
  - rewrite Nat.add_0_r, app_nil_r. destruct w; reflexivity.
  - destruct (urljoin R CRAWL4AI_BASE_URL e) as [url|x] eqn:Hu.
    + rewrite (try_endpoint_spoiling e url name w H Hn Hw Hr Hu). rewrite IH.
      unfold emit, asked. simpl. rewrite <- !app_assoc. simpl.
      do 2 f_equal. lia.
    + rewrite (try_endpoint_no_url R env headers target_url e x w Hu).
      rewrite IH. reflexivity.
Qed.

(** When every answer reports the completed task with content and the
    file named after [target_url] opens, but writing the document raises
    every time, the [except] clause swallows the exception each time: at
    every request the poll announces the completion and leaves the file
    created or emptied, makes all its rounds, reports the timeout and
    returns [False]. *)
Theorem failing_write_polls_until_timeout
        (task_id : json) (name : pystr) (w : world) :
  (forall n url,
      exists response final text,
        server env n url = Some response
        /\ completes_with R response final
        /\ extract_clean_content R final = Ret (Some text)
        /\ text <> []) ->
  get_filename_from_url R target_url = Ret name ->
  writable env name = true ->
  (forall doc, write_raises env name doc <> None) ->
  wait_for_completion R env headers target_url task_id w
  = (false,
     {| requests :=
          requests w + 24 * length (round_gets R (endpoints R task_id));
        log := log w
               ++ concat (repeat (round_spoiled R name (endpoints R task_id)
                                    ++ [Sleep 5]) 24)
               ++ [Print MsgTimeout] |}).
Proof.
  intros H Hn Hw Hr. unfold wait_for_completion.
  generalize (endpoints R task_id) as eps. intro eps.
  generalize 24%nat as k. intro k. revert w.
  induction k as [|k IH]; intro w; simpl.
  - rewrite Nat.add_0_r. reflexivity.
  - rewrite (round_spoiling eps name w H Hn Hw Hr). rewrite IH.
    unfold emit. simpl. rewrite <- !app_assoc. simpl. do 2 f_equal. lia.
Qed.

(** When every answer reports the completed task and the extractor
    raises on its result, the [except] clause swallows the exception each
    time: the poll announces the completion at every request, makes all
    its rounds, reports the timeout and returns [False]. *)
Theorem raising_result_polls_until_timeout (task_id : json) (w : world) :
  (forall n url,
      exists response final e,
        server env n url = Some response
        /\ completes_with R response final
        /\ extract_clean_content R final = Raise e) ->
  wait_for_completion R env headers target_url task_id w
  = (false,
     {| requests :=
          requests w + 24 * length (round_gets R (endpoints R task_id));
        log := log w
               ++ concat (repeat (round_completed R (endpoints R task_id)
                                    ++ [Sleep 5]) 24)
               ++ [Print MsgTimeout] |}).
Proof. intro H. unfold wait_for_completion. apply rounds_raising. exact H. Qed.

End PollerInvariant.

Lemma unwritable_target_never_succeeds_witness :
  fst (wait_for_completion basic_latin env_read_only [] page task_x start)
  = false.
Proof.
  apply (unwritable_target_never_succeeds basic_latin env_read_only [] page
           task_x start).
  intros name _. reflexivity.
Defined.

Lemma completed_with_content_is_saved_witness :
  wait_for_completion basic_latin env_third_round [] page (JStr (lit "abc"))
    start
  = (true,
     {| requests := 5;
        log := [Get (url_of "/task/abc"); Print (MsgStatus (lit "running"));
                Sleep 5;
                Get (url_of "/task/abc"); Print (MsgStatus (lit "running"));
                Sleep 5;
                Get (url_of "/task/abc"); Get (url_of "/tasks/abc");
                Get (url_of "/result/abc"); Print MsgCompleted;
                WriteFile (lit "examplecom-my-post.md")
                  {| doc_url := page;
                     doc_timestamp := lit "2025-06-22 12:00:00";
                     doc_length := 4;
                     doc_content := lit "Done" |};
                Print (MsgSaved (lit "examplecom-my-post.md"));
                Print (MsgLength 4)] |}).
Proof.
  change (wait_for_completion basic_latin env_third_round [] page
            (JStr (lit "abc")) start)
    with (for_attempts basic_latin env_third_round [] page 22
            [lit "/task/abc"; lit "/tasks/abc"; lit "/result/abc"]
            {| requests := 2;
               log := [Get (url_of "/task/abc");
                       Print (MsgStatus (lit "running")); Sleep 5;
                       Get (url_of "/task/abc");
                       Print (MsgStatus (lit "running")); Sleep 5] |}).
  exact (completed_with_content_is_saved basic_latin env_third_round [] page
           21 [lit "/task/abc"; lit "/tasks/abc"] [] (lit "/result/abc")
           (url_of "/result/abc")
           {| requests := 2;
              log := [Get (url_of "/task/abc");
                      Print (MsgStatus (lit "running")); Sleep 5;
                      Get (url_of "/task/abc");
                      Print (MsgStatus (lit "running")); Sleep 5] |}
           {| requests := 4;
              log := [Get (url_of "/task/abc");
                      Print (MsgStatus (lit "running")); Sleep 5;
                      Get (url_of "/task/abc");
                      Print (MsgStatus (lit "running")); Sleep 5;
                      Get (url_of "/task/abc"); Get (url_of "/tasks/abc")] |}
           {| status_code := 200;
              json_body :=
                Some (object [("status"%string, JStr (lit "completed"));
                              ("result"%string,
                               object [("markdown"%string,
                                        JStr (lit "Done"))])]) |}
           (object [("markdown"%string, JStr (lit "Done"))])
           (lit "Done") (lit "examplecom-my-post.md")
           eq_refl eq_refl eq_refl
           (conj eq_refl
              (ex_intro _ _ (ex_intro _ (JStr (lit "completed"))
                 (conj eq_refl (conj eq_refl (conj eq_refl eq_refl))))))
           eq_refl ltac:(discriminate) eq_refl eq_refl eq_refl).
Defined.

Lemma raising_result_polls_until_timeout_witness :
  wait_for_completion basic_latin env_null_result [] page task_x start
  = (false,
     {| requests := 72;
        log := concat (repeat [Get (url_of "/task/x"); Print MsgCompleted;
                               Get (url_of "/tasks/x"); Print MsgCompleted;
                               Get (url_of "/result/x"); Print MsgCompleted;
                               Sleep 5] 24)
               ++ [Print MsgTimeout] |}).
Proof.
  apply (raising_result_polls_until_timeout basic_latin env_null_result [] page
           task_x start).
  intros n url.
  exists {| status_code := 200;
            json_body :=
              Some (object [("status"%string, JStr (lit "completed"));
                            ("result"%string, JNull)]) |},
    JNull, TypeError.
  split; [reflexivity|]. split; [|reflexivity].
  split; [reflexivity|].
  exists (object [("status"%string, JStr (lit "completed"));
                  ("result"%string, JNull)]), (JStr (lit "completed")).
  repeat split; reflexivity.
Defined.

Lemma failing_write_polls_until_timeout_witness :
  wait_for_completion basic_latin env_no_space [] page task_x start
  = (false,
     {| requests := 72;
        log := concat (repeat [Get (url_of "/task/x"); Print MsgCompleted;
                               Truncate (lit "examplecom-my-post.md");
                               Get (url_of "/tasks/x"); Print MsgCompleted;
                               Truncate (lit "examplecom-my-post.md");
                               Get (url_of "/result/x"); Print MsgCompleted;
                               Truncate (lit "examplecom-my-post.md");
                               Sleep 5] 24)
               ++ [Print MsgTimeout] |}).
Proof.
  apply (failing_write_polls_until_timeout basic_latin env_no_space [] page
           task_x (lit "examplecom-my-post.md") start).
  - intros n url.
    exists {| status_code := 200;
              json_body :=
                Some (object [("status"%string, JStr (lit "completed"));
                              ("result"%string,
                               object [("markdown"%string,
                                        JStr (lit "Done"))])]) |},
      (object [("markdown"%string, JStr (lit "Done"))]), (lit "Done").
    split; [reflexivity|]. split; [|split; [reflexivity | discriminate]].
    split; [reflexivity|].
    exists (object [("status"%string, JStr (lit "completed"));
                    ("result"%string,
                     object [("markdown"%string, JStr (lit "Done"))])]),
      (JStr (lit "completed")).
    repeat split; reflexivity.
  - reflexivity.
  - reflexivity.
  - intros doc. discriminate.
Defined.

Lemma round_completed_quiet (R : Runtime) (eps : list pystr) :
  filter is_sleep (round_completed R eps) = []
  /\ existsb is_no_content (round_completed R eps) = false
  /\ existsb is_write (round_completed R eps) = false.
Proof.
  induction eps as [|e eps [H1 [H2 H3]]]; simpl; [auto|].
  destruct (urljoin R CRAWL4AI_BASE_URL e); simpl; auto.
Qed.

Lemma rounds_completed_quiet (R : Runtime) (eps : list pystr) (k : nat) :
  filter is_sleep (concat (repeat (round_completed R eps ++ [Sleep 5]) k))
  = repeat (Sleep 5) k
  /\ existsb is_no_content
       (concat (repeat (round_completed R eps ++ [Sleep 5]) k)) = false
  /\ existsb is_write
       (concat (repeat (round_completed R eps ++ [Sleep 5]) k)) = false.
Proof.
  destruct (round_completed_quiet R eps) as [H1 [H2 H3]].
  induction k as [|k [I1 [I2 I3]]]; simpl; [auto|].
  rewrite !filter_app, !existsb_app, H1, H2, H3, I1, I2, I3. auto.
Qed.

(** C9: the polled body [{"status": "completed", "result": null}] is a
    200 response with a completed status and no recognized content, and
    the poll does not report an extraction failure at once.  The
    extractor raises on [null] (the defect of C5), the [except] clause
    swallows the exception, and the poll goes on with the next candidate
    and the next round: it makes all its requests and its 24 sleeps,
    never prints that no content was found, writes no file and ends with
    the timeout message. *)
Theorem completed_null_result_runs_to_timeout
        (R : Runtime) (headers : list (pystr * pystr)) (target_url : pystr)
        (task_id : json) (w : world) :
  exists events,
    wait_for_completion R env_null_result headers target_url task_id w
    = (false,
       {| requests :=
            requests w + 24 * length (round_gets R (endpoints R task_id));
          log := log w ++ events ++ [Print MsgTimeout] |})
    /\ filter is_sleep events = repeat (Sleep 5) 24
    /\ existsb is_no_content events = false
    /\ existsb is_write events = false.
Proof.
  exists (concat (repeat (round_completed R (endpoints R task_id)
                            ++ [Sleep 5]) 24)).
  split; [|apply rounds_completed_quiet].
  unfold wait_for_completion. apply rounds_raising.
  intros n url.
  exists {| status_code := 200;
            json_body :=
              Some (object [("status"%string, JStr (lit "completed"));
                            ("result"%string, JNull)]) |},
    JNull, TypeError.
  split; [reflexivity|]. split; [|reflexivity].
  split; [reflexivity|].
  exists (object [("status"%string, JStr (lit "completed"));
                  ("result"%string, JNull)]), (JStr (lit "completed")).
  repeat split; reflexivity.
Qed.

(** ** One page *)

(** ** Running the polling code inside a session *)

Lemma inner_events_app (a b : list action) :
  inner_events (a ++ b) = inner_events a ++ inner_events b.
Proof. unfold inner_events. apply flat_map_app. Qed.

Lemma inner_events_did (events : list event) :
  inner_events (map Did events) = events.
Proof.
  induction events as [|e events IH]; simpl; [|rewrite IH]; reflexivity.
Qed.

Lemma run_did {A} (m : world -> A * world) (s : session) (events : list event) :
  log (snd (m (world_of s))) = log (world_of s) ++ events ->
  run m s = (fst (m (world_of s)), did events s).
Proof.
  intro H. unfold run. destruct (m (world_of s)) as [a w']. simpl in *.
  rewrite H, skipn_app, skipn_all, Nat.sub_diag. reflexivity.
Qed.

Lemma filter_saving_did (events : list event) :
  filter is_saving (map Did events) = map Did (filter is_write events).
Proof.
  induction events as [|e events IH]; simpl; [reflexivity|].
  destruct (is_write e); simpl; rewrite IH; reflexivity.
Qed.

Lemma filter_saved_did (events : list event) :
  filter is_saved (map Did events) = map Did (filter is_stored events).
Proof.
  induction events as [|e events IH]; simpl; [reflexivity|].
  destruct (is_stored e); simpl; rewrite IH; reflexivity.
Qed.

Lemma filter_saved_saving (acts : list action) :
  filter is_saved acts = filter is_saved (filter is_saving acts).
Proof.
  induction acts as [|a acts IH]; simpl; [reflexivity|].
  destruct a as [[| | | |]| | | | |]; simpl; rewrite IH; reflexivity.
Qed.

Lemma stored_failed_saves (R : Runtime) (target_url : pystr) (k : nat) :
  filter is_stored (failed_saves R target_url k) = [].
Proof.
  unfold failed_saves.
  destruct (get_filename_from_url R target_url); [|reflexivity].
  induction k as [|k IH]; simpl; auto.
Qed.

Lemma filter_post_did (events : list event) :
  filter is_post (map Did events) = [].
Proof. induction events as [|e events IH]; simpl; auto. Qed.

Section ScriptFacts.

Variable R : Runtime.
Variable host : Host.

Lemma wait_in_session (headers : list (pystr * pystr))
      (cleaned_url : pystr) (task_id : json) (s : session) :
  exists events,
    run (wait_for_completion R (polled host) headers cleaned_url task_id) s
    = (fst (wait_for_completion R (polled host) headers cleaned_url task_id
              (world_of s)),
       did events s)
    /\ if fst (wait_for_completion R (polled host) headers cleaned_url task_id
                 (world_of s))
       then saved_file R (polled host) cleaned_url events
       else unsaved_file R cleaned_url events.
Proof.
  unfold wait_for_completion.
  destruct (for_attempts_step R (polled host) headers cleaned_url 24
              (endpoints R task_id) (world_of s))
    as [events [k [[Hl _] [_ [_ Hw]]]]].
  exists events. split; [|exact Hw].
  apply run_did. exact Hl.
Qed.

Lemma save_in_session (text cleaned_url : pystr) (s : session) :
  (exists name doc,
      get_filename_from_url R cleaned_url = Ret name
      /\ writable (polled host) name = true
      /\ write_raises (polled host) name doc = None
      /\ doc_url doc = cleaned_url
      /\ doc_content doc = text
      /\ liftM (save_markdown R (polled host) text cleaned_url) s
         = (Done tt,
            did [WriteFile name doc; Print (MsgSaved name);
                 Print (MsgLength (length text))] s))
  \/ (exists name e,
         get_filename_from_url R cleaned_url = Ret name
         /\ liftM (save_markdown R (polled host) text cleaned_url) s
            = (Fault (Exn e), did [Truncate name] s))
  \/ exists e,
      liftM (save_markdown R (polled host) text cleaned_url) s
      = (Fault (Exn e), s).
Proof.
  unfold liftM.
  pose proof (save_markdown_cases R (polled host) cleaned_url text (world_of s))
    as Hcases.
  cbv zeta in Hcases. set (doc := Build_document _ _ _ _) in Hcases.
  destruct Hcases
    as [[name [Hn [Hw [Hr Hs]]]] | [[name [e [Hn [Hw [Hr Hs]]]]] | [e Hs]]].
  - left. exists name, doc.
    split; [exact Hn|]. split; [exact Hw|]. split; [exact Hr|].
    split; [reflexivity|]. split; [reflexivity|].
    erewrite run_did; rewrite Hs; reflexivity.
  - right. left. exists name, e. split; [exact Hn|].
    erewrite run_did; rewrite Hs; reflexivity.
  - right. right. exists e. rewrite (run_did _ s []).
    + rewrite Hs. unfold did. simpl. rewrite app_nil_r. destruct s; reflexivity.
    + rewrite Hs. simpl. rewrite app_nil_r. reflexivity.
Qed.

Lemma unsaved_page_none (cleaned_url : pystr) (acts : list action) :
  filter is_saving acts = [] -> unsaved_page R cleaned_url acts.
Proof.
  intro H. exists O. rewrite H. unfold failed_saves.
  destruct (get_filename_from_url R cleaned_url); reflexivity.
Qed.

Lemma submit_step (cleaned_url : pystr) (crawl_data : json)
      (headers : list (pystr * pystr)) (s s' : session) (r : result bool) :
  submit R host cleaned_url crawl_data headers s = (r, s') ->
  exists acts,
    journal s' = journal s ++ acts
    /\ typed s' = typed s
    /\ (filter is_post acts = []
        \/ exists endpoint,
            urljoin R CRAWL4AI_BASE_URL (lit "/crawl") = Ret endpoint
            /\ filter is_post acts = [Post endpoint crawl_data headers])
    /\ match r with
       | Done true => saved_page R host cleaned_url acts
       | _ => unsaved_page R cleaned_url acts
       end.
Proof.
  intro E. unfold submit in E.
  unfold bindP at 1, liftO at 1 in E.
  destruct (urljoin R CRAWL4AI_BASE_URL (lit "/crawl")) as [endpoint|e] eqn:Hu.
  2:{ inversion E; subst. exists []. rewrite app_nil_r.
      repeat split; auto. apply unsaved_page_none. reflexivity. }
  assert (Hpost : forall rest,
             filter is_post rest = [] ->
             filter is_post [] = []
             \/ exists endpoint0,
                 Ret endpoint = Ret endpoint0
                 /\ filter is_post (Post endpoint crawl_data headers :: rest)
                    = [Post endpoint0 crawl_data headers]).
  { intros rest H. right. exists endpoint. simpl. rewrite H. auto. }
  assert (Hquiet : unsaved_page R cleaned_url
                     [Post endpoint crawl_data headers])
    by (apply unsaved_page_none; reflexivity).
  unfold bindP at 1, requests_post in E.
  destruct (crawl host (length (filter is_post (journal s))) endpoint crawl_data)
    as [response|].
  2:{ inversion E; subst. exists [Post endpoint crawl_data headers].
      repeat split; auto. right. eauto. }
  destruct (status_code (posted response) =? 200).
  2:{ unfold bindP, say in E.
      destruct (status_code (posted response) =? 422); inversion E; subst;
        (eexists [Post endpoint crawl_data headers; Say _; Say _]; simpl;
         rewrite <- !app_assoc; repeat split; auto;
         try (apply unsaved_page_none; reflexivity); right; eauto). }
  unfold bindP at 1, liftO at 1 in E.
  destruct (response_json (posted response)) as [result|e].
  2:{ inversion E; subst. exists [Post endpoint crawl_data headers].
      repeat split; auto. right. eauto. }
  unfold bindP at 1, liftO at 1 in E.
  destruct (py_in (lit "task_id") result) as [has_task_id|e].
  2:{ inversion E; subst. exists [Post endpoint crawl_data headers].
      repeat split; auto. right. eauto. }
  unfold bindP at 1 in E.
  destruct ((if has_task_id then retP true else liftO (py_in (lit "id") result))
              (act (Post endpoint crawl_data headers) s)) as [has sx] eqn:Hh.
  assert (Hsx : sx = act (Post endpoint crawl_data headers) s).
  { destruct has_task_id; [inversion Hh; reflexivity|].
    unfold liftO in Hh. inversion Hh. reflexivity. }
  subst sx. clear Hh.
  destruct has as [[|]|f].
  - (* a task *)
    unfold bindP at 1, liftO at 1 in E.
    destruct (py_get result (lit "task_id") JNull) as [by_task_id|e].
    2:{ inversion E; subst. exists [Post endpoint crawl_data headers].
        repeat split; auto. right. eauto. }
    unfold bindP at 1 in E.
    destruct ((if truthy by_task_id then retP by_task_id
               else liftO (py_get result (lit "id") JNull))
                (act (Post endpoint crawl_data headers) s)) as [task sx] eqn:Ht.
    assert (Hsx : sx = act (Post endpoint crawl_data headers) s).
    { destruct (truthy by_task_id); [inversion Ht; reflexivity|].
      unfold liftO in Ht. inversion Ht. reflexivity. }
    subst sx. clear Ht.
    destruct task as [task_id|f].
    2:{ inversion E; subst. exists [Post endpoint crawl_data headers].
        repeat split; auto. right. eauto. }
    unfold bindP at 1, say at 1 in E.
    unfold bindP at 1 in E.
    destruct (wait_in_session headers cleaned_url task_id
                (act (Say (MsgTaskId (py_str R task_id)))
                   (act (Post endpoint crawl_data headers) s)))
      as [events [Hrun Hw]].
    rewrite Hrun in E.
    destruct (fst (wait_for_completion R (polled host) headers cleaned_url
                     task_id _)).
    + inversion E; subst.
      exists ([Post endpoint crawl_data headers; Say (MsgTaskId (py_str R task_id))]
                ++ map Did events).
      simpl. rewrite <- !app_assoc. repeat split; auto.
      * right. exists endpoint. rewrite filter_post_did. auto.
      * destruct Hw as [name [doc [k [Hf H]]]]. exists name, doc, k.
        simpl. rewrite filter_saving_did, Hf. auto.
    + unfold bindP, say in E. inversion E; subst.
      exists ([Post endpoint crawl_data headers; Say (MsgTaskId (py_str R task_id))]
                ++ map Did events ++ [Say MsgExtractFailed]).
      simpl. rewrite <- !app_assoc. repeat split; auto.
      * right. exists endpoint. rewrite filter_app, filter_post_did. auto.
      * destruct Hw as [k Hf]. exists k. cbn [filter is_saving].
        rewrite filter_app, filter_saving_did, Hf. simpl.
        rewrite app_nil_r. reflexivity.
  - (* a direct response *)
    unfold bindP at 1, liftO at 1 in E.
    destruct (extract_clean_content R result) as [[[|c text]|]|e].
    + unfold bindP, say in E. inversion E; subst.
      exists [Post endpoint crawl_data headers; Say MsgNoContentFound].
      simpl. rewrite <- !app_assoc.
      repeat split; auto; try (apply unsaved_page_none; reflexivity);
        right; eauto.
    + unfold bindP at 1 in E.
      destruct (save_in_session (c :: text) cleaned_url
                  (act (Post endpoint crawl_data headers) s))
        as [[name [doc [Hn [Hw [Hr [Hd [Hc Hs]]]]]]]
           | [[name [e [Hn Hs]]] | [e Hs]]]; rewrite Hs in E;
        inversion E; subst.
      * eexists (Post endpoint crawl_data headers :: map Did [_; _; _]).
        simpl. rewrite <- !app_assoc. repeat split; auto; [right; eauto|].
        exists name, doc, O. unfold failed_saves. rewrite Hn.
        repeat split; auto. rewrite Hc. discriminate.
      * exists (Post endpoint crawl_data headers :: map Did [Truncate name]).
        simpl. rewrite <- !app_assoc. repeat split; auto; [right; eauto|].
        exists 1%nat. unfold failed_saves. rewrite Hn. reflexivity.
      * exists [Post endpoint crawl_data headers].
        repeat split; auto. right. eauto.
    + unfold bindP, say in E. inversion E; subst.
      exists [Post endpoint crawl_data headers; Say MsgNoContentFound].
      simpl. rewrite <- !app_assoc.
      repeat split; auto; try (apply unsaved_page_none; reflexivity);
        right; eauto.
    + inversion E; subst. exists [Post endpoint crawl_data headers].
      repeat split; auto. right. eauto.
  - inversion E; subst. exists [Post endpoint crawl_data headers].
    repeat split; auto. right. eauto.
Qed.

Lemma process_single_url_step (url : pystr) (s s' : session) (r : result bool) :
  process_single_url R host url s = (r, s') ->
  exists acts,
    journal s' = journal s ++ acts
    /\ typed s' = typed s
    /\ match clean_and_validate_url R url with
       | Raise e => r = Fault (Exn e) /\ acts = []
       | Ret (Some ((_ :: _) as cleaned_url)) =>
           exists ok,
             r = Done ok
             /\ (filter is_post acts = []
                 \/ exists endpoint now,
                     urljoin R CRAWL4AI_BASE_URL (lit "/crawl") = Ret endpoint
                     /\ filter is_post acts
                        = [Post endpoint (crawl_request cleaned_url now)
                                get_auth_headers])
             /\ if ok then saved_page R host cleaned_url acts
                else unsaved_page R cleaned_url acts
       | Ret _ => r = Done false /\ acts = [Say (MsgInvalidUrl url)]
       end.
Proof.
  intro E. unfold process_single_url in E.
  unfold bindP at 1, liftO at 1 in E.
  destruct (clean_and_validate_url R url) as [[[|c v]|]|e].
  - inversion E; subst. eexists. simpl. repeat split; reflexivity.
  - unfold bindP at 1, say at 1 in E.
    unfold bindP at 1, int_time in E.
    set (s0 := act (Say (MsgCrawling (c :: v))) s) in *.
    fold (crawl_request (c :: v) (time_time host (moment s0))) in E.
    unfold try_except in E.
    destruct (submit R host (c :: v)
                (crawl_request (c :: v) (time_time host (moment s0)))
                get_auth_headers s0) as [rb s1] eqn:Hb.
    destruct (submit_step _ _ _ _ _ _ Hb) as [acts [Hj [Ht [Hp Hw]]]].
    destruct rb as [ok|f].
    + inversion E; subst. exists (Say (MsgCrawling (c :: v)) :: acts).
      rewrite Hj, Ht. unfold s0. simpl. rewrite <- app_assoc.
      repeat split. exists ok. split; [reflexivity|]. split.
      * destruct Hp as [Hp | [endpoint [Hu Hp]]]; [left; exact Hp|].
        right. exists endpoint. eauto.
      * destruct ok.
        -- destruct Hw as [name [doc [k H]]]. exists name, doc, k. exact H.
        -- destruct Hw as [k H]. exists k. exact H.
    + unfold bindP, say in E. inversion E; subst.
      exists (Say (MsgCrawling (c :: v)) :: acts ++ [Say (MsgFailed f)]).
      simpl. rewrite Hj, Ht. unfold s0. simpl. rewrite <- !app_assoc.
      repeat split. exists false. split; [reflexivity|]. split.
      * rewrite filter_app. simpl. rewrite app_nil_r.
        destruct Hp as [Hp | [endpoint [Hu Hp]]]; [left; exact Hp|].
        right. exists endpoint. eauto.
      * destruct Hw as [k H]. exists k. cbn [filter is_saving].
        rewrite filter_app, H. simpl. rewrite app_nil_r. reflexivity.
  - inversion E; subst. eexists. simpl. repeat split; reflexivity.
  - inversion E; subst. exists []. rewrite app_nil_r. repeat split; reflexivity.
Qed.

(** [process_single_url] returns [True] exactly when it has written the
    document: the content for the cleaned URL, under the name derived from
    it, as its last file operation.  Before the document, and when the
    result is not [True], the only file actions are saves that failed once
    the file was open: each leaves the file named after the cleaned URL
    created or emptied.  A URL the validator does not accept touches no
    file. *)
Theorem page_true_iff_saved (url : pystr) (s : session) :
  exists acts,
    journal (snd (process_single_url R host url s)) = journal s ++ acts
    /\ match fst (process_single_url R host url s) with
       | Done true =>
           exists cleaned_url,
             clean_and_validate_url R url = Ret (Some cleaned_url)
             /\ saved_page R host cleaned_url acts
       | _ =>
           match clean_and_validate_url R url with
           | Ret (Some ((_ :: _) as cleaned_url)) =>
               unsaved_page R cleaned_url acts
           | _ => filter is_saving acts = []
           end
       end.
Proof.
  destruct (process_single_url R host url s) as [r s'] eqn:E.
  destruct (process_single_url_step url s s' r E) as [acts [Hj [_ H]]].
  exists acts. split; [exact Hj|]. cbn [fst].
  destruct (clean_and_validate_url R url) as [[[|c v]|]|e].
  - destruct H as [-> ->]. reflexivity.
  - destruct H as [ok [-> [_ H]]]. destruct ok; [|exact H].
    exists (c :: v). split; [reflexivity | exact H].
  - destruct H as [-> ->]. reflexivity.
  - destruct H as [-> ->]. reflexivity.
Qed.

(** [process_single_url] raises exactly when the validator does, and
    then before anything else has happened.  A URL the validator rejects
    gives [False] after the notice.  For an accepted URL the result is
    that of the [try] block; whatever that block raises, in the request,
    in the decoding, in the poll or in the save, is reported in a notice
    and the result is [False]. *)
Theorem page_raises_only_at_validation (url : pystr) (s : session) :
  match clean_and_validate_url R url with
  | Raise e => process_single_url R host url s = (Fault (Exn e), s)
  | Ret (Some ((_ :: _) as cleaned_url)) =>
      let s0 := act (Say (MsgCrawling cleaned_url)) s in
      match submit R host cleaned_url
              (crawl_request cleaned_url (time_time host (moment s0)))
              get_auth_headers s0 with
      | (Done ok, s1) => process_single_url R host url s = (Done ok, s1)
      | (Fault f, s1) =>
          process_single_url R host url s
          = (Done false, act (Say (MsgFailed f)) s1)
      end
  | Ret _ =>
      process_single_url R host url s
      = (Done false, act (Say (MsgInvalidUrl url)) s)
  end.
Proof.
  unfold process_single_url, try_except, bindP, liftO, say, int_time, retP,
    crawl_request.
  destruct (clean_and_validate_url R url) as [[[|c v]|]|e]; try reflexivity.
  cbv beta iota zeta.
  destruct (submit R host (c :: v) _ get_auth_headers _) as [[ok|f] s1];
    reflexivity.
Qed.

(** A URL the validator rejects is not submitted: the only action is the
    notice.  An accepted URL is submitted at most once, to the [/crawl]
    endpoint, as the only entry of [urls] and with the headers of
    [get_auth_headers]. *)
Theorem page_is_submitted_once (url : pystr) (s : session) :
  exists acts,
    journal (snd (process_single_url R host url s)) = journal s ++ acts
    /\ match clean_and_validate_url R url with
       | Ret (Some ((_ :: _) as cleaned_url)) =>
           filter is_post acts = []
           \/ exists endpoint now,
               urljoin R CRAWL4AI_BASE_URL (lit "/crawl") = Ret endpoint
               /\ filter is_post acts
                  = [Post endpoint (crawl_request cleaned_url now)
                          get_auth_headers]
       | Ret _ =>
           fst (process_single_url R host url s) = Done false
           /\ acts = [Say (MsgInvalidUrl url)]
       | Raise _ => acts = []
       end.
Proof.
  destruct (process_single_url R host url s) as [r s'] eqn:E.
  destruct (process_single_url_step url s s' r E) as [acts [Hj [_ H]]].
  exists acts. split; [exact Hj|]. cbn [fst].
  destruct (clean_and_validate_url R url) as [[[|c v]|]|e]; try tauto.
  destruct H as [ok [_ [H _]]]. exact H.
Qed.

End ScriptFacts.

Lemma page_raises_only_at_validation_witness :
  process_single_url basic_latin host_offline (lit "example.com/a") (begin [])
  = (Done false,
     {| journal :=
          [Say (MsgCrawling (lit "https://example.com/a"));
           Post (url_of "/crawl")
             (crawl_request (lit "https://example.com/a") 1750593600)
             get_auth_headers;
           Say (MsgFailed (Exn RequestException))];
        typed := [] |}).
Proof.
  exact (page_raises_only_at_validation basic_latin host_offline
           (lit "example.com/a") (begin [])).
Defined.

(** ** The list of URLs *)

Lemma accepted_not_empty (R : Runtime) (u v : pystr) :
  clean_and_validate_url R u = Ret (Some v) -> v <> [].
Proof.
  intro H. destruct (accepted_inv R u v H) as [Hne [_ [-> _]]].
  apply with_protocol_not_empty. exact Hne.
Qed.

Section ReadingFacts.

Variable R : Runtime.
Variable host : Host.

Lemma read_lines_cons (line_num : nat) (line : pystr) (rest urls : list pystr) :
  read_lines R line_num (line :: rest) urls
  = (cleaned_url <== liftO (clean_and_validate_url R (strip line)) ;;
     match cleaned_url with
     | Some ((_ :: _) as cleaned_url) =>
         read_lines R (S line_num) rest (urls ++ [cleaned_url])
     | _ =>
         _ <== (if negb (is_empty (strip line))
                   && negb (starts_with (lit "#") (strip line))
                then say (MsgSkipping line_num (firstn 50 (strip line)))
                else retP tt) ;;
         read_lines R (S line_num) rest urls
     end).
Proof. reflexivity. Qed.

Lemma read_lines_returning (lines : list pystr) :
  (forall line, In line lines ->
                exists r, clean_and_validate_url R (strip line) = Ret r) ->
  forall (line_num : nat) (urls : list pystr) (s : session),
  exists notes,
    read_lines R line_num lines urls s
    = (Done (urls ++ accepted_lines R lines),
       {| journal := journal s ++ map Say notes; typed := typed s |}).
Proof.
  induction lines as [|line lines IH]; intros Hr line_num urls s.
  - exists []. simpl. rewrite !app_nil_r. destruct s; reflexivity.
  - assert (Hrest : forall l, In l lines ->
                      exists r, clean_and_validate_url R (strip l) = Ret r)
      by (intros l Hl; apply Hr; right; exact Hl).
    destruct (Hr line (or_introl eq_refl)) as [r Hline].
    rewrite read_lines_cons. cbn [accepted_lines flat_map].
    unfold bindP at 1, liftO at 1. rewrite Hline.
    destruct r as [[|c v]|].
    + exfalso. exact (accepted_not_empty R _ _ Hline eq_refl).
    + destruct (IH Hrest (S line_num) (urls ++ [c :: v]) s) as [notes Hn].
      exists notes. etransitivity; [exact Hn|].
      rewrite <- app_assoc. reflexivity.
    + unfold bindP at 1.
      destruct (negb (is_empty (strip line))
                && negb (starts_with (lit "#") (strip line))).
      * unfold say at 1.
        destruct (IH Hrest (S line_num) urls
                    (act (Say (MsgSkipping line_num (firstn 50 (strip line)))) s))
          as [notes ->].
        exists (MsgSkipping line_num (firstn 50 (strip line)) :: notes).
        simpl. rewrite <- app_assoc. reflexivity.
      * unfold retP at 1.
        destruct (IH Hrest (S line_num) urls s) as [notes ->].
        exists notes. reflexivity.
Qed.

Lemma read_lines_raising (lines : list pystr) (line : pystr) (e : exn) :
  In line lines ->
  clean_and_validate_url R (strip line) = Raise e ->
  forall (line_num : nat) (urls : list pystr) (s : session),
  exists f, fst (read_lines R line_num lines urls s) = Fault f.
Proof.
  induction lines as [|l lines IH]; intros Hin He line_num urls s;
    [destruct Hin|].
  rewrite read_lines_cons. unfold bindP at 1, liftO at 1.
  destruct (clean_and_validate_url R (strip l)) as [r|e'] eqn:Hl.
  - destruct Hin as [->|Hin]; [congruence|].
    destruct r as [[|c v]|].
    + unfold bindP at 1.
      destruct ((if negb (is_empty (strip l))
                    && negb (starts_with (lit "#") (strip l))
                 then say (MsgSkipping line_num (firstn 50 (strip l)))
                 else retP tt) s) as [[[]|f] sx] eqn:Hs.
      * apply (IH Hin He).
      * simpl. eauto.
    + apply (IH Hin He).
    + unfold bindP at 1.
      destruct ((if negb (is_empty (strip l))
                    && negb (starts_with (lit "#") (strip l))
                 then say (MsgSkipping line_num (firstn 50 (strip l)))
                 else retP tt) s) as [[[]|f] sx] eqn:Hs.
      * apply (IH Hin He).
      * simpl. eauto.
  - simpl. eauto.
Qed.

(** When the file opens and reads to its end and the validator raises on
    none of its lines, [read_urls_from_file] returns the accepted lines in
    the order of the file, duplicates included; it opens the file, prints
    notices and does nothing else. *)
Theorem read_urls_returns_accepted_lines
        (file_path : pystr) (lines : list pystr) (s : session) :
  open_file host (moment s) file_path = Lines lines None ->
  (forall line, In line lines ->
                exists r, clean_and_validate_url R (strip line) = Ret r) ->
  exists notes,
    read_urls_from_file R host file_path s
    = (Done (accepted_lines R lines),
       {| journal := journal s ++ Open file_path :: map Say notes;
          typed := typed s |}).
Proof.
  intros Ho Hr. unfold read_urls_from_file, try_except. rewrite Ho.
  unfold bindP at 1.
  destruct (read_lines_returning lines Hr 1 [] (act (Open file_path) s))
    as [notes ->].
  exists notes. unfold retP. simpl. rewrite <- app_assoc. reflexivity.
Qed.

(** [read_urls_from_file] returns the empty list, whatever the lines
    read before, when the file cannot be opened, when reading it fails,
    or when the validator raises on one of its lines. *)
Theorem read_urls_empty_on_any_failure (file_path : pystr) (s : session) :
  match open_file host (moment s) file_path with
  | Refused _ => True
  | Lines lines failure =>
      failure <> None
      \/ exists line e,
          In line lines /\ clean_and_validate_url R (strip line) = Raise e
  end ->
  fst (read_urls_from_file R host file_path s) = Done [].
Proof.
  unfold read_urls_from_file, try_except.
  destruct (open_file host (moment s) file_path) as [f|lines failure].
  - intros _. destruct f; reflexivity.
  - intro H. unfold bindP at 1.
    destruct (read_lines R 1 lines [] (act (Open file_path) s))
      as [[urls|f] s1] eqn:Hl.
    + destruct failure as [f|].
      * unfold raiseP. destruct f; reflexivity.
      * destruct H as [H | [line [e [Hin He]]]]; [congruence|].
        destruct (read_lines_raising lines line e Hin He 1 []
                    (act (Open file_path) s)) as [f Hf].
        rewrite Hl in Hf. discriminate Hf.
    + destruct f; reflexivity.
Qed.

End ReadingFacts.

(** ** The menu *)




Section MenuFacts.

Variable R : Runtime.
Variable host : Host.

(** *** Tame code *)




Lemma tame_os_system (command : pystr) : tame (os_system command).
Proof. intros s r s' E. inversion E. split; [simpl; lia | exact I]. Qed.








Lemma process_batch_cons (i total : nat) (url : pystr) (rest : list pystr)
      (successful failed : nat) :
  process_batch R host i total (url :: rest) successful failed
  = (_ <== say (MsgProcessing i total url) ;;
     ok <== process_single_url R host url ;;
     counters <== (if ok then
                     _ <== say MsgSuccess ;;
                     retP (S successful, failed)
                   else
                     _ <== say MsgFailedMark ;;
                     retP (successful, S failed)) ;;
     _ <== say MsgRule ;;
     _ <== sleep 1 ;;
     process_batch R host (S i) total rest (fst counters) (snd counters)).
Proof. reflexivity. Qed.



(** What follows the reading of the choice in the body of the loop. *)
Lemma menu_round_unfold (s : session) :
  menu_round R host s
  = match typed s with
    | [] =>
        (Fault EOFError,
         {| journal := journal s
                       ++ [System (if posix host then lit "clear" else lit "cls");
                           Say MsgMenu; Input AskChoice];
            typed := [] |})
    | line :: rest =>
        (let choice := strip line in
         if str_eqb choice (lit "1") then
           url <== input AskUrl ;;
           let url := strip url in
           if is_empty url then
             _ <== say MsgNoUrl ;;
             _ <== input AskContinue ;;
             retP false
           else
             success <== process_single_url R host url ;;
             _ <== (if success then say MsgSuccess else retP tt) ;;
             _ <== ask_to_continue ;;
             retP false
         else if str_eqb choice (lit "2") then
           file_path <== input AskFile ;;
           let file_path := strip file_path in
           if is_empty file_path then
             _ <== say MsgNoPath ;;
             _ <== input AskContinue ;;
             retP false
           else
             file_path <== with_extension host file_path ;;
             urls <== read_urls_from_file R host file_path ;;
             match urls with
             | [] =>
                 _ <== (fun s =>
                          say (MsgNoUrls file_path (getcwd host (moment s))) s) ;;
                 _ <== input AskContinue ;;
                 retP false
             | _ :: _ =>
                 _ <== say (MsgFound (length urls)) ;;
                 counters <== process_batch R host 1 (length urls) urls 0 0 ;;
                 _ <== say (MsgBatchDone (fst counters) (snd counters)) ;;
                 _ <== ask_to_continue ;;
                 retP false
             end
         else if str_eqb choice (lit "3") then
           _ <== say MsgGoodbye ;;
           retP true
         else
           _ <== say MsgInvalidChoice ;;
           _ <== input AskContinue ;;
           retP false)
          {| journal := journal s
                        ++ [System (if posix host then lit "clear" else lit "cls");
                            Say MsgMenu; Input AskChoice];
             typed := rest |}
    end.
Proof.
  unfold menu_round.
  unfold bindP at 1, os_system at 1. unfold bindP at 1, say at 1.
  unfold bindP at 1, input at 1. unfold act. simpl.
  destruct (typed s) as [|line rest]; rewrite <- !app_assoc; reflexivity.
Qed.






End MenuFacts.

Section BatchFacts.

Variable R : Runtime.
Variable host : Host.

Lemma process_single_url_files (url : pystr) (s s' : session) (ok : bool) :
  process_single_url R host url s = (Done ok, s') ->
  exists acts,
    journal s' = journal s ++ acts
    /\ length (filter is_saved acts) = if ok then 1%nat else 0%nat.
Proof.
  intro E.
  destruct (process_single_url_step R host url s s' _ E) as [acts [Hj [_ H]]].
  exists acts. split; [exact Hj|].
  destruct (clean_and_validate_url R url) as [[[|c v]|]|e].
  - destruct H as [H ->]. inversion H. reflexivity.
  - destruct H as [ok' [H [_ Hw]]]. inversion H; subst ok'.
    rewrite filter_saved_saving.
    destruct ok.
    + destruct Hw as [name [doc [k [-> _]]]].
      rewrite filter_saved_did, filter_app, stored_failed_saves. reflexivity.
    + destruct Hw as [k ->].
      rewrite filter_saved_did, stored_failed_saves. reflexivity.
  - destruct H as [H ->]. inversion H. reflexivity.
  - destruct H as [H _]. discriminate H.
Qed.

(** When the batch loop comes to its end, every URL has been counted
    once, as a success or as a failure, and the successes are as many as
    the documents written.  A save that failed once the file was open
    counts as a failure, though it has left a file created or emptied. *)
Theorem batch_counts (urls : list pystr) :
  forall (i total successful failed : nat) (s s' : session)
         (successful' failed' : nat),
    process_batch R host i total urls successful failed s
    = (Done (successful', failed'), s') ->
    exists acts,
      journal s' = journal s ++ acts
      /\ (successful' + failed' = successful + failed + length urls)%nat
      /\ (successful' = successful + length (filter is_saved acts))%nat.
Proof.
  induction urls as [|url urls IH];
    intros i total successful failed s s' successful' failed' E.
  - inversion E; subst. exists []. rewrite app_nil_r. simpl.
    repeat split; lia.
  - rewrite process_batch_cons in E.
    unfold bindP at 1, say at 1 in E. unfold bindP at 1 in E.
    destruct (process_single_url R host url
                (act (Say (MsgProcessing i total url)) s))
      as [[ok|f] s1] eqn:E1; [|discriminate E].
    destruct (process_single_url_files url _ s1 ok E1) as [a [Ha Hf]].
    unfold bindP at 1 in E.
    destruct ok.
    + unfold bindP at 1, say at 1, retP at 1 in E.
      unfold bindP at 1, say at 1 in E. unfold bindP at 1, sleep at 1 in E.
      cbn [fst snd] in E.
      destruct (IH _ _ _ _ _ _ _ _ E) as [b [Hb [Hc Hs]]].
      exists ([Say (MsgProcessing i total url)] ++ a
                ++ [Say MsgSuccess; Say MsgRule; Did (Sleep 1)] ++ b).
      assert (Hfil : filter is_saved
                       ([Say (MsgProcessing i total url)] ++ a
                          ++ [Say MsgSuccess; Say MsgRule; Did (Sleep 1)] ++ b)
                     = filter is_saved a ++ filter is_saved b)
        by (rewrite !filter_app; reflexivity).
      rewrite Hfil, length_app, Hf. clear Hfil.
      rewrite Hb. simpl. rewrite Ha. simpl. rewrite <- !app_assoc. simpl.
      split; [reflexivity|]. lia.
    + unfold bindP at 1, say at 1, retP at 1 in E.
      unfold bindP at 1, say at 1 in E. unfold bindP at 1, sleep at 1 in E.
      cbn [fst snd] in E.
      destruct (IH _ _ _ _ _ _ _ _ E) as [b [Hb [Hc Hs]]].
      exists ([Say (MsgProcessing i total url)] ++ a
                ++ [Say MsgFailedMark; Say MsgRule; Did (Sleep 1)] ++ b).
      assert (Hfil : filter is_saved
                       ([Say (MsgProcessing i total url)] ++ a
                          ++ [Say MsgFailedMark; Say MsgRule; Did (Sleep 1)] ++ b)
                     = filter is_saved a ++ filter is_saved b)
        by (rewrite !filter_app; reflexivity).
      rewrite Hfil, length_app, Hf. clear Hfil.
      rewrite Hb. simpl. rewrite Ha. simpl. rewrite <- !app_assoc. simpl.
      split; [reflexivity|]. lia.
Qed.

(** *** The menu *)

Lemma main_loop_idle (passes : nat) :
  forall s,
    Forall (fun line => str_eqb (strip line) (lit "1") = false
                        /\ str_eqb (strip line) (lit "2") = false) (typed s) ->
    exists acts,
      journal (snd (main_loop R host passes s)) = journal s ++ acts
      /\ forallb is_quiet acts = true.
Proof.
  induction passes as [|passes IH]; intros s Hs.
  - exists []. simpl. rewrite app_nil_r. auto.
  - cbn [main_loop]. rewrite menu_round_unfold.
    set (clear := System (if posix host then lit "clear" else lit "cls")).
    destruct (typed s) as [|line rest] eqn:Ht.
    + exists [clear; Say MsgMenu; Input AskChoice]. split; reflexivity.
    + inversion Hs as [|? ? [H1 H2] Hrest]; subst.
      cbv zeta. rewrite H1, H2.
      destruct (str_eqb (strip line) (lit "3")).
      * exists [clear; Say MsgMenu; Input AskChoice; Say MsgGoodbye].
        unfold bindP, say, retP, act. cbn [journal snd].
        rewrite <- app_assoc. split; reflexivity.
      * unfold bindP at 1, say at 1. unfold bindP at 1, input at 1.
        cbn [typed act].
        destruct rest as [|enter rest].
        -- exists [clear; Say MsgMenu; Input AskChoice; Say MsgInvalidChoice;
                   Input AskContinue].
           unfold act. cbn [journal snd]. rewrite <- !app_assoc.
           split; reflexivity.
        -- unfold retP. cbn [journal act].
           inversion Hrest; subst.
           match goal with
           | |- context [main_loop R host passes ?s1] =>
               destruct (IH s1) as [acts [Ha Hq]]; [assumption|]
           end.
           rewrite Ha. cbn [journal].
           exists ([clear; Say MsgMenu; Input AskChoice; Say MsgInvalidChoice;
                    Input AskContinue] ++ acts).
           split.
           ++ rewrite <- !app_assoc. reflexivity.
           ++ rewrite forallb_app, Hq. reflexivity.
Qed.

(** As long as no typed line is the choice 1 or 2, the menu asks the
    server nothing and touches no file: it clears the screen, prints and
    reads. *)
Theorem menu_without_choice_is_idle (s : session) :
  Forall (fun line => str_eqb (strip line) (lit "1") = false
                      /\ str_eqb (strip line) (lit "2") = false) (typed s) ->
  exists acts,
    journal (snd (main R host s)) = journal s ++ acts
    /\ forallb is_quiet acts = true.
Proof. apply main_loop_idle. Qed.

(** A URL typed at choice 1 on which the validator raises ends the
    program with that exception: nothing catches it. *)
Theorem raising_url_ends_the_program
        (choice url : pystr) (rest : list pystr) (e : exn)
        (before : list action) :
  strip choice = lit "1" ->
  strip url <> [] ->
  clean_and_validate_url R (strip url) = Raise e ->
  main R host {| journal := before; typed := choice :: url :: rest |}
  = (Some (Fault (Exn e)),
     {| journal := before
                   ++ [System (if posix host then lit "clear" else lit "cls");
                       Say MsgMenu; Input AskChoice; Input AskUrl];
        typed := rest |}).
Proof.
  intros Hc Hu He. unfold main. cbn [typed length main_loop].
  rewrite menu_round_unfold. cbn [typed journal]. cbv zeta. rewrite Hc.
  change (str_eqb (lit "1") (lit "1")) with true. cbv iota.
  unfold bindP at 1, input at 1. cbn [typed journal].
  apply is_empty_false in Hu. rewrite Hu.
  unfold bindP at 1.
  pose proof (page_step := process_single_url_step R host (strip url)).
  match goal with
  | |- context [process_single_url R host (strip url) ?s1] =>
      destruct (process_single_url R host (strip url) s1) as [r s'] eqn:E;
      destruct (page_step s1 s' r E) as [acts [Hj [Ht H]]]
  end.
  rewrite He in H. destruct H as [-> ->].
  rewrite app_nil_r in Hj. destruct s'. simpl in *. subst.
  rewrite <- app_assoc. reflexivity.
Qed.

End BatchFacts.

Lemma raising_url_ends_the_program_witness :
  main basic_latin host_offline (begin [lit "1"; lit "[::1"; lit "3"])
  = (Some (Fault (Exn ValueError)),
     {| journal := [System (lit "clear"); Say MsgMenu; Input AskChoice;
                    Input AskUrl];
        typed := [lit "3"] |}).
Proof.
  apply (raising_url_ends_the_program basic_latin host_offline (lit "1")
           (lit "[::1") [lit "3"] ValueError []).
  - reflexivity.
  - discriminate.
  - reflexivity.
Defined.

Section TaskFacts.

Variable R : Runtime.
Variable host : Host.


End TaskFacts.


Lemma read_urls_returns_accepted_lines_witness :
  exists notes,
    read_urls_from_file basic_latin (host_with_file list_file) (lit "urls.txt")
      (begin [])
    = (Done [lit "https://example.com/a"; lit "https://example.com/a"],
       {| journal := Open (lit "urls.txt") :: map Say notes; typed := [] |}).
Proof.
  apply (read_urls_returns_accepted_lines basic_latin (host_with_file list_file)
           (lit "urls.txt") list_file (begin []) eq_refl).
  intros line Hin. unfold list_file in Hin. simpl in Hin.
  repeat (destruct Hin as [<-|Hin]; [eexists; vm_compute; reflexivity|]).
  destruct Hin.
Defined.

Lemma read_urls_empty_on_any_failure_witness :
  fst (read_urls_from_file basic_latin
         (host_with_file [lit "example.com/a" ++ [10]; lit "[::1" ++ [10]])
         (lit "urls.txt") (begin []))
  = Done [].
Proof.
  apply (read_urls_empty_on_any_failure basic_latin
           (host_with_file [lit "example.com/a" ++ [10]; lit "[::1" ++ [10]])
           (lit "urls.txt") (begin [])).
  right. exists (lit "[::1" ++ [10]), ValueError.
  split; [right; left; reflexivity | reflexivity].
Defined.

Lemma batch_counts_witness :
  exists acts,
    journal (snd (process_batch basic_latin host_direct 1 3
                    [lit "https://example.com/a"; lit "http://";
                     lit "https://example.com/b"]
                    0 0 (begin [])))
    = acts
    /\ (2 + 1 = 0 + 0 + 3)%nat
    /\ (2 = 0 + length (filter is_saved acts))%nat.
Proof.
  destruct (batch_counts basic_latin host_direct
              [lit "https://example.com/a"; lit "http://";
               lit "https://example.com/b"]
              1 3 0 0 (begin [])
              (snd (process_batch basic_latin host_direct 1 3
                      [lit "https://example.com/a"; lit "http://";
                       lit "https://example.com/b"]
                      0 0 (begin [])))
              2 1 ltac:(vm_compute; reflexivity)) as [acts [Hj [Hc Hs]]].
  exists acts. split; [exact Hj|]. split; [exact Hc | exact Hs].
Defined.

Lemma menu_without_choice_is_idle_witness :
  exists acts,
    journal (snd (main basic_latin host_offline
                    (begin [lit "7"; []; lit " 3 "])))
    = acts
    /\ forallb is_quiet acts = true.
Proof.
  apply (menu_without_choice_is_idle basic_latin host_offline
           (begin [lit "7"; []; lit " 3 "])).
  repeat constructor.
Defined.

Section DirectFacts.

Variable R : Runtime.
Variable host : Host.

(** When the server answers the submission with status 200 and a body
    that holds neither [task_id] nor [id], nothing is polled: the content
    is extracted from that body and, when the file can be opened and the
    document written, saved, and the result is [True]. *)
Theorem direct_answer_is_saved
        (url cleaned_url endpoint : pystr) (response : post_response)
        (result : json) (text name : pystr) (s : session) :
  clean_and_validate_url R url = Ret (Some cleaned_url) ->
  urljoin R CRAWL4AI_BASE_URL (lit "/crawl") = Ret endpoint ->
  crawl host (length (filter is_post (journal s))) endpoint
        (crawl_request cleaned_url (time_time host (S (moment s))))
  = Some response ->
  status_code (posted response) = 200 ->
  json_body (posted response) = Some result ->
  py_in (lit "task_id") result = Ret false ->
  py_in (lit "id") result = Ret false ->
  extract_clean_content R result = Ret (Some text) ->
  text <> [] ->
  get_filename_from_url R cleaned_url = Ret name ->
  writable (polled host) name = true ->
  write_raises (polled host) name
    {| doc_url := cleaned_url;
       doc_timestamp := strftime (polled host)
                                 (length (inner_events (journal s)));
       doc_length := length text;
       doc_content := text |} = None ->
  process_single_url R host url s
  = (Done true,
     {| journal :=
          journal s
          ++ [Say (MsgCrawling cleaned_url);
              Post endpoint
                (crawl_request cleaned_url (time_time host (S (moment s))))
                get_auth_headers;
              Did (WriteFile name
                     {| doc_url := cleaned_url;
                        doc_timestamp :=
                          strftime (polled host)
                                   (length (inner_events (journal s)));
                        doc_length := length text;
                        doc_content := text |});
              Did (Print (MsgSaved name));
              Did (Print (MsgLength (length text)))];
        typed := typed s |}).
Proof.
  intros Hc Hu Hpost Hcode Hbody Htask Hid Hx Htext Hn Hw Hr.
  pose proof (accepted_not_empty R url cleaned_url Hc) as Hne.
  unfold process_single_url. unfold bindP at 1, liftO at 1. rewrite Hc.
  destruct cleaned_url as [|c v]; [congruence|].
  unfold bindP at 1, say at 1. unfold bindP at 1, int_time.
  fold (crawl_request (c :: v)
          (time_time host (moment (act (Say (MsgCrawling (c :: v))) s)))).
  replace (moment (act (Say (MsgCrawling (c :: v))) s)) with (S (moment s))
    by (unfold moment, act; simpl; rewrite length_app; simpl; lia).
  unfold try_except, submit.
  unfold bindP at 1, liftO at 1. rewrite Hu.
  unfold bindP at 1, requests_post.
  replace (filter is_post (journal (act (Say (MsgCrawling (c :: v))) s)))
    with (filter is_post (journal s))
    by (unfold act; simpl; rewrite filter_app; simpl; rewrite app_nil_r;
        reflexivity).
  rewrite Hpost, Hcode. change (200 =? 200) with true. cbv iota.
  unfold bindP at 1, liftO at 1, response_json. rewrite Hbody.
  unfold bindP at 1, liftO at 1. rewrite Htask.
  unfold bindP at 1, liftO at 1. rewrite Hid.
  unfold bindP at 1, liftO at 1. rewrite Hx.
  destruct text as [|t text]; [congruence|].
  unfold bindP at 1, liftM.
  set (s2 := act (Post endpoint
                    (crawl_request (c :: v) (time_time host (S (moment s))))
                    get_auth_headers)
               (act (Say (MsgCrawling (c :: v))) s)).
  assert (Hlog : log (world_of s2) = inner_events (journal s)).
  { unfold s2, world_of, act. simpl. rewrite !inner_events_app. simpl.
    rewrite !app_nil_r. reflexivity. }
  assert (Hsave :
            save_markdown R (polled host) (t :: text) (c :: v) (world_of s2)
            = (Ret tt,
               {| requests := requests (world_of s2);
                  log := log (world_of s2)
                         ++ [WriteFile name
                               {| doc_url := c :: v;
                                  doc_timestamp :=
                                    strftime (polled host)
                                             (length (inner_events (journal s)));
                                  doc_length := length (t :: text);
                                  doc_content := t :: text |};
                             Print (MsgSaved name);
                             Print (MsgLength (length (t :: text)))] |})).
  { unfold save_markdown, bindM, lift. rewrite Hn, Hw, Hlog, Hr.
    unfold print, emit. cbn [log requests]. rewrite Hlog.
    rewrite <- !app_assoc. reflexivity. }
  erewrite run_did; rewrite Hsave; [|reflexivity].
  unfold retP, did, s2, act. cbn [journal typed fst map].
  rewrite <- !app_assoc. reflexivity.
Qed.

End DirectFacts.

Lemma direct_answer_is_saved_witness :
  process_single_url basic_latin host_direct
    (lit "example.com/blog/my-post.html") (begin [])
  = (Done true,
     {| journal :=
          journal (begin [])
          ++ [Say (MsgCrawling page);
              Post (url_of "/crawl")
                (crawl_request page
                   (time_time host_direct (S (moment (begin [])))))
                get_auth_headers;
              Did (WriteFile (lit "examplecom-my-post.md")
                     {| doc_url := page;
                        doc_timestamp :=
                          strftime (polled host_direct)
                                   (length (inner_events (journal (begin []))));
                        doc_length := length (lit "Done");
                        doc_content := lit "Done" |});
              Did (Print (MsgSaved (lit "examplecom-my-post.md")));
              Did (Print (MsgLength (length (lit "Done"))))];
        typed := typed (begin []) |}).
Proof.
  apply (direct_answer_is_saved basic_latin host_direct
           (lit "example.com/blog/my-post.html") page (url_of "/crawl")
           {| posted :=
                {| status_code := 200;
                   json_body :=
                     Some (object [("markdown"%string, JStr (lit "Done"))]) |};
              response_text := [] |}
           (object [("markdown"%string, JStr (lit "Done"))])
           (lit "Done") (lit "examplecom-my-post.md") (begin [])).
  - vm_compute. reflexivity.
  - reflexivity.
  - reflexivity.
  - reflexivity.
  - reflexivity.
  - reflexivity.
  - reflexivity.
  - vm_compute. reflexivity.
  - discriminate.
  - vm_compute. reflexivity.
  - reflexivity.
  - reflexivity.
Defined.
